(** * Best-first search: the graph store of [graph.py] and its search engine

    [graph.py] wraps a [networkx.DiGraph] in a class [Graph] that also holds
    the start and goal designations, and saves and loads it as a JSON
    document.  This development embeds

    - the Python values that occur in such a document ([pyval]) and the
      hashable ones that can be node identifiers ([key]);
    - Python's insertion-ordered [dict] as an association list whose
      assignment keeps the position of an existing key;
    - the part of [networkx.DiGraph] that [Graph] calls (module [nx]);
    - every method of [Graph], as a function from the object's state to its
      new state and an outcome (a returned value or a raised exception);
    - the search engine, whose module ([algorithms.py]) is not part of the
      sources and is modelled from the specification;
    - what [visualization.py] computes for its drawing calls from the graph,
      the path and the steps: node colours, highlighted edges and nodes, the
      step of a frame.

    Scope of the value model: [None], integers, strings, lists and
    string-keyed dicts (a [PDict] stands for the dict that holds, for each
    key, its first entry).  Booleans, floats and tuples are left out, and so
    is the text of exception messages.  The text layer of [json.dump] and
    [json.load] is taken as the identity on these values; it is one when
    every integer has at most 4300 digits (the interpreter's limit for the
    conversion between integers and text) and no value nests deeper than
    the interpreter's recursion limit ([json_plain] names a class of graphs
    where this holds). *)

From Stdlib Require Import List String ZArith Bool Lia.
Import ListNotations.

Local Open Scope string_scope.
Local Open Scope list_scope.

Set Warnings "-register-all".

(* ================================================================= *)
(** ** Python values, hashable keys, exceptions *)

Inductive pyval : Type :=
| PNone
| PInt (z : Z)
| PStr (s : string)
| PList (items : list pyval)
| PDict (entries : list (string * pyval)).

(** The hashable scalars: what can be a dict key, hence a node. *)
Inductive key : Type :=
| KNone
| KInt (z : Z)
| KStr (s : string).

(** The exception classes the code can raise.  [KeyError] carries the
    missing key.  [SearchNotConfiguredError] belongs to the search engine of
    the specification. *)
Inductive exn : Type :=
| KeyError (k : pyval)
| ValueError
| TypeError
| AttributeError
| NetworkXError
| SearchNotConfiguredError.

Inductive result (A : Type) : Type :=
| Raise (e : exn)
| Return (a : A).

Arguments Raise {A} e.
Arguments Return {A} a.

Definition bind {A B : Type} (r : result A) (f : A -> result B) : result B :=
  match r with
  | Raise e => Raise e
  | Return a => f a
  end.

Declare Scope result_scope.
Delimit Scope result_scope with result.
Notation "x <- c1 ;; c2" := (bind c1 (fun x => c2))
  (at level 61, c1 at next level, right associativity) : result_scope.
Local Open Scope result_scope.

Fixpoint map_result {A B : Type} (f : A -> result B) (l : list A)
  : result (list B) :=
  match l with
  | [] => Return []
  | x :: rest =>
      y <- f x ;;
      ys <- map_result f rest ;;
      Return (y :: ys)
  end.

Definition raised {A : Type} (r : result A) : Prop :=
  exists e, r = Raise e.

(** [hash(v)]: lists and dicts are unhashable. *)
Definition hash (v : pyval) : result key :=
  match v with
  | PNone => Return KNone
  | PInt z => Return (KInt z)
  | PStr s => Return (KStr s)
  | PList _ => Raise TypeError
  | PDict _ => Raise TypeError
  end.

Definition of_key (k : key) : pyval :=
  match k with
  | KNone => PNone
  | KInt z => PInt z
  | KStr s => PStr s
  end.

(** [bool(v)] as evaluated by [if v:]. *)
Definition truthy (v : pyval) : bool :=
  match v with
  | PNone => false
  | PInt z => negb (Z.eqb z 0)
  | PStr s => negb (String.eqb s "")
  | PList l => match l with [] => false | _ => true end
  | PDict d => match d with [] => false | _ => true end
  end.

(* ================================================================= *)
(** ** Insertion-ordered dicts *)

(** Key equality, as [__eq__] on hashable values. *)
Class EqKey (K : Type) : Type := {
  keq : K -> K -> bool;
  keq_eq : forall a b, keq a b = true <-> a = b
}.

Arguments keq : simpl never.

Definition key_eqb (a b : key) : bool :=
  match a, b with
  | KNone, KNone => true
  | KInt x, KInt y => Z.eqb x y
  | KStr x, KStr y => String.eqb x y
  | _, _ => false
  end.

Lemma key_eqb_eq (a b : key) : key_eqb a b = true <-> a = b.
Proof.
  destruct a, b; simpl; split; intro E; try discriminate; try reflexivity.
  - apply Z.eqb_eq in E. now subst.
  - injection E as ->. apply Z.eqb_refl.
  - apply String.eqb_eq in E. now subst.
  - injection E as ->. apply String.eqb_refl.
Qed.

#[export] Instance EqKey_key : EqKey key :=
  {| keq := key_eqb; keq_eq := key_eqb_eq |}.

#[export] Instance EqKey_string : EqKey string :=
  {| keq := String.eqb; keq_eq := String.eqb_eq |}.

Definition dict (K V : Type) : Type := list (K * V).

Section DictOps.
Context {K V : Type} `{EqKey K}.

(** [d.get(k)] *)
Fixpoint dict_get (d : dict K V) (k : K) : option V :=
  match d with
  | [] => None
  | (k', v) :: d' => if keq k k' then Some v else dict_get d' k
  end.

(** [k in d] *)
Definition dict_mem (d : dict K V) (k : K) : bool :=
  match dict_get d k with
  | Some _ => true
  | None => false
  end.

(** [d[k] = v]: an existing key keeps its position, a new one goes last. *)
Fixpoint dict_set (d : dict K V) (k : K) (v : V) : dict K V :=
  match d with
  | [] => [(k, v)]
  | (k', v') :: d' =>
      if keq k k' then (k', v) :: d' else (k', v') :: dict_set d' k v
  end.

(** [list(d)] *)
Definition dict_keys (d : dict K V) : list K := map fst d.

(** [d.update(other)] *)
Definition dict_update (d other : dict K V) : dict K V :=
  fold_left (fun acc kv => dict_set acc (fst kv) (snd kv)) other d.
End DictOps.

(** Attribute dicts of nodes and edges: [{'heuristic': h}], [{'weight': w}]. *)
Definition attrs : Type := dict string pyval.

(* ================================================================= *)
(** ** The part of [networkx.DiGraph] that [Graph] uses *)

Module nx.

Record DiGraph : Type := {
  _node : dict key attrs;
  _succ : dict key (dict key attrs);
  _pred : dict key (dict key attrs)
}.

(** [nx.DiGraph()] *)
Definition empty : DiGraph := {| _node := []; _succ := []; _pred := [] |}.

(** [G.add_node(node_for_adding, **attr)] *)
Definition add_node (node_for_adding : pyval) (attr : attrs) (G : DiGraph)
  : DiGraph * result unit :=
  match hash node_for_adding with
  | Raise e => (G, Raise e)
  | Return n =>
      if negb (dict_mem (_succ G) n) then
        match n with
        | KNone => (G, Raise ValueError)
        | _ =>
            ({| _node := dict_set (_node G) n (dict_update [] attr);
                _succ := dict_set (_succ G) n [];
                _pred := dict_set (_pred G) n [] |}, Return tt)
        end
      else
        match dict_get (_node G) n with
        | None => (G, Raise (KeyError node_for_adding))
        | Some a =>
            ({| _node := dict_set (_node G) n (dict_update a attr);
                _succ := _succ G;
                _pred := _pred G |}, Return tt)
        end
  end.

(** The block [if u not in self._succ: ...] that [add_edge] runs for each
    endpoint; it returns the endpoint's key. *)
Definition ensure_node (u : pyval) (G : DiGraph) : DiGraph * result key :=
  match hash u with
  | Raise e => (G, Raise e)
  | Return n =>
      if negb (dict_mem (_succ G) n) then
        match n with
        | KNone => (G, Raise ValueError)
        | _ =>
            ({| _node := dict_set (_node G) n [];
                _succ := dict_set (_succ G) n [];
                _pred := dict_set (_pred G) n [] |}, Return n)
        end
      else (G, Return n)
  end.

(** [G.add_edge(u_of_edge, v_of_edge, **attr)].  An endpoint that is new
    is added before the other one is looked at, so a failure on [v] leaves
    [u] in the graph. *)
Definition add_edge (u_of_edge v_of_edge : pyval) (attr : attrs)
    (G : DiGraph) : DiGraph * result unit :=
  let (G1, ru) := ensure_node u_of_edge G in
  match ru with
  | Raise e => (G1, Raise e)
  | Return u =>
      let (G2, rv) := ensure_node v_of_edge G1 in
      match rv with
      | Raise e => (G2, Raise e)
      | Return v =>
          match dict_get (_succ G2) u with
          | None => (G2, Raise (KeyError u_of_edge))
          | Some adj_u =>
              let datadict :=
                dict_update
                  (match dict_get adj_u v with Some d => d | None => [] end)
                  attr in
              let G3 :=
                {| _node := _node G2;
                   _succ := dict_set (_succ G2) u (dict_set adj_u v datadict);
                   _pred := _pred G2 |} in
              match dict_get (_pred G3) v with
              | None => (G3, Raise (KeyError v_of_edge))
              | Some pred_v =>
                  ({| _node := _node G3;
                      _succ := _succ G3;
                      _pred := dict_set (_pred G3) v
                                 (dict_set pred_v u datadict) |}, Return tt)
              end
          end
      end
  end.

(** [G.nodes[n]] *)
Definition nodes_getitem (n : pyval) (G : DiGraph) : result attrs :=
  k <- hash n ;;
  match dict_get (_node G) k with
  | Some a => Return a
  | None => Raise (KeyError n)
  end.

(** [iter(G.nodes)] *)
Definition nodes (G : DiGraph) : list key := dict_keys (_node G).

(** [G.successors(n)]: a [KeyError] is turned into a [NetworkXError]. *)
Definition successors (n : pyval) (G : DiGraph) : result (list key) :=
  k <- hash n ;;
  match dict_get (_succ G) k with
  | Some nbrs => Return (dict_keys nbrs)
  | None => Raise NetworkXError
  end.

(** [G[u][v]] *)
Definition adj_getitem (u v : pyval) (G : DiGraph) : result attrs :=
  ku <- hash u ;;
  match dict_get (_succ G) ku with
  | None => Raise (KeyError u)
  | Some nbrs =>
      kv <- hash v ;;
      match dict_get nbrs kv with
      | Some d => Return d
      | None => Raise (KeyError v)
      end
  end.

(** [iter(G.edges)]: node by node, each node's successors in order. *)
Definition edges (G : DiGraph) : list (key * key) :=
  flat_map (fun entry => map (fun nbr => (fst entry, fst nbr)) (snd entry))
           (_succ G).

(** [G.edges[e]] for [e = (u, v)] *)
Definition edges_getitem (e : key * key) (G : DiGraph) : result attrs :=
  match dict_get (_succ G) (fst e) with
  | None => Raise (KeyError (PList [of_key (fst e); of_key (snd e)]))
  | Some nbrs =>
      match dict_get nbrs (snd e) with
      | Some d => Return d
      | None => Raise (KeyError (PList [of_key (fst e); of_key (snd e)]))
      end
  end.

End nx.

(** [d[name]] on an attribute dict *)
Definition attr_getitem (d : attrs) (name : string) : result pyval :=
  match dict_get d name with
  | Some v => Return v
  | None => Raise (KeyError (PStr name))
  end.

(* ================================================================= *)
(** ** class [Graph] *)

Record Graph : Type := {
  graph : nx.DiGraph;
  start_node : key;
  goal_node : key
}.

(** [Graph.__init__] *)
Definition init : Graph :=
  {| graph := nx.empty; start_node := KNone; goal_node := KNone |}.

Definition with_graph (self : Graph) (G : nx.DiGraph) : Graph :=
  {| graph := G; start_node := start_node self; goal_node := goal_node self |}.

(** [Graph.add_node(node_id, heuristic)]; a caller that leaves the
    heuristic out passes [PInt 0]. *)
Definition add_node (node_id heuristic : pyval) (self : Graph)
  : Graph * result unit :=
  let (G, r) := nx.add_node node_id [("heuristic", heuristic)] (graph self) in
  (with_graph self G, r).

(** [Graph.add_edge(from_node, to_node, weight)]; a caller that leaves the
    weight out passes [PInt 1]. *)
Definition add_edge (from_node to_node weight : pyval) (self : Graph)
  : Graph * result unit :=
  let (G, r) :=
    nx.add_edge from_node to_node [("weight", weight)] (graph self) in
  (with_graph self G, r).

(** [Graph.set_start_node(node_id)].  The test [node_id in self.graph.nodes]
    hashes [node_id] and looks it up in [_node]; the designation is kept as
    the key of the value. *)
Definition set_start_node (node_id : pyval) (self : Graph)
  : Graph * result unit :=
  match hash node_id with
  | Raise e => (self, Raise e)
  | Return k =>
      if dict_mem (nx._node (graph self)) k then
        ({| graph := graph self; start_node := k;
            goal_node := goal_node self |}, Return tt)
      else (self, Raise ValueError)
  end.

(** [Graph.set_goal_node(node_id)] *)
Definition set_goal_node (node_id : pyval) (self : Graph)
  : Graph * result unit :=
  match hash node_id with
  | Raise e => (self, Raise e)
  | Return k =>
      if dict_mem (nx._node (graph self)) k then
        ({| graph := graph self; start_node := start_node self;
            goal_node := k |}, Return tt)
      else (self, Raise ValueError)
  end.

(** [Graph.get_heuristic(node_id)] *)
Definition get_heuristic (node_id : pyval) (self : Graph) : result pyval :=
  a <- nx.nodes_getitem node_id (graph self) ;;
  attr_getitem a "heuristic".

(** [Graph.get_neighbors(node_id)] *)
Definition get_neighbors (node_id : pyval) (self : Graph)
  : result (list key) :=
  nx.successors node_id (graph self).

(** [Graph.get_edge_weight(from_node_id, to_node_id)] *)
Definition get_edge_weight (from_node_id to_node_id : pyval) (self : Graph)
  : result pyval :=
  d <- nx.adj_getitem from_node_id to_node_id (graph self) ;;
  attr_getitem d "weight".

(** One entry of the ['nodes'] list built by [save_to_file]. *)
Definition save_node (self : Graph) (node : key) : result pyval :=
  a <- nx.nodes_getitem (of_key node) (graph self) ;;
  h <- attr_getitem a "heuristic" ;;
  Return (PDict [("id", of_key node); ("heuristic", h)]).

(** One entry of the ['edges'] list built by [save_to_file]. *)
Definition save_edge (self : Graph) (edge : key * key) : result pyval :=
  d <- nx.edges_getitem edge (graph self) ;;
  w <- attr_getitem d "weight" ;;
  Return (PDict [("from", of_key (fst edge)); ("to", of_key (snd edge));
                 ("weight", w)]).

(** [Graph.save_to_file]: the document that is written, or the exception
    raised while [graph_data] is built (the file is opened only after). *)
Definition save_to_file (self : Graph) : result pyval :=
  nodes <- map_result (save_node self) (nx.nodes (graph self)) ;;
  edges <- map_result (save_edge self) (nx.edges (graph self)) ;;
  Return (PDict [("nodes", PList nodes);
                 ("edges", PList edges);
                 ("start_node", of_key (start_node self));
                 ("goal_node", of_key (goal_node self))]).

(** [v[name]] for a value read from the document and a string subscript. *)
Definition getitem (v : pyval) (name : string) : result pyval :=
  match v with
  | PDict d =>
      match dict_get d name with
      | Some x => Return x
      | None => Raise (KeyError (PStr name))
      end
  | _ => Raise TypeError
  end.

(** [v.get(name)] *)
Definition get (v : pyval) (name : string) : result pyval :=
  match v with
  | PDict d =>
      match dict_get d name with
      | Some x => Return x
      | None => Return PNone
      end
  | _ => Raise AttributeError
  end.

Fixpoint chars (s : string) : list pyval :=
  match s with
  | EmptyString => []
  | String c rest => PStr (String c EmptyString) :: chars rest
  end.

(** [iter(v)], as run by a [for] loop. *)
Definition iter (v : pyval) : result (list pyval) :=
  match v with
  | PList l => Return l
  | PDict d => Return (map (fun kv => PStr (fst kv)) d)
  | PStr s => Return (chars s)
  | _ => Raise TypeError
  end.

(** A method call on the local [graph] of [load_from_file]: an exception
    leaves the function, the graph is lost with it. *)
Definition call (c : Graph * result unit) : result Graph :=
  match snd c with
  | Raise e => Raise e
  | Return _ => Return (fst c)
  end.

(** [for node_data in graph_data['nodes']: graph.add_node(...)] *)
Fixpoint load_nodes (items : list pyval) (graph : Graph) : result Graph :=
  match items with
  | [] => Return graph
  | node_data :: rest =>
      id <- getitem node_data "id" ;;
      h <- getitem node_data "heuristic" ;;
      graph' <- call (add_node id h graph) ;;
      load_nodes rest graph'
  end.

(** [for edge_data in graph_data['edges']: graph.add_edge(...)] *)
Fixpoint load_edges (items : list pyval) (graph : Graph) : result Graph :=
  match items with
  | [] => Return graph
  | edge_data :: rest =>
      f <- getitem edge_data "from" ;;
      t <- getitem edge_data "to" ;;
      w <- getitem edge_data "weight" ;;
      graph' <- call (add_edge f t w graph) ;;
      load_edges rest graph'
  end.

(** [Graph.load_from_file], from the document read by [json.load]. *)
Definition load_from_file (graph_data : pyval) : result Graph :=
  let graph := init in
  nodes <- getitem graph_data "nodes" ;;
  node_items <- iter nodes ;;
  graph <- load_nodes node_items graph ;;
  edges <- getitem graph_data "edges" ;;
  edge_items <- iter edges ;;
  graph <- load_edges edge_items graph ;;
  s <- get graph_data "start_node" ;;
  graph <- (if truthy s
            then s' <- getitem graph_data "start_node" ;;
                 call (set_start_node s' graph)
            else Return graph) ;;
  g <- get graph_data "goal_node" ;;
  graph <- (if truthy g
            then g' <- getitem graph_data "goal_node" ;;
                 call (set_goal_node g' graph)
            else Return graph) ;;
  Return graph.

(* ================================================================= *)
(** ** Histories of calls *)

(** The mutating calls a client can make on a [Graph]. *)
Inductive op : Type :=
| OpAddNode (node_id heuristic : pyval)
| OpAddEdge (from_node to_node weight : pyval)
| OpSetStart (node_id : pyval)
| OpSetGoal (node_id : pyval).

Definition exec (o : op) (self : Graph) : Graph * result unit :=
  match o with
  | OpAddNode n h => add_node n h self
  | OpAddEdge u v w => add_edge u v w self
  | OpSetStart n => set_start_node n self
  | OpSetGoal n => set_goal_node n self
  end.

(** The object after a sequence of calls; a call that raises leaves the
    state it had reached, and the client goes on. *)
Definition run (ops : list op) (self : Graph) : Graph :=
  fold_left (fun g o => fst (exec o g)) ops self.

(** The heuristic on record for [k] after the call [o], given the one on
    record before: only an [add_node] call for [k] itself changes it. *)
Definition heuristic_after (o : op) (k : key) (before : option pyval)
  : option pyval :=
  match o with
  | OpAddNode n h =>
      match hash n with
      | Return KNone => before
      | Return k' => if keq k k' then Some h else before
      | Raise _ => before
      end
  | _ => before
  end.

(** The heuristic given by the last [add_node] call for [k], if any. *)
Definition last_heuristic (ops : list op) (k : key) (before : option pyval)
  : option pyval :=
  fold_left (fun acc o => heuristic_after o k acc) ops before.

(** An [add_edge] call whose two endpoints are identifiers (hashable, not
    [None]), with their keys. *)
Definition edge_call (o : op) : option (key * key) :=
  match o with
  | OpAddEdge u v _ =>
      match hash u, hash v with
      | Return ku, Return kv =>
          match ku, kv with
          | KNone, _ => None
          | _, KNone => None
          | _, _ => Some (ku, kv)
          end
      | _, _ => None
      end
  | _ => None
  end.

(** The target of the call [o] if it is an [add_edge] that leaves [k]. *)
Definition target (o : op) (k : key) : list key :=
  match edge_call o with
  | Some (u, v) => if keq k u then [v] else []
  | None => []
  end.

(** The targets of the [add_edge] calls that leave [k], in call order. *)
Definition targets (ops : list op) (k : key) : list key :=
  flat_map (fun o => target o k) ops.

(** [k] is an endpoint of the call [o]. *)
Definition endpoint_of (o : op) (k : key) : Prop :=
  exists u v, edge_call o = Some (u, v) /\ (k = u \/ k = v).

(** Each element once, at the place of its first occurrence. *)
Fixpoint first_occurrences (seen l : list key) : list key :=
  match l with
  | [] => []
  | x :: rest =>
      if existsb (keq x) seen then first_occurrences seen rest
      else x :: first_occurrences (x :: seen) rest
  end.

(* ================================================================= *)
(** ** Well-formed states *)

Definition has_heuristic (a : attrs) : Prop :=
  exists h, a = [("heuristic", h)].

Definition node_attrs_ok (a : attrs) : Prop :=
  a = [] \/ has_heuristic a.

Definition edge_attrs_ok (a : attrs) : Prop :=
  exists w, a = [("weight", w)].

Definition adj_ok (names : list key) (nbrs : dict key attrs) : Prop :=
  NoDup (dict_keys nbrs) /\
  Forall (fun nbr => In (fst nbr) names /\ edge_attrs_ok (snd nbr)) nbrs.

(** What every [DiGraph] built by [Graph] satisfies. *)
Record wf_digraph (G : nx.DiGraph) : Prop := {
  wf_keys_succ : dict_keys (nx._succ G) = dict_keys (nx._node G);
  wf_keys_pred : dict_keys (nx._pred G) = dict_keys (nx._node G);
  wf_nodup : NoDup (dict_keys (nx._node G));
  wf_not_none : ~ In KNone (dict_keys (nx._node G));
  wf_node_attrs : Forall (fun e => node_attrs_ok (snd e)) (nx._node G);
  wf_adj : Forall (fun e => adj_ok (dict_keys (nx._node G)) (snd e))
                  (nx._succ G)
}.

(** A designation that is set names a node of the graph. *)
Definition designated_ok (G : nx.DiGraph) (d : key) : Prop :=
  d <> KNone -> In d (nx.nodes G).

Definition designations_ok (self : Graph) : Prop :=
  designated_ok (graph self) (start_node self) /\
  designated_ok (graph self) (goal_node self).

Definition wf (self : Graph) : Prop :=
  wf_digraph (graph self) /\ designations_ok self.

(** Every node was registered with a heuristic. *)
Definition registered (self : Graph) : Prop :=
  Forall (fun e => has_heuristic (snd e)) (nx._node (graph self)).

(** A valid graph, in the sense of the round-trip contract. *)
Definition valid (self : Graph) : Prop :=
  wf self /\ registered self.

(** Equivalence of graphs up to insertion order: same nodes with the same
    heuristics, same edges with the same weights, same designations. *)
Definition same_graph (a b : Graph) : Prop :=
  (forall k, dict_get (nx._node (graph a)) k = dict_get (nx._node (graph b)) k) /\
  (forall u v,
      match dict_get (nx._succ (graph a)) u with
      | Some nbrs => dict_get nbrs v
      | None => None
      end =
      match dict_get (nx._succ (graph b)) u with
      | Some nbrs => dict_get nbrs v
      | None => None
      end) /\
  start_node a = start_node b /\
  goal_node a = goal_node b.

(** The graph once [k] is a node: unchanged if it is one, else with [k]
    added last, without attributes and without edges. *)
Definition with_endpoint (G : nx.DiGraph) (k : key) : nx.DiGraph :=
  if dict_mem (nx._node G) k then G
  else {| nx._node := dict_set (nx._node G) k [];
          nx._succ := dict_set (nx._succ G) k [];
          nx._pred := dict_set (nx._pred G) k [] |}.

(** The adjacency dict of [k], empty when [k] is not a node. *)
Definition adj_of (G : nx.DiGraph) (k : key) : dict key attrs :=
  match dict_get (nx._succ G) k with
  | Some nbrs => nbrs
  | None => []
  end.

Definition pred_of (G : nx.DiGraph) (k : key) : dict key attrs :=
  match dict_get (nx._pred G) k with
  | Some nbrs => nbrs
  | None => []
  end.

(** The stored heuristic of [k], if [k] is a node that has one. *)
Definition heuristic_of (G : nx.DiGraph) (k : key) : option pyval :=
  match dict_get (nx._node G) k with
  | Some a => dict_get a "heuristic"
  | None => None
  end.

(** The graph after a successful [add_edge]. *)
Definition edge_added (G : nx.DiGraph) (u v : key) (w : pyval) : nx.DiGraph :=
  let G2 := with_endpoint (with_endpoint G u) v in
  {| nx._node := nx._node G2;
     nx._succ := dict_set (nx._succ G2) u
                   (dict_set (adj_of G2 u) v [("weight", w)]);
     nx._pred := dict_set (nx._pred G2) v
                   (dict_set (pred_of G2 v) u [("weight", w)]) |}.

(** [node_id] is in the node set. *)
Definition present (node_id : pyval) (G : nx.DiGraph) : Prop :=
  exists k, hash node_id = Return k /\ In k (nx.nodes G).

(** The document is an object that has the key ['nodes']. *)
Definition has_nodes_key (graph_data : pyval) : bool :=
  match graph_data with
  | PDict d => dict_mem d "nodes"
  | _ => false
  end.

(* ================================================================= *)
(** ** The search engine *)

(** Modelled from the spec: the [SearchStep] of the search of
    [algorithms.py] (not in the sources): the node being expanded, the nodes
    visited so far, the path that reaches the node. *)
Record SearchStep : Type := {
  current : key;
  visited : list key;
  path_so_far : list key
}.

(** Modelled from the spec: the [SearchResult] of [algorithms.py] (not in
    the sources): path (or [None]), expansion order, step trace. *)
Definition SearchResult : Type :=
  (option (list key) * list key * list SearchStep)%type.

(** Modelled from the spec: a frontier entry of [algorithms.py] (not in the
    sources): the node and the heuristic it was pushed with.  The frontier
    is kept in push order. *)
Definition entry : Type := (Z * key)%type.

(** Modelled from the spec: heuristics are numbers; the engine of
    [algorithms.py] (not in the sources) compares them. *)
Definition as_number (v : pyval) : result Z :=
  match v with
  | PInt z => Return z
  | _ => Raise TypeError
  end.

(** Modelled from the spec: the lowest heuristic value in a non-empty
    frontier of [algorithms.py] (not in the sources). *)
Definition min_heuristic (e : entry) (rest : list entry) : Z :=
  fold_left Z.min (map fst rest) (fst e).

(** Modelled from the spec: the tie-break of the frontier of
    [algorithms.py] (not in the sources): takes out the first pushed entry
    whose heuristic is [h]. *)
Fixpoint take_first (h : Z) (frontier : list entry)
  : option (entry * list entry) :=
  match frontier with
  | [] => None
  | e :: rest =>
      if Z.eqb (fst e) h then Some (e, rest)
      else match take_first h rest with
           | Some (m, rest') => Some (m, e :: rest')
           | None => None
           end
  end.

(** Modelled from the spec: the pop of the frontier of [algorithms.py]
    (not in the sources): the entry with the lowest heuristic value, the
    first pushed among equals. *)
Definition pop (frontier : list entry) : option (entry * list entry) :=
  match frontier with
  | [] => None
  | e :: rest => take_first (min_heuristic e rest) frontier
  end.

(** Modelled from the spec: the walk along the predecessor links of
    [algorithms.py] (not in the sources), from [n] back to [start]; it
    follows at most [fuel] links. *)
Fixpoint walk_back (fuel : nat) (predecessor : dict key key)
    (start n : key) : list key :=
  match fuel with
  | O => [n]
  | S fuel' =>
      if keq n start then [n]
      else match dict_get predecessor n with
           | Some p => n :: walk_back fuel' predecessor start p
           | None => [n]
           end
  end.

(** Modelled from the spec: path reconstruction of [algorithms.py] (not in
    the sources): walk the predecessor links from the node back to the
    start, then reverse.  The walk may follow as many links as the
    predecessor map has entries. *)
Definition reconstruct (predecessor : dict key key) (start n : key)
  : list key :=
  rev (walk_back (S (List.length predecessor)) predecessor start n).

(** Modelled from the spec: step 3g of the search of [algorithms.py] (not in
    the sources): each neighbour that is neither visited nor recorded in the
    predecessor map is recorded and pushed with its own heuristic. *)
Fixpoint push_neighbors (g : Graph) (cur : key) (nbrs : list key)
    (seen : list key) (predecessor : dict key key) (frontier : list entry)
  : result (dict key key * list entry) :=
  match nbrs with
  | [] => Return (predecessor, frontier)
  | n :: rest =>
      if existsb (keq n) seen then
        push_neighbors g cur rest seen predecessor frontier
      else if dict_mem predecessor n then
        push_neighbors g cur rest seen predecessor frontier
      else
        hv <- get_heuristic (of_key n) g ;;
        h <- as_number hv ;;
        push_neighbors g cur rest seen (dict_set predecessor n cur)
                       (frontier ++ [(h, n)])
  end.

(** Modelled from the spec: the main loop (step 3) of the search of
    [algorithms.py] (not in the sources).  [None] when the fuel runs out. *)
Fixpoint search_loop (fuel : nat) (g : Graph) (start goal : key)
    (frontier : list entry) (seen : list key) (predecessor : dict key key)
    (order : list key) (steps : list SearchStep)
  : option (result SearchResult) :=
  match fuel with
  | O => None
  | S fuel' =>
      match pop frontier with
      | None => Some (Return (None, order, steps))
      | Some ((_, cur), frontier') =>
          if existsb (keq cur) seen then
            search_loop fuel' g start goal frontier' seen predecessor
                        order steps
          else
            let seen' := seen ++ [cur] in
            let order' := order ++ [cur] in
            let path := reconstruct predecessor start cur in
            let steps' :=
              steps ++ [{| current := cur; visited := seen';
                           path_so_far := path |}] in
            if keq cur goal then Some (Return (Some path, order', steps'))
            else
              match get_neighbors (of_key cur) g with
              | Raise e => Some (Raise e)
              | Return nbrs =>
                  match push_neighbors g cur nbrs seen' predecessor
                                       frontier' with
                  | Raise e => Some (Raise e)
                  | Return (predecessor', frontier'') =>
                      search_loop fuel' g start goal frontier'' seen'
                                  predecessor' order' steps'
                  end
              end
      end
  end.

(** Modelled from the spec: [BestFirstSearch(graph).search()] of
    [algorithms.py] (not in the sources), section 4.2: greedy best-first
    search whose frontier is keyed by the heuristic alone.  A start node
    equal to the goal goes through the loop like any other (one expansion,
    one step).  Every node is pushed at most once, so two more rounds than
    there are nodes suffice ([search_returns]). *)
Definition search (g : Graph) : option (result SearchResult) :=
  match start_node g, goal_node g with
  | KNone, _ => Some (Raise SearchNotConfiguredError)
  | _, KNone => Some (Raise SearchNotConfiguredError)
  | start, goal =>
      match (hv <- get_heuristic (of_key start) g ;; as_number hv) with
      | Raise e => Some (Raise e)
      | Return h =>
          search_loop (2 + List.length (nx.nodes (graph g))) g start goal
                      [(h, start)] [] [] [] []
      end
  end.

(** The graph of the concrete scenario, built by calls. *)
Definition scenario : Graph :=
  run [OpAddNode (PStr "A") (PInt 5);
       OpAddNode (PStr "B") (PInt 3);
       OpAddNode (PStr "C") (PInt 0);
       OpAddEdge (PStr "A") (PStr "B") (PInt 1);
       OpAddEdge (PStr "A") (PStr "C") (PInt 4);
       OpAddEdge (PStr "B") (PStr "C") (PInt 2);
       OpSetStart (PStr "A");
       OpSetGoal (PStr "C")] init.

(* ================================================================= *)
(** ** Notions used in the statements *)

(** The graph after a successful [add_node]. *)
Definition node_added (G : nx.DiGraph) (k : key) (h : pyval) : nx.DiGraph :=
  {| nx._node := dict_set (nx._node G) k [("heuristic", h)];
     nx._succ := if dict_mem (nx._node G) k then nx._succ G
                 else dict_set (nx._succ G) k [];
     nx._pred := if dict_mem (nx._node G) k then nx._pred G
                 else dict_set (nx._pred G) k [] |}.

Definition key_eq_dec (a b : key) : {a = b} + {a <> b}.
Proof.
  decide equality; [apply Z.eq_dec|apply string_dec].
Defined.

(** The identifiers among [l] that are not nodes yet, each once. *)
Definition unregistered (self : Graph) (l : list key) : list key :=
  first_occurrences (nx.nodes (graph self)) l.

(** The entry [save_to_file] writes for a node that has a heuristic. *)
Definition node_entry (G : nx.DiGraph) (k : key) : pyval :=
  PDict [("id", of_key k);
         ("heuristic", match heuristic_of G k with
                       | Some h => h
                       | None => PNone
                       end)].

(** The weight of the edge [(u, v)], if there is one and it has a weight. *)
Definition weight_of (G : nx.DiGraph) (e : key * key) : option pyval :=
  match dict_get (adj_of G (fst e)) (snd e) with
  | Some d => dict_get d "weight"
  | None => None
  end.

(** The entry [save_to_file] writes for an edge. *)
Definition edge_entry (G : nx.DiGraph) (e : key * key) : pyval :=
  PDict [("from", of_key (fst e)); ("to", of_key (snd e));
         ("weight", match weight_of G e with
                    | Some w => w
                    | None => PNone
                    end)].

(** The document of a graph whose nodes all have a heuristic. *)
Definition document (self : Graph) : pyval :=
  PDict [("nodes", PList (map (node_entry (graph self))
                              (nx.nodes (graph self))));
         ("edges", PList (map (edge_entry (graph self))
                              (nx.edges (graph self))));
         ("start_node", of_key (start_node self));
         ("goal_node", of_key (goal_node self))].

(** A valid graph whose start node is named by the empty string and whose
    goal node is named by the integer 0. *)
Definition falsy_names_graph : Graph :=
  run [OpAddNode (PStr "") (PInt 7);
       OpAddNode (PInt 0) (PInt 0);
       OpAddEdge (PStr "") (PInt 0) (PInt 1);
       OpSetStart (PStr "");
       OpSetGoal (PInt 0)] init.

(** [load_from_file] on what [save_to_file] wrote. *)
Definition save_then_load (self : Graph) : result Graph :=
  graph_data <- save_to_file self ;;
  load_from_file graph_data.

(** A designation that [if graph_data.get(...)] lets through, or none. *)
Definition restorable (d : key) : Prop :=
  d = KNone \/ truthy (of_key d) = true.

(** The entry of the document for a row of [_node]. *)
Definition node_row_entry (row : key * attrs) : pyval :=
  PDict [("id", of_key (fst row));
         ("heuristic", match dict_get (snd row) "heuristic" with
                       | Some h => h
                       | None => PNone
                       end)].

(** The entry of the document for a row of the adjacency dict of [u]. *)
Definition edge_row_entry (u : key) (row : key * attrs) : pyval :=
  PDict [("from", of_key u); ("to", of_key (fst row));
         ("weight", match dict_get (snd row) "weight" with
                    | Some w => w
                    | None => PNone
                    end)].

(** Adjacency of nodes that have no edge yet. *)
Definition bare (names : list key) : dict key (dict key attrs) :=
  map (fun k => (k, [])) names.

(** The nodes that the predecessor map does not record yet. *)
Definition unrecorded (g : Graph) (predecessor : dict key key) : list key :=
  filter (fun n => negb (dict_mem predecessor n)) (nx.nodes (graph g)).

(** The graph can be built by calls on a fresh graph. *)
Definition reachable (g : Graph) : Prop :=
  exists ops, g = run ops init.

(** The call [o] when it is an [add_edge] between two identifiers: the keys
    of its endpoints and its weight. *)
Definition edge_call_weight (o : op) : option (key * key * pyval) :=
  match o with
  | OpAddEdge _ _ w =>
      match edge_call o with
      | Some e => Some (e, w)
      | None => None
      end
  | _ => None
  end.

(** The weight on record for the pair [e] after the call [o], given the one
    on record before: only an [add_edge] call for [e] itself changes it. *)
Definition weight_after (o : op) (e : key * key) (before : option pyval)
  : option pyval :=
  match edge_call_weight o with
  | Some (u, v, w) =>
      if keq (fst e) u && keq (snd e) v then Some w else before
  | None => before
  end.

(** The weight given by the last [add_edge] call for the pair [e], if any. *)
Definition last_weight (ops : list op) (e : key * key)
    (before : option pyval) : option pyval :=
  fold_left (fun acc o => weight_after o e acc) ops before.

(** The exception a call raises for a value that cannot name a node:
    [TypeError] for an unhashable value, [ValueError] for [None]. *)
Definition rejected (v : pyval) : option exn :=
  match hash v with
  | Raise e => Some e
  | Return KNone => Some ValueError
  | Return _ => None
  end.








(** What a client can observe of the structure of a graph: no node twice,
    [None] never a node, no edge twice, every edge between two nodes and
    with a weight, every node with a list of successors that agrees with
    the edges. *)
Definition shape_ok (g : Graph) : Prop :=
  NoDup (nx.nodes (graph g)) /\
  ~ In KNone (nx.nodes (graph g)) /\
  NoDup (nx.edges (graph g)) /\
  (forall u v, In (u, v) (nx.edges (graph g)) ->
     In u (nx.nodes (graph g)) /\ In v (nx.nodes (graph g)) /\
     exists w, get_edge_weight (of_key u) (of_key v) g = Return w) /\
  (forall k, In k (nx.nodes (graph g)) ->
     exists nbrs, get_neighbors (of_key k) g = Return nbrs /\
                  forall v, In v nbrs <-> In (k, v) (nx.edges (graph g))).

(** The designation that [load_from_file] takes from the field [name] of a
    document: none when the field is missing, null or false as a
    condition. *)
Definition designation_in (graph_data : pyval) (name : string) : key :=
  match get graph_data name with
  | Return s =>
      if truthy s
      then match hash s with
           | Return k => k
           | Raise _ => KNone
           end
      else KNone
  | Raise _ => KNone
  end.

(** An entry of ['nodes'] that [add_node] accepts: it has the fields ['id']
    and ['heuristic'], and the id is an identifier. *)
Definition node_item_ok (item : pyval) : Prop :=
  exists id h k,
    getitem item "id" = Return id /\
    getitem item "heuristic" = Return h /\
    hash id = Return k /\ k <> KNone.

(** An entry of ['edges'] that [add_edge] accepts. *)
Definition edge_item_ok (item : pyval) : Prop :=
  exists f t w kf kt,
    getitem item "from" = Return f /\
    getitem item "to" = Return t /\
    getitem item "weight" = Return w /\
    hash f = Return kf /\ kf <> KNone /\
    hash t = Return kt /\ kt <> KNone.

(** The key under the field [name] of an entry, when there is one. *)
Definition item_key (item : pyval) (name : string) : list key :=
  match bind (getitem item name) hash with
  | Return k => [k]
  | Raise _ => []
  end.

(** The identifiers a document names, in document order: the ids of its
    nodes, then the endpoints of its edges. *)
Definition document_names (node_items edge_items : list pyval) : list key :=
  flat_map (fun item => item_key item "id") node_items ++
  flat_map (fun item => item_key item "from" ++ item_key item "to")
           edge_items.

(** The field [name] of the document names no node, or one of [names]. *)
Definition designation_ok (graph_data : pyval) (name : string)
    (names : list key) : Prop :=
  forall s, get graph_data name = Return s -> truthy s = true ->
            exists k, hash s = Return k /\ In k names.

(** The documents that [load_from_file] accepts. *)
Definition loadable (graph_data : pyval) : Prop :=
  exists nodes edges node_items edge_items,
    getitem graph_data "nodes" = Return nodes /\
    iter nodes = Return node_items /\
    Forall node_item_ok node_items /\
    getitem graph_data "edges" = Return edges /\
    iter edges = Return edge_items /\
    Forall edge_item_ok edge_items /\
    designation_ok graph_data "start_node"
                   (document_names node_items edge_items) /\
    designation_ok graph_data "goal_node"
                   (document_names node_items edge_items).

(** The entries under the field [name] of a document, as the [for] loop of
    [load_from_file] sees them. *)
Definition items_of (graph_data : pyval) (name : string) : list pyval :=
  match bind (getitem graph_data name) iter with
  | Return l => l
  | Raise _ => []
  end.

(** The field [name] of an entry. *)
Definition field (item : pyval) (name : string) : pyval :=
  match getitem item name with
  | Return x => x
  | Raise _ => PNone
  end.

(** The call [load_from_file] makes for a designation field. *)
Definition designation_ops (graph_data : pyval) (name : string)
    (set : pyval -> op) : list op :=
  match get graph_data name with
  | Return s => if truthy s then [set s] else []
  | Raise _ => []
  end.

(** The calls [load_from_file] makes on the fresh graph for a document. *)
Definition document_ops (graph_data : pyval) : list op :=
  map (fun item => OpAddNode (field item "id") (field item "heuristic"))
      (items_of graph_data "nodes") ++
  map (fun item => OpAddEdge (field item "from") (field item "to")
                             (field item "weight"))
      (items_of graph_data "edges") ++
  designation_ops graph_data "start_node" OpSetStart ++
  designation_ops graph_data "goal_node" OpSetGoal.

(* ================================================================= *)
(** ** class [GraphVisualizer]: what it computes before it draws

    [visualization.py] hands its data to [matplotlib] and [networkx]
    calls.  The functions below are the pieces of data that the methods
    compute themselves from the graph, the path and the steps: the colour
    lists, the highlighted edges and nodes, the step shown by a frame.  The
    layout ([nx.spring_layout]), the labels and the drawing calls are
    outside the model, so no method of the class is modelled as a whole. *)

Module GraphVisualizer.

(** Fill colour and border colour of a node. *)
Definition start_color : string * string := ("#274690", "#142850").
Definition goal_color : string * string := ("#f9a826", "#c97d10").
Definition plain_color : string * string := ("#21e6c1", "#146356").
Definition current_color : string * string := ("#ff5e5b", "#c81d25").
Definition visited_color : string * string := ("#b2bec3", "#636e72").

(** The [if]/[elif] chain of [draw_graph] for one node. *)
Definition draw_color (self : Graph) (node : key) : string * string :=
  if keq node (start_node self) then start_color
  else if keq node (goal_node self) then goal_color
  else plain_color.

(** The loop of [draw_graph] that fills [node_colors] and
    [node_border_colors] by [append]. *)
Definition node_colors (self : Graph) : list string * list string :=
  fold_left
    (fun acc node =>
       let c := draw_color self node in
       (fst acc ++ [fst c], snd acc ++ [snd c]))
    (nx.nodes (graph self)) ([], []).

(** [l[i]] on a list: a negative index counts from the end; [None] stands
    for [IndexError]. *)
Definition py_index {A : Type} (l : list A) (i : Z) : option A :=
  let len := Z.of_nat (List.length l) in
  if (i <? - len)%Z then None
  else if (i <? 0)%Z then nth_error l (Z.to_nat (i + len))
  else nth_error l (Z.to_nat i).

(** The bound of a slice: a negative one counts from the end, and the
    result is kept between 0 and the length. *)
Definition slice_bound (len i : Z) : Z :=
  Z.max 0 (Z.min len (if (i <? 0)%Z then i + len else i))%Z.

(** [l[start:stop]] *)
Definition py_slice {A : Type} (l : list A) (start stop : Z) : list A :=
  let len := Z.of_nat (List.length l) in
  let a := slice_bound len start in
  let b := slice_bound len stop in
  firstn (Z.to_nat (b - a)) (skipn (Z.to_nat a) l).

(** [[(path[i], path[i+1]) for i in range(len(path)-1)]]; [None] stands for
    [IndexError]. *)
Definition path_edges (path : list key) : option (list (key * key)) :=
  let n := (Z.of_nat (List.length path) - 1)%Z in
  fold_right
    (fun i acc =>
       match py_index path (Z.of_nat i),
             py_index path (Z.of_nat i + 1), acc with
       | Some a, Some b, Some rest => Some ((a, b) :: rest)
       | _, _, _ => None
       end)
    (Some []) (seq 0 (Z.to_nat n)).

(** [path[1:-1]] *)
Definition path_nodes (path : list key) : list key := py_slice path 1 (-1).

(** The step a frame shows, in [update]:
    [steps[frame_num] if frame_num < len(steps) else steps[-1]]. *)
Definition frame_step (steps : list SearchStep) (frame_num : Z)
  : option SearchStep :=
  if (frame_num <? Z.of_nat (List.length steps))%Z
  then py_index steps frame_num
  else py_index steps (-1).

(** The [if]/[elif] chain of [update] for one node. *)
Definition update_color (self : Graph) (step : SearchStep) (node : key)
  : string * string :=
  if keq node (start_node self) then start_color
  else if keq node (goal_node self) then goal_color
  else if keq node (current step) then current_color
  else if existsb (keq node) (visited step) then visited_color
  else plain_color.

(** The loop of [update] that fills [node_colors] and
    [node_border_colors]. *)
Definition update_colors (self : Graph) (step : SearchStep)
  : list string * list string :=
  fold_left
    (fun acc node =>
       let c := update_color self step node in
       (fst acc ++ [fst c], snd acc ++ [snd c]))
    (nx.nodes (graph self)) ([], []).

End GraphVisualizer.

(* ================================================================= *)
(** ** Facts about dicts *)

Section DictFacts.
Context {K V : Type} `{EqKey K}.

Lemma keq_refl (a : K) : keq a a = true.
Proof. now apply keq_eq. Qed.

Lemma keq_neq (a b : K) : a <> b -> keq a b = false.
Proof.
  intro N. destruct (keq a b) eqn:E; [|reflexivity].
  apply keq_eq in E. contradiction.
Qed.

Lemma keq_false (a b : K) : keq a b = false -> a <> b.
Proof. intros E ->. rewrite keq_refl in E. discriminate. Qed.

Lemma keq_dec (a b : K) : {a = b} + {a <> b}.
Proof.
  destruct (keq a b) eqn:E.
  - left. now apply keq_eq.
  - right. now apply keq_false.
Qed.

Lemma dict_get_some_in (d : dict K V) (k : K) (v : V) :
  dict_get d k = Some v -> In (k, v) d.
Proof.
  induction d as [|[k' v'] d IH]; simpl; [discriminate|].
  destruct (keq k k') eqn:E.
  - apply keq_eq in E. subst. intros [= ->]. now left.
  - intro G. right. now apply IH.
Qed.

Lemma dict_get_none (d : dict K V) (k : K) :
  dict_get d k = None <-> ~ In k (dict_keys d).
Proof.
  induction d as [|[k' v'] d IH]; simpl.
  - split; auto.
  - destruct (keq k k') eqn:E.
    + apply keq_eq in E. subst. split; [discriminate|]. intro N. exfalso. auto.
    + apply keq_false in E. rewrite IH. split.
      * intros N [->|I]; auto.
      * intros N I. auto.
Qed.

Lemma dict_mem_in (d : dict K V) (k : K) :
  dict_mem d k = true <-> In k (dict_keys d).
Proof.
  unfold dict_mem. destruct (dict_get d k) eqn:E.
  - split; [intros _|reflexivity].
    apply dict_get_some_in in E. unfold dict_keys.
    change k with (fst (k, v)). now apply in_map.
  - apply dict_get_none in E. split; [discriminate|contradiction].
Qed.

Lemma dict_mem_not_in (d : dict K V) (k : K) :
  dict_mem d k = false <-> ~ In k (dict_keys d).
Proof.
  rewrite <- dict_mem_in. destruct (dict_mem d k); split; congruence.
Qed.

Lemma dict_get_in_nodup (d : dict K V) (k : K) (v : V) :
  NoDup (dict_keys d) -> In (k, v) d -> dict_get d k = Some v.
Proof.
  induction d as [|[k' v'] d IH]; simpl; [contradiction|].
  intros N I. inversion N as [|? ? N1 N2]; subst.
  destruct I as [[= -> ->]|I].
  - now rewrite keq_refl.
  - rewrite keq_neq; [now apply IH|].
    intros ->. apply N1. unfold dict_keys.
    change k' with (fst (k', v)). now apply in_map.
Qed.

Lemma dict_set_new (d : dict K V) (k : K) (v : V) :
  ~ In k (dict_keys d) -> dict_set d k v = d ++ [(k, v)].
Proof.
  induction d as [|[k' v'] d IH]; simpl; [reflexivity|].
  intro N. rewrite keq_neq by (intros ->; auto).
  rewrite IH; auto.
Qed.

Lemma dict_keys_set_old (d : dict K V) (k : K) (v : V) :
  In k (dict_keys d) -> dict_keys (dict_set d k v) = dict_keys d.
Proof.
  induction d as [|[k' v'] d IH]; simpl; [contradiction|].
  intro I. destruct (keq k k') eqn:E; simpl; [reflexivity|].
  f_equal. apply IH. destruct I as [->|I]; [|assumption].
  rewrite keq_refl in E. discriminate.
Qed.

Lemma dict_keys_set (d : dict K V) (k : K) (v : V) :
  dict_keys (dict_set d k v) =
  if dict_mem d k then dict_keys d else dict_keys d ++ [k].
Proof.
  destruct (dict_mem d k) eqn:E.
  - apply dict_keys_set_old. now apply dict_mem_in.
  - apply dict_mem_not_in in E. rewrite dict_set_new by assumption.
    unfold dict_keys. now rewrite map_app.
Qed.

Lemma dict_keys_set_incl (d : dict K V) (k : K) (v : V) (x : K) :
  In x (dict_keys d) -> In x (dict_keys (dict_set d k v)).
Proof.
  rewrite dict_keys_set. destruct (dict_mem d k); [auto|].
  intro I. apply in_or_app. now left.
Qed.

Lemma dict_keys_set_in (d : dict K V) (k : K) (v : V) :
  In k (dict_keys (dict_set d k v)).
Proof.
  rewrite dict_keys_set. destruct (dict_mem d k) eqn:E.
  - now apply dict_mem_in.
  - apply in_or_app. right. now left.
Qed.

Lemma dict_keys_set_inv (d : dict K V) (k : K) (v : V) (x : K) :
  In x (dict_keys (dict_set d k v)) -> x = k \/ In x (dict_keys d).
Proof.
  rewrite dict_keys_set. destruct (dict_mem d k); [auto|].
  intro I. apply in_app_or in I. destruct I as [I|[->|[]]]; auto.
Qed.

Lemma dict_get_set_same (d : dict K V) (k : K) (v : V) :
  dict_get (dict_set d k v) k = Some v.
Proof.
  induction d as [|[k' v'] d IH]; simpl.
  - now rewrite keq_refl.
  - destruct (keq k k') eqn:E; simpl; rewrite E; auto.
Qed.

Lemma dict_get_set_other (d : dict K V) (k k' : K) (v : V) :
  k <> k' -> dict_get (dict_set d k v) k' = dict_get d k'.
Proof.
  intro N. induction d as [|[k0 v0] d IH]; simpl.
  - rewrite keq_neq; auto.
  - destruct (keq k k0) eqn:E; simpl.
    + apply keq_eq in E. subst. rewrite keq_neq by auto. reflexivity.
    + now rewrite IH.
Qed.

Lemma dict_set_nodup (d : dict K V) (k : K) (v : V) :
  NoDup (dict_keys d) -> NoDup (dict_keys (dict_set d k v)).
Proof.
  intro N. rewrite dict_keys_set. destruct (dict_mem d k) eqn:E; [assumption|].
  apply dict_mem_not_in in E.
  apply NoDup_app; auto.
  - constructor; [intros []|constructor].
  - intros x I1 [<-|[]]. contradiction.
Qed.

Lemma dict_set_forall (P : V -> Prop) (d : dict K V) (k : K) (v : V) :
  Forall (fun e => P (snd e)) d -> P v ->
  Forall (fun e => P (snd e)) (dict_set d k v).
Proof.
  intros F Pv. induction d as [|[k' v'] d IH]; simpl.
  - constructor; auto.
  - inversion F; subst. destruct (keq k k'); constructor; auto.
Qed.

Lemma dict_get_forall (P : V -> Prop) (d : dict K V) (k : K) (v : V) :
  Forall (fun e => P (snd e)) d -> dict_get d k = Some v -> P v.
Proof.
  intros F G. apply dict_get_some_in in G.
  rewrite Forall_forall in F. apply (F (k, v) G).
Qed.

(** Assignment inside a dict without repeated keys replaces the entry where
    it stands. *)
Lemma dict_set_middle (d1 d2 : dict K V) (k : K) (v v' : V) :
  ~ In k (dict_keys d1) ->
  dict_set (d1 ++ (k, v) :: d2) k v' = d1 ++ (k, v') :: d2.
Proof.
  induction d1 as [|[k0 v0] d1 IH]; simpl; intro N.
  - now rewrite keq_refl.
  - rewrite keq_neq by (intros ->; auto). rewrite IH; auto.
Qed.

Lemma dict_get_middle (d1 d2 : dict K V) (k : K) (v : V) :
  ~ In k (dict_keys d1) ->
  dict_get (d1 ++ (k, v) :: d2) k = Some v.
Proof.
  induction d1 as [|[k0 v0] d1 IH]; simpl; intro N.
  - now rewrite keq_refl.
  - rewrite keq_neq by (intros ->; auto). apply IH; auto.
Qed.

End DictFacts.

(* ================================================================= *)
(** ** Well-formedness is kept by [networkx] *)

Lemma hash_of_key (k : key) : hash (of_key k) = Return k.
Proof. now destruct k. Qed.

Lemma hash_inv (v : pyval) (k : key) : hash v = Return k -> v = of_key k.
Proof. destruct v; simpl; intros [= <-]; reflexivity. Qed.

Lemma update_heuristic (a : attrs) (h : pyval) :
  node_attrs_ok a -> dict_update a [("heuristic", h)] = [("heuristic", h)].
Proof. intros [->|[h0 ->]]; reflexivity. Qed.

Lemma update_weight (a : attrs) (w : pyval) :
  a = [] \/ edge_attrs_ok a -> dict_update a [("weight", w)] = [("weight", w)].
Proof. intros [->|[w0 ->]]; reflexivity. Qed.

Lemma adj_ok_incl (names names' : list key) (nbrs : dict key attrs) :
  incl names names' -> adj_ok names nbrs -> adj_ok names' nbrs.
Proof.
  intros I [N F]. split; [assumption|].
  eapply Forall_impl; [|exact F]. intros e [Hin Hw]. split; auto.
Qed.

Lemma adj_ok_set (names : list key) (nbrs : dict key attrs) (v : key)
    (w : pyval) :
  adj_ok names nbrs -> In v names ->
  adj_ok names (dict_set nbrs v [("weight", w)]).
Proof.
  intros [N F] I. split; [now apply dict_set_nodup|].
  clear N. induction nbrs as [|[k a] nbrs IH]; simpl.
  - constructor; [|constructor]. split; [assumption|now exists w].
  - inversion F as [|? ? [F1 F2] F3]; subst. simpl in *.
    destruct (keq v k) eqn:E; constructor; simpl; auto.
    split; [assumption|now exists w].
Qed.

Lemma wf_empty : wf_digraph nx.empty.
Proof.
  constructor; simpl; try reflexivity; try constructor. intros [].
Qed.

Lemma succ_mem_node (G : nx.DiGraph) (k : key) :
  wf_digraph G -> dict_mem (nx._succ G) k = dict_mem (nx._node G) k.
Proof.
  intro W. destruct (dict_mem (nx._node G) k) eqn:E.
  - apply dict_mem_in. rewrite (wf_keys_succ _ W). now apply dict_mem_in.
  - apply dict_mem_not_in. rewrite (wf_keys_succ _ W). now apply dict_mem_not_in.
Qed.

Lemma pred_mem_node (G : nx.DiGraph) (k : key) :
  wf_digraph G -> dict_mem (nx._pred G) k = dict_mem (nx._node G) k.
Proof.
  intro W. destruct (dict_mem (nx._node G) k) eqn:E.
  - apply dict_mem_in. rewrite (wf_keys_pred _ W). now apply dict_mem_in.
  - apply dict_mem_not_in. rewrite (wf_keys_pred _ W). now apply dict_mem_not_in.
Qed.

(** A new node, as [add_node] and [add_edge] create it. *)
Lemma wf_fresh (G : nx.DiGraph) (n : key) (a : attrs) :
  wf_digraph G -> n <> KNone -> dict_mem (nx._node G) n = false ->
  node_attrs_ok a ->
  wf_digraph {| nx._node := dict_set (nx._node G) n a;
                nx._succ := dict_set (nx._succ G) n [];
                nx._pred := dict_set (nx._pred G) n [] |}.
Proof.
  intros W NN M A.
  assert (Ms : dict_mem (nx._succ G) n = false)
    by now rewrite succ_mem_node.
  assert (Mp : dict_mem (nx._pred G) n = false)
    by now rewrite pred_mem_node.
  constructor; simpl.
  - rewrite !dict_keys_set, Ms, M. now rewrite (wf_keys_succ _ W).
  - rewrite !dict_keys_set, Mp, M. now rewrite (wf_keys_pred _ W).
  - apply dict_set_nodup, (wf_nodup _ W).
  - intro I. apply dict_keys_set_inv in I. destruct I as [E|I].
    + now symmetry in E.
    + now apply (wf_not_none _ W).
  - apply dict_set_forall with (P := node_attrs_ok); [apply (wf_node_attrs _ W)|assumption].
  - apply dict_set_forall
      with (P := adj_ok (dict_keys (dict_set (nx._node G) n a))).
    + eapply Forall_impl; [|apply (wf_adj _ W)]. intros e. simpl.
      apply adj_ok_incl. intros x. apply dict_keys_set_incl.
    + split; simpl; constructor.
Qed.

(** An existing node whose attributes are assigned. *)
Lemma wf_set_attrs (G : nx.DiGraph) (n : key) (a : attrs) :
  wf_digraph G -> dict_mem (nx._node G) n = true -> node_attrs_ok a ->
  wf_digraph {| nx._node := dict_set (nx._node G) n a;
                nx._succ := nx._succ G;
                nx._pred := nx._pred G |}.
Proof.
  intros W M A.
  assert (E : dict_keys (dict_set (nx._node G) n a) = dict_keys (nx._node G))
    by (rewrite dict_keys_set; now rewrite M).
  constructor; simpl; rewrite ?E.
  - apply (wf_keys_succ _ W).
  - apply (wf_keys_pred _ W).
  - apply (wf_nodup _ W).
  - apply (wf_not_none _ W).
  - apply dict_set_forall with (P := node_attrs_ok); [apply (wf_node_attrs _ W)|assumption].
  - apply (wf_adj _ W).
Qed.

(** What [nx.add_node] does on a well-formed graph. *)
Lemma nx_add_node_wf (n h : pyval) (k : key) (G : nx.DiGraph) :
  wf_digraph G -> hash n = Return k -> k <> KNone ->
  nx.add_node n [("heuristic", h)] G =
  ({| nx._node := dict_set (nx._node G) k [("heuristic", h)];
      nx._succ := if dict_mem (nx._node G) k then nx._succ G
                  else dict_set (nx._succ G) k [];
      nx._pred := if dict_mem (nx._node G) k then nx._pred G
                  else dict_set (nx._pred G) k [] |}, Return tt).
Proof.
  intros W Hk NN. unfold nx.add_node. rewrite Hk, succ_mem_node by assumption.
  destruct (dict_mem (nx._node G) k) eqn:M; cbv [negb].
  - unfold dict_mem in M. destruct (dict_get (nx._node G) k) as [a|] eqn:Ga;
      [|discriminate].
    rewrite update_heuristic; [reflexivity|].
    apply (dict_get_forall node_attrs_ok _ _ _ (wf_node_attrs G W) Ga).
  - destruct k; [contradiction| |]; reflexivity.
Qed.

Lemma nx_add_node_fails (n : pyval) (a : attrs) (G : nx.DiGraph) :
  wf_digraph G -> (hash n = Raise TypeError \/ hash n = Return KNone) ->
  nx.add_node n a G =
  (G, Raise (match hash n with Raise e => e | Return _ => ValueError end)).
Proof.
  intros W [E|E]; unfold nx.add_node; rewrite E; [reflexivity|].
  rewrite succ_mem_node by assumption.
  replace (dict_mem (nx._node G) KNone) with false; [reflexivity|].
  symmetry. apply dict_mem_not_in, (wf_not_none _ W).
Qed.

Lemma hash_cases (v : pyval) :
  (exists k, hash v = Return k /\ k <> KNone) \/
  hash v = Raise TypeError \/ hash v = Return KNone.
Proof.
  destruct v; simpl; auto; left; eexists; split; try reflexivity; discriminate.
Qed.

Lemma nx_add_node_keeps_wf (n h : pyval) (G : nx.DiGraph) :
  wf_digraph G -> wf_digraph (fst (nx.add_node n [("heuristic", h)] G)).
Proof.
  intro W. destruct (hash_cases n) as [(k & Hk & NN)|F].
  - rewrite (nx_add_node_wf n h k G W Hk NN). simpl.
    destruct (dict_mem (nx._node G) k) eqn:M.
    + apply wf_set_attrs; auto. right. now exists h.
    + apply wf_fresh; auto. right. now exists h.
  - now rewrite (nx_add_node_fails n _ G W F).
Qed.

Lemma with_endpoint_wf (G : nx.DiGraph) (k : key) :
  wf_digraph G -> k <> KNone -> wf_digraph (with_endpoint G k).
Proof.
  intros W NN. unfold with_endpoint.
  destruct (dict_mem (nx._node G) k) eqn:M; [assumption|].
  apply wf_fresh; auto. now left.
Qed.

Lemma with_endpoint_in (G : nx.DiGraph) (k : key) :
  In k (dict_keys (nx._node (with_endpoint G k))).
Proof.
  unfold with_endpoint. destruct (dict_mem (nx._node G) k) eqn:M; simpl.
  - now apply dict_mem_in.
  - apply dict_keys_set_in.
Qed.

Lemma with_endpoint_incl (G : nx.DiGraph) (k x : key) :
  In x (dict_keys (nx._node G)) ->
  In x (dict_keys (nx._node (with_endpoint G k))).
Proof.
  unfold with_endpoint. destruct (dict_mem (nx._node G) k); simpl; auto.
  apply dict_keys_set_incl.
Qed.

Lemma ensure_node_wf (u : pyval) (k : key) (G : nx.DiGraph) :
  wf_digraph G -> hash u = Return k -> k <> KNone ->
  nx.ensure_node u G = (with_endpoint G k, Return k).
Proof.
  intros W Hk NN. unfold nx.ensure_node, with_endpoint.
  rewrite Hk, succ_mem_node by assumption.
  destruct (dict_mem (nx._node G) k); simpl; [reflexivity|].
  destruct k; [contradiction| |]; reflexivity.
Qed.

Lemma ensure_node_fails (u : pyval) (G : nx.DiGraph) :
  wf_digraph G -> (hash u = Raise TypeError \/ hash u = Return KNone) ->
  nx.ensure_node u G =
  (G, Raise (match hash u with Raise e => e | Return _ => ValueError end)).
Proof.
  intros W [E|E]; unfold nx.ensure_node; rewrite E; [reflexivity|].
  rewrite succ_mem_node by assumption.
  replace (dict_mem (nx._node G) KNone) with false; [reflexivity|].
  symmetry. apply dict_mem_not_in, (wf_not_none _ W).
Qed.

Lemma wf_succ_get (G : nx.DiGraph) (k : key) :
  wf_digraph G -> In k (dict_keys (nx._node G)) ->
  dict_get (nx._succ G) k = Some (adj_of G k).
Proof.
  intros W I. unfold adj_of. destruct (dict_get (nx._succ G) k) eqn:E;
    [reflexivity|].
  apply dict_get_none in E. rewrite (wf_keys_succ _ W) in E. contradiction.
Qed.

Lemma wf_pred_get (G : nx.DiGraph) (k : key) :
  wf_digraph G -> In k (dict_keys (nx._node G)) ->
  dict_get (nx._pred G) k = Some (pred_of G k).
Proof.
  intros W I. unfold pred_of. destruct (dict_get (nx._pred G) k) eqn:E;
    [reflexivity|].
  apply dict_get_none in E. rewrite (wf_keys_pred _ W) in E. contradiction.
Qed.

Lemma wf_adj_of (G : nx.DiGraph) (k : key) :
  wf_digraph G -> adj_ok (dict_keys (nx._node G)) (adj_of G k).
Proof.
  intro W. unfold adj_of. destruct (dict_get (nx._succ G) k) eqn:E.
  - apply (dict_get_forall (adj_ok (dict_keys (nx._node G))) _ _ _
             (wf_adj _ W) E).
  - split; constructor.
Qed.

Lemma wf_edge_attrs (G : nx.DiGraph) (u v : key) (d : attrs) :
  wf_digraph G -> dict_get (adj_of G u) v = Some d -> edge_attrs_ok d.
Proof.
  intros W E. destruct (wf_adj_of G u W) as [_ F].
  apply dict_get_some_in in E. rewrite Forall_forall in F.
  apply (F (v, d) E).
Qed.

(** What [nx.add_edge] does on a well-formed graph. *)
Lemma nx_add_edge_wf (u v w : pyval) (ku kv : key) (G : nx.DiGraph) :
  wf_digraph G ->
  hash u = Return ku -> ku <> KNone ->
  hash v = Return kv -> kv <> KNone ->
  nx.add_edge u v [("weight", w)] G = (edge_added G ku kv w, Return tt).
Proof.
  intros W Hu Nu Hv Nv. unfold nx.add_edge.
  rewrite (ensure_node_wf u ku G W Hu Nu).
  pose proof (with_endpoint_wf G ku W Nu) as W1.
  rewrite (ensure_node_wf v kv _ W1 Hv Nv).
  pose proof (with_endpoint_wf _ kv W1 Nv) as W2.
  set (G2 := with_endpoint (with_endpoint G ku) kv) in *.
  assert (Iu : In ku (dict_keys (nx._node G2)))
    by apply with_endpoint_incl, with_endpoint_in.
  assert (Iv : In kv (dict_keys (nx._node G2))) by apply with_endpoint_in.
  rewrite (wf_succ_get G2 ku W2 Iu).
  cbn [nx._pred nx._node nx._succ].
  rewrite (wf_pred_get G2 kv W2 Iv).
  assert (D : dict_update
                (match dict_get (adj_of G2 ku) kv with
                 | Some d => d
                 | None => []
                 end) [("weight", w)] = [("weight", w)]).
  { apply update_weight. destruct (dict_get (adj_of G2 ku) kv) eqn:E.
    - right. apply (wf_edge_attrs G2 ku kv a W2 E).
    - now left. }
  rewrite D. reflexivity.
Qed.

Lemma edge_added_wf (G : nx.DiGraph) (u v : key) (w : pyval) :
  wf_digraph G -> u <> KNone -> v <> KNone -> wf_digraph (edge_added G u v w).
Proof.
  intros W Nu Nv.
  pose proof (with_endpoint_wf _ v (with_endpoint_wf G u W Nu) Nv) as W2.
  unfold edge_added. set (G2 := with_endpoint (with_endpoint G u) v) in *.
  assert (Iu : In u (dict_keys (nx._node G2)))
    by apply with_endpoint_incl, with_endpoint_in.
  assert (Iv : In v (dict_keys (nx._node G2))) by apply with_endpoint_in.
  constructor; cbn [nx._pred nx._node nx._succ].
  - rewrite dict_keys_set_old; [apply (wf_keys_succ _ W2)|].
    now rewrite (wf_keys_succ _ W2).
  - rewrite dict_keys_set_old; [apply (wf_keys_pred _ W2)|].
    now rewrite (wf_keys_pred _ W2).
  - apply (wf_nodup _ W2).
  - apply (wf_not_none _ W2).
  - apply (wf_node_attrs _ W2).
  - apply dict_set_forall with (P := adj_ok (dict_keys (nx._node G2))).
    + apply (wf_adj _ W2).
    + apply adj_ok_set; [apply wf_adj_of|]; assumption.
Qed.

Lemma nx_add_edge_keeps_wf (u v w : pyval) (G : nx.DiGraph) :
  wf_digraph G -> wf_digraph (fst (nx.add_edge u v [("weight", w)] G)).
Proof.
  intro W. destruct (hash_cases u) as [(ku & Hu & Nu)|Fu].
  - destruct (hash_cases v) as [(kv & Hv & Nv)|Fv].
    + rewrite (nx_add_edge_wf u v w ku kv G W Hu Nu Hv Nv). simpl.
      now apply edge_added_wf.
    + unfold nx.add_edge. rewrite (ensure_node_wf u ku G W Hu Nu).
      pose proof (with_endpoint_wf G ku W Nu) as W1.
      rewrite (ensure_node_fails v _ W1 Fv). exact W1.
  - unfold nx.add_edge. rewrite (ensure_node_fails u G W Fu). exact W.
Qed.

(* ================================================================= *)
(** ** Nodes are never removed *)

Lemma nx_add_node_incl (n : pyval) (a : attrs) (G : nx.DiGraph) (x : key) :
  In x (nx.nodes G) -> In x (nx.nodes (fst (nx.add_node n a G))).
Proof.
  unfold nx.add_node, nx.nodes. intro I.
  destruct (hash n) as [e|k]; [assumption|].
  destruct (negb (dict_mem (nx._succ G) k)).
  - destruct k; simpl; auto using dict_keys_set_incl.
  - destruct (dict_get (nx._node G) k); simpl; auto using dict_keys_set_incl.
Qed.

Lemma ensure_node_incl (u : pyval) (G : nx.DiGraph) (x : key) :
  In x (nx.nodes G) -> In x (nx.nodes (fst (nx.ensure_node u G))).
Proof.
  unfold nx.ensure_node, nx.nodes. intro I.
  destruct (hash u) as [e|k]; [assumption|].
  destruct (negb (dict_mem (nx._succ G) k)); [|assumption].
  destruct k; simpl; auto using dict_keys_set_incl.
Qed.

Lemma nx_add_edge_incl (u v : pyval) (a : attrs) (G : nx.DiGraph) (x : key) :
  In x (nx.nodes G) -> In x (nx.nodes (fst (nx.add_edge u v a G))).
Proof.
  intro I. unfold nx.add_edge.
  pose proof (ensure_node_incl u G x I) as I1.
  destruct (nx.ensure_node u G) as [G1 [e|ku]]; [exact I1|]. simpl in I1.
  pose proof (ensure_node_incl v G1 x I1) as I2.
  destruct (nx.ensure_node v G1) as [G2 [e|kv]]; [exact I2|]. simpl in I2.
  destruct (dict_get (nx._succ G2) ku); [|exact I2].
  cbn [nx._pred].
  destruct (dict_get (nx._pred G2) kv); exact I2.
Qed.

Lemma exec_nodes_incl (o : op) (self : Graph) (x : key) :
  In x (nx.nodes (graph self)) -> In x (nx.nodes (graph (fst (exec o self)))).
Proof.
  intro I. destruct o as [n h|u v w|n|n]; simpl.
  - unfold add_node.
    pose proof (nx_add_node_incl n [("heuristic", h)] (graph self) x I) as J.
    destruct (nx.add_node n [("heuristic", h)] (graph self)). exact J.
  - unfold add_edge.
    pose proof (nx_add_edge_incl u v [("weight", w)] (graph self) x I) as J.
    destruct (nx.add_edge u v [("weight", w)] (graph self)). exact J.
  - unfold set_start_node. destruct (hash n); [assumption|].
    destruct (dict_mem (nx._node (graph self)) a); assumption.
  - unfold set_goal_node. destruct (hash n); [assumption|].
    destruct (dict_mem (nx._node (graph self)) a); assumption.
Qed.

Lemma add_node_designations (n h : pyval) (self : Graph) :
  start_node (fst (add_node n h self)) = start_node self /\
  goal_node (fst (add_node n h self)) = goal_node self.
Proof.
  unfold add_node. destruct (nx.add_node n [("heuristic", h)] (graph self)).
  now split.
Qed.

Lemma add_edge_designations (u v w : pyval) (self : Graph) :
  start_node (fst (add_edge u v w self)) = start_node self /\
  goal_node (fst (add_edge u v w self)) = goal_node self.
Proof.
  unfold add_edge. destruct (nx.add_edge u v [("weight", w)] (graph self)).
  now split.
Qed.

Lemma exec_designations_ok (o : op) (self : Graph) :
  designations_ok self -> designations_ok (fst (exec o self)).
Proof.
  intros [S G].
  assert (M : forall d, designated_ok (graph self) d ->
                        designated_ok (graph (fst (exec o self))) d).
  { intros d D N. apply exec_nodes_incl. now apply D. }
  destruct o as [n h|u v w|n|n].
  - split; simpl exec;
      [rewrite (proj1 (add_node_designations n h self))
      |rewrite (proj2 (add_node_designations n h self))];
      now apply (M _).
  - split; simpl exec;
      [rewrite (proj1 (add_edge_designations u v w self))
      |rewrite (proj2 (add_edge_designations u v w self))];
      now apply (M _).
  - simpl. unfold set_start_node. destruct (hash n) as [e|k]; [now split|].
    destruct (dict_mem (nx._node (graph self)) k) eqn:E; [|now split].
    split; simpl; [|assumption]. intros _. now apply dict_mem_in.
  - simpl. unfold set_goal_node. destruct (hash n) as [e|k]; [now split|].
    destruct (dict_mem (nx._node (graph self)) k) eqn:E; [|now split].
    split; simpl; [assumption|]. intros _. now apply dict_mem_in.
Qed.

Lemma call_exec (o : op) (self g : Graph) :
  call (exec o self) = Return g -> g = fst (exec o self).
Proof.
  unfold call. destruct (exec o self) as [g' [e|[]]]; simpl; congruence.
Qed.

(** A property kept by every call holds of whatever [load_from_file]
    returns, provided it holds of the fresh graph. *)
Lemma load_nodes_kept (P : Graph -> Prop) :
  (forall o g, P g -> P (fst (exec o g))) ->
  forall items g g', P g -> load_nodes items g = Return g' -> P g'.
Proof.
  intros Step items. induction items as [|x items IH]; simpl; intros g g' Pg L.
  - now injection L as <-.
  - destruct (getitem x "id") as [e|id]; [discriminate|]. simpl in L.
    destruct (getitem x "heuristic") as [e|h]; [discriminate|]. simpl in L.
    destruct (call (add_node id h g)) as [e|g1] eqn:C; [discriminate|].
    simpl in L. apply (call_exec (OpAddNode id h)) in C. subst g1.
    apply (IH _ _ (Step _ _ Pg) L).
Qed.

Lemma load_edges_kept (P : Graph -> Prop) :
  (forall o g, P g -> P (fst (exec o g))) ->
  forall items g g', P g -> load_edges items g = Return g' -> P g'.
Proof.
  intros Step items. induction items as [|x items IH]; simpl; intros g g' Pg L.
  - now injection L as <-.
  - destruct (getitem x "from") as [e|f]; [discriminate|]. simpl in L.
    destruct (getitem x "to") as [e|t]; [discriminate|]. simpl in L.
    destruct (getitem x "weight") as [e|w]; [discriminate|]. simpl in L.
    destruct (call (add_edge f t w g)) as [e|g1] eqn:C; [discriminate|].
    simpl in L. apply (call_exec (OpAddEdge f t w)) in C. subst g1.
    apply (IH _ _ (Step _ _ Pg) L).
Qed.

Lemma load_from_file_kept (P : Graph -> Prop) :
  P init ->
  (forall o g, P g -> P (fst (exec o g))) ->
  forall graph_data g, load_from_file graph_data = Return g -> P g.
Proof.
  intros P0 Step graph_data g. unfold load_from_file.
  destruct (getitem graph_data "nodes") as [e|nodes]; [discriminate|]. simpl.
  destruct (iter nodes) as [e|node_items]; [discriminate|]. simpl.
  destruct (load_nodes node_items init) as [e|g1] eqn:L1; [discriminate|].
  simpl. apply (load_nodes_kept P Step) in L1; [|assumption].
  destruct (getitem graph_data "edges") as [e|edges]; [discriminate|]. simpl.
  destruct (iter edges) as [e|edge_items]; [discriminate|]. simpl.
  destruct (load_edges edge_items g1) as [e|g2] eqn:L2; [discriminate|].
  simpl. apply (load_edges_kept P Step) in L2; [|assumption].
  destruct (get graph_data "start_node") as [e|s]; [discriminate|]. simpl.
  assert (S3 : forall r g3,
             (if truthy s
              then bind (getitem graph_data "start_node")
                        (fun s' => call (set_start_node s' g2))
              else Return g2) = r -> r = Return g3 -> P g3).
  { intros r g3 <-. destruct (truthy s); [|now intros [= <-]].
    destruct (getitem graph_data "start_node") as [e|s']; [discriminate|].
    simpl. intro C. apply (call_exec (OpSetStart s')) in C. subst g3.
    now apply Step. }
  destruct (if truthy s then _ else _) as [e|g3] eqn:E3; [discriminate|].
  specialize (S3 _ g3 eq_refl eq_refl). simpl.
  destruct (get graph_data "goal_node") as [e|gl]; [discriminate|]. simpl.
  destruct (truthy gl).
  - destruct (getitem graph_data "goal_node") as [e|g']; [discriminate|].
    simpl. destruct (call (set_goal_node g' g3)) as [e|g4] eqn:C;
      [discriminate|].
    simpl. intros [= <-]. apply (call_exec (OpSetGoal g')) in C. subst g4.
    now apply Step.
  - simpl. now intros [= <-].
Qed.

(** C9: the designations never dangle.  The fresh graph has none; every
    call ([add_node], [add_edge], [set_start_node], [set_goal_node]),
    whether it returns or raises, keeps every node in the node set and
    leaves a start and a goal that are [None] or members of the node set;
    and so does every graph that [load_from_file] returns. *)
Theorem designations_never_dangle :
  designations_ok init /\
  (forall (o : op) (self : Graph),
      designations_ok self ->
      designations_ok (fst (exec o self)) /\
      incl (nx.nodes (graph self)) (nx.nodes (graph (fst (exec o self))))) /\
  (forall (graph_data : pyval) (g : Graph),
      load_from_file graph_data = Return g -> designations_ok g).
Proof.
  assert (D0 : designations_ok init) by (split; intro N; now elim N).
  split; [exact D0|]. split.
  - intros o self D. split.
    + now apply exec_designations_ok.
    + intros x. apply exec_nodes_incl.
  - apply load_from_file_kept; [exact D0|apply exec_designations_ok].
Qed.

Lemma designations_never_dangle_witness :
  designations_ok scenario /\
  designations_ok (fst (exec (OpSetStart (PStr "Z")) scenario)) /\
  incl (nx.nodes (graph scenario))
       (nx.nodes (graph (fst (exec (OpSetStart (PStr "Z")) scenario)))).
Proof.
  assert (D : designations_ok scenario).
  { split; intros _; vm_compute; auto. }
  split; [exact D|].
  apply (proj1 (proj2 designations_never_dangle) _ _ D).
Defined.

(* ================================================================= *)
(** ** The designations *)

(** C4: [set_start_node(id)] and [set_goal_node(id)] record [id] when it is
    in the node set, and otherwise raise and leave the object as it was.
    The failure the specification calls [UnknownNodeError] is Python's
    [ValueError] in the code ([TypeError] for a value that cannot be
    hashed). *)
Theorem set_designation_spec (node_id : pyval) (self : Graph) :
  (present node_id (graph self) ->
   exists k, hash node_id = Return k /\
     set_start_node node_id self =
       ({| graph := graph self; start_node := k;
           goal_node := goal_node self |}, Return tt) /\
     set_goal_node node_id self =
       ({| graph := graph self; start_node := start_node self;
           goal_node := k |}, Return tt)) /\
  (~ present node_id (graph self) ->
   let e := match hash node_id with Raise e => e | Return _ => ValueError end in
   set_start_node node_id self = (self, Raise e) /\
   set_goal_node node_id self = (self, Raise e)).
Proof.
  unfold present, set_start_node, set_goal_node, nx.nodes. split.
  - intros (k & Hk & I). exists k. rewrite Hk.
    apply dict_mem_in in I. rewrite I. auto.
  - intro N. destruct (hash node_id) as [e|k]; [now split|].
    destruct (dict_mem (nx._node (graph self)) k) eqn:M; [|now split].
    exfalso. apply N. exists k. split; [reflexivity|now apply dict_mem_in].
Qed.

Lemma set_designation_spec_witness :
  (exists k, hash (PStr "B") = Return k /\
     set_start_node (PStr "B") scenario =
       ({| graph := graph scenario; start_node := k;
           goal_node := goal_node scenario |}, Return tt) /\
     set_goal_node (PStr "B") scenario =
       ({| graph := graph scenario; start_node := start_node scenario;
           goal_node := k |}, Return tt)) /\
  (set_start_node (PStr "Z") scenario = (scenario, Raise ValueError) /\
   set_goal_node (PStr "Z") scenario = (scenario, Raise ValueError)).
Proof.
  split.
  - apply (proj1 (set_designation_spec (PStr "B") scenario)).
    exists (KStr "B"). split; [reflexivity|]. vm_compute. auto.
  - apply (proj2 (set_designation_spec (PStr "Z") scenario)).
    intros (k & Hk & I). injection Hk as <-. vm_compute in I.
    repeat (destruct I as [I|I]; [discriminate|]). exact I.
Defined.

(* ================================================================= *)
(** ** Loading a document without ['nodes'] *)

(** C5: a document that lacks the key ['nodes'] makes [load_from_file]
    raise, so no graph is returned, not even a partial one.  The failure the
    specification calls [DeserializationError] is [KeyError('nodes')] for a
    JSON object ([TypeError] for a document that is not an object). *)
Theorem load_without_nodes_raises (graph_data : pyval) :
  has_nodes_key graph_data = false ->
  raised (load_from_file graph_data) /\
  (forall g, load_from_file graph_data <> Return g) /\
  (forall d, graph_data = PDict d ->
             load_from_file graph_data = Raise (KeyError (PStr "nodes"))).
Proof.
  intro M.
  assert (R : load_from_file graph_data =
              Raise (match graph_data with
                     | PDict _ => KeyError (PStr "nodes")
                     | _ => TypeError
                     end)).
  { unfold load_from_file. destruct graph_data; try reflexivity.
    simpl in M. unfold dict_mem in M. simpl.
    destruct (dict_get entries "nodes"); [discriminate|reflexivity]. }
  split; [eexists; exact R|]. split.
  - intros g E. rewrite R in E. discriminate.
  - intros d ->. exact R.
Qed.

Lemma load_without_nodes_raises_witness :
  raised (load_from_file
            (PDict [("edges", PList []); ("start_node", PNone);
                    ("goal_node", PNone)])).
Proof.
  apply (load_without_nodes_raises
           (PDict [("edges", PList []); ("start_node", PNone);
                   ("goal_node", PNone)])).
  reflexivity.
Defined.

(* ================================================================= *)
(** ** The methods on well-formed graphs *)

Lemma wf_init : wf init.
Proof.
  split; [apply wf_empty|]. split; intro N; now elim N.
Qed.

Lemma add_node_ok (n h : pyval) (k : key) (self : Graph) :
  wf self -> hash n = Return k -> k <> KNone ->
  add_node n h self = (with_graph self (node_added (graph self) k h), Return tt).
Proof.
  intros [W _] Hk NN. unfold add_node.
  now rewrite (nx_add_node_wf n h k (graph self) W Hk NN).
Qed.

Lemma add_edge_ok (u v w : pyval) (ku kv : key) (self : Graph) :
  wf self ->
  hash u = Return ku -> ku <> KNone ->
  hash v = Return kv -> kv <> KNone ->
  add_edge u v w self =
  (with_graph self (edge_added (graph self) ku kv w), Return tt).
Proof.
  intros [W _] Hu Nu Hv Nv. unfold add_edge.
  now rewrite (nx_add_edge_wf u v w ku kv (graph self) W Hu Nu Hv Nv).
Qed.

Lemma exec_graph_wf (o : op) (self : Graph) :
  wf_digraph (graph self) -> wf_digraph (graph (fst (exec o self))).
Proof.
  intro W. destruct o as [n h|u v w|n|n]; simpl.
  - unfold add_node.
    pose proof (nx_add_node_keeps_wf n h (graph self) W) as W'.
    destruct (nx.add_node n [("heuristic", h)] (graph self)). exact W'.
  - unfold add_edge.
    pose proof (nx_add_edge_keeps_wf u v w (graph self) W) as W'.
    destruct (nx.add_edge u v [("weight", w)] (graph self)). exact W'.
  - unfold set_start_node. destruct (hash n); [assumption|].
    destruct (dict_mem (nx._node (graph self)) a); assumption.
  - unfold set_goal_node. destruct (hash n); [assumption|].
    destruct (dict_mem (nx._node (graph self)) a); assumption.
Qed.

Lemma exec_wf (o : op) (self : Graph) : wf self -> wf (fst (exec o self)).
Proof.
  intros [W D]. split; [now apply exec_graph_wf|now apply exec_designations_ok].
Qed.

Lemma run_wf (ops : list op) (self : Graph) : wf self -> wf (run ops self).
Proof.
  revert self. induction ops as [|o ops IH]; intros self W; simpl.
  - exact W.
  - apply IH. now apply exec_wf.
Qed.

(** Every graph that [load_from_file] returns is well formed. *)
Lemma load_from_file_wf (graph_data : pyval) (g : Graph) :
  load_from_file graph_data = Return g -> wf g.
Proof.
  apply (load_from_file_kept wf wf_init exec_wf).
Qed.

Lemma existsb_keq (x : key) (l : list key) :
  existsb (keq x) l = true <-> In x l.
Proof.
  rewrite existsb_exists. split.
  - intros (y & I & E). apply keq_eq in E. now subst.
  - intro I. exists x. split; [assumption|apply keq_refl].
Qed.

Lemma existsb_keq_mem {V : Type} (x : key) (d : dict key V) :
  existsb (keq x) (dict_keys d) = dict_mem d x.
Proof.
  destruct (dict_mem d x) eqn:M.
  - apply existsb_keq. now apply dict_mem_in.
  - apply dict_mem_not_in in M.
    destruct (existsb (keq x) (dict_keys d)) eqn:E; [|reflexivity].
    apply existsb_keq in E. contradiction.
Qed.

Lemma with_endpoint_nodes (G : nx.DiGraph) (k : key) :
  nx.nodes (with_endpoint G k) =
  nx.nodes G ++ first_occurrences (nx.nodes G) [k].
Proof.
  unfold with_endpoint, nx.nodes. simpl. rewrite existsb_keq_mem.
  destruct (dict_mem (nx._node G) k) eqn:M; simpl.
  - now rewrite app_nil_r.
  - rewrite dict_keys_set, M. reflexivity.
Qed.

Lemma first_occurrences_ext (s1 s2 l : list key) :
  (forall x, In x s1 <-> In x s2) ->
  first_occurrences s1 l = first_occurrences s2 l.
Proof.
  revert s1 s2. induction l as [|x l IH]; intros s1 s2 E; simpl;
    [reflexivity|].
  assert (B : existsb (keq x) s1 = existsb (keq x) s2).
  { destruct (existsb (keq x) s2) eqn:E2.
    - apply existsb_keq. apply E. now apply existsb_keq.
    - destruct (existsb (keq x) s1) eqn:E1; [|reflexivity].
      apply existsb_keq, E, existsb_keq in E1. congruence. }
  rewrite B. destruct (existsb (keq x) s2).
  - now apply IH.
  - f_equal. apply IH. intro y. simpl. now rewrite E.
Qed.

Lemma first_occurrences_cons (seen : list key) (x : key) (l : list key) :
  first_occurrences seen (x :: l) =
  first_occurrences seen [x] ++
  first_occurrences (seen ++ first_occurrences seen [x]) l.
Proof.
  simpl. destruct (existsb (keq x) seen) eqn:E; simpl.
  - now rewrite app_nil_r.
  - f_equal. apply first_occurrences_ext. intro y. simpl.
    rewrite in_app_iff. simpl. tauto.
Qed.

Lemma edge_added_nodes (G : nx.DiGraph) (u v : key) (w : pyval) :
  nx.nodes (edge_added G u v w) =
  nx.nodes G ++ first_occurrences (nx.nodes G) [u; v].
Proof.
  unfold edge_added. unfold nx.nodes at 1. cbn [nx._node].
  change (dict_keys (nx._node (with_endpoint (with_endpoint G u) v)))
    with (nx.nodes (with_endpoint (with_endpoint G u) v)).
  rewrite !with_endpoint_nodes, (first_occurrences_cons _ u [v]).
  now rewrite app_assoc.
Qed.

Lemma with_endpoint_attrs (G : nx.DiGraph) (k x : key) :
  dict_get (nx._node (with_endpoint G k)) x =
  if dict_mem (nx._node G) x then dict_get (nx._node G) x
  else if keq k x then Some [] else None.
Proof.
  unfold with_endpoint. destruct (dict_mem (nx._node G) k) eqn:M.
  - unfold dict_mem. destruct (dict_get (nx._node G) x) eqn:E; [reflexivity|].
    destruct (keq k x) eqn:Q; [|reflexivity]. apply keq_eq in Q. subst x.
    unfold dict_mem in M. now rewrite E in M.
  - cbn [nx._node]. destruct (keq_dec k x) as [->|N].
    + rewrite dict_get_set_same, M, keq_refl. reflexivity.
    + rewrite dict_get_set_other by assumption. rewrite (keq_neq _ _ N).
      unfold dict_mem. now destruct (dict_get (nx._node G) x).
Qed.

Lemma get_edge_weight_added (u v w : pyval) (ku kv : key) (G : nx.DiGraph)
    (s g : key) :
  hash u = Return ku -> hash v = Return kv ->
  get_edge_weight u v
    {| graph := edge_added G ku kv w; start_node := s; goal_node := g |} =
  Return w.
Proof.
  intros Hu Hv. unfold get_edge_weight, nx.adj_getitem, edge_added. simpl.
  rewrite Hu. simpl. rewrite dict_get_set_same, Hv. simpl.
  rewrite dict_get_set_same. reflexivity.
Qed.

Lemma first_occurrences_in (seen l : list key) (k : key) :
  In k (first_occurrences seen l) <-> In k l /\ ~ In k seen.
Proof.
  revert seen. induction l as [|x l IH]; intro seen; cbn [first_occurrences].
  - simpl. tauto.
  - destruct (existsb (keq x) seen) eqn:E.
    + apply existsb_keq in E. rewrite IH. simpl. split.
      * intros [I N]. auto.
      * intros [[->|I] N]; [contradiction|auto].
    + assert (N : ~ In x seen).
      { intro I. apply existsb_keq in I. congruence. }
      simpl. rewrite IH. simpl. split.
      * intros [->|[I M]]; [auto|]. split; auto.
      * intros [[->|I] M]; [auto|].
        destruct (key_eq_dec x k) as [->|D]; [auto|].
        right. split; [assumption|]. intros [?|?]; auto.
Qed.

Lemma edge_added_attrs_new (G : nx.DiGraph) (u v : key) (w : pyval) (k : key) :
  In k (first_occurrences (nx.nodes G) [u; v]) ->
  dict_get (nx._node (edge_added G u v w)) k = Some [].
Proof.
  intro I. apply first_occurrences_in in I. destruct I as [I N].
  apply dict_mem_not_in in N.
  unfold edge_added. cbn [nx._node].
  rewrite with_endpoint_attrs. unfold dict_mem at 1.
  rewrite with_endpoint_attrs, N.
  destruct (keq u k) eqn:E; [reflexivity|].
  destruct I as [->|[->|[]]].
  - rewrite keq_refl in E. discriminate.
  - now rewrite keq_refl.
Qed.

Lemma edge_added_attrs_old (G : nx.DiGraph) (u v : key) (w : pyval) (k : key) :
  In k (nx.nodes G) ->
  dict_get (nx._node (edge_added G u v w)) k = dict_get (nx._node G) k.
Proof.
  intro I. apply dict_mem_in in I.
  unfold edge_added. cbn [nx._node].
  rewrite with_endpoint_attrs. unfold dict_mem at 1.
  rewrite with_endpoint_attrs, I.
  unfold dict_mem in I. destruct (dict_get (nx._node G) k); [reflexivity|].
  discriminate.
Qed.

(* ================================================================= *)
(** ** Endpoints that were never registered *)

(** C3, as the claim states it, fails: on the fresh graph
    [add_edge('A', 'B', 1)] returns and changes the graph. *)
Lemma add_edge_unregistered_returns :
  snd (add_edge (PStr "A") (PStr "B") (PInt 1) init) = Return tt /\
  fst (add_edge (PStr "A") (PStr "B") (PInt 1) init) <> init /\
  nx.nodes (graph (fst (add_edge (PStr "A") (PStr "B") (PInt 1) init))) =
  [KStr "A"; KStr "B"].
Proof.
  split; [reflexivity|]. split; [discriminate|reflexivity].
Qed.

(** C3 as amended: [add_edge(from, to, weight)] does not require its
    endpoints to be registered.  For identifiers (hashable, not [None]) it
    returns; each endpoint that is not yet a node is added to the node set,
    after the existing nodes, without a heuristic; the nodes that were there
    keep their attributes; and the edge carries [weight]. *)
Theorem add_edge_adds_endpoints
    (from_node to_node weight : pyval) (u v : key) (self : Graph) :
  wf self ->
  hash from_node = Return u -> u <> KNone ->
  hash to_node = Return v -> v <> KNone ->
  let self' := fst (add_edge from_node to_node weight self) in
  snd (add_edge from_node to_node weight self) = Return tt /\
  nx.nodes (graph self') = nx.nodes (graph self) ++ unregistered self [u; v] /\
  (forall k, In k (unregistered self [u; v]) ->
     dict_get (nx._node (graph self')) k = Some [] /\
     get_heuristic (of_key k) self' = Raise (KeyError (PStr "heuristic"))) /\
  (forall k, In k (nx.nodes (graph self)) ->
     dict_get (nx._node (graph self')) k =
     dict_get (nx._node (graph self)) k) /\
  get_edge_weight from_node to_node self' = Return weight.
Proof.
  intros W Hu Nu Hv Nv.
  rewrite (add_edge_ok from_node to_node weight u v self W Hu Nu Hv Nv).
  cbn [fst snd]. split; [reflexivity|]. split; [apply edge_added_nodes|].
  split; [|split].
  - intros k I. pose proof (edge_added_attrs_new _ _ _ weight _ I) as E.
    split; [exact E|].
    unfold get_heuristic, nx.nodes_getitem. rewrite hash_of_key.
    cbn [bind with_graph graph]. rewrite E. reflexivity.
  - intros k I. now apply edge_added_attrs_old.
  - now apply get_edge_weight_added.
Qed.

Lemma add_edge_adds_endpoints_witness :
  let self' := fst (add_edge (PStr "A") (PStr "D") (PInt 7) scenario) in
  snd (add_edge (PStr "A") (PStr "D") (PInt 7) scenario) = Return tt /\
  nx.nodes (graph self') =
    nx.nodes (graph scenario) ++ unregistered scenario [KStr "A"; KStr "D"] /\
  (forall k, In k (unregistered scenario [KStr "A"; KStr "D"]) ->
     dict_get (nx._node (graph self')) k = Some [] /\
     get_heuristic (of_key k) self' = Raise (KeyError (PStr "heuristic"))) /\
  (forall k, In k (nx.nodes (graph scenario)) ->
     dict_get (nx._node (graph self')) k =
     dict_get (nx._node (graph scenario)) k) /\
  get_edge_weight (PStr "A") (PStr "D") self' = Return (PInt 7).
Proof.
  apply (add_edge_adds_endpoints (PStr "A") (PStr "D") (PInt 7)
           (KStr "A") (KStr "D") scenario).
  - apply run_wf, wf_init.
  - reflexivity.
  - discriminate.
  - reflexivity.
  - discriminate.
Defined.

(* ================================================================= *)
(** ** One edge per ordered pair *)

Lemma edges_of_entry_nodup (u : key) (nbrs : dict key attrs) :
  NoDup (dict_keys nbrs) ->
  NoDup (map (fun nbr : key * attrs => (u, fst nbr)) nbrs).
Proof.
  unfold dict_keys. induction nbrs as [|[v a] nbrs IH]; simpl; intro N.
  - constructor.
  - inversion N as [|? ? N1 N2]; subst. constructor; [|now apply IH].
    intro I. apply in_map_iff in I. destruct I as ([v' a'] & [= <-] & I).
    apply N1. change v' with (fst (v', a')). now apply in_map.
Qed.

Lemma edges_sources (succ : dict key (dict key attrs)) (e : key * key) :
  In e (flat_map (fun entry : key * dict key attrs =>
                    map (fun nbr : key * attrs => (fst entry, fst nbr))
                        (snd entry)) succ) ->
  In (fst e) (dict_keys succ).
Proof.
  intro I. apply in_flat_map in I. destruct I as ([u nbrs] & I1 & I2).
  apply in_map_iff in I2. destruct I2 as (nbr & <- & _). simpl.
  unfold dict_keys. change u with (fst (u, nbrs)). now apply in_map.
Qed.

Lemma edges_nodup (G : nx.DiGraph) : wf_digraph G -> NoDup (nx.edges G).
Proof.
  intro W. unfold nx.edges.
  pose proof (wf_nodup _ W) as N. rewrite <- (wf_keys_succ _ W) in N.
  pose proof (wf_adj _ W) as A. revert N A.
  generalize (dict_keys (nx._node G)) as names.
  induction (nx._succ G) as [|[u nbrs] succ IH]; intros names N A; simpl.
  - constructor.
  - inversion N as [|? ? N1 N2]; subst.
    inversion A as [|? ? [A1 _] A2]; subst.
    apply NoDup_app.
    + now apply edges_of_entry_nodup.
    + now apply (IH names).
    + intros e I1 I2. apply in_map_iff in I1. destruct I1 as (nbr & <- & _).
      apply edges_sources in I2. simpl in I2. contradiction.
Qed.

Lemma edges_in (G : nx.DiGraph) (u v : key) :
  In v (dict_keys (adj_of G u)) -> In (u, v) (nx.edges G).
Proof.
  unfold adj_of, nx.edges. destruct (dict_get (nx._succ G) u) as [nbrs|] eqn:E;
    [|intros []].
  intro I. apply dict_get_some_in in E. apply in_flat_map.
  exists (u, nbrs). split; [assumption|]. simpl.
  unfold dict_keys in I. apply in_map_iff in I. destruct I as (nbr & <- & I).
  apply in_map_iff. now exists nbr.
Qed.

Lemma edge_added_adj (G : nx.DiGraph) (u v : key) (w : pyval) :
  adj_of (edge_added G u v w) u =
  dict_set (adj_of (with_endpoint (with_endpoint G u) v) u) v [("weight", w)].
Proof.
  unfold adj_of at 1, edge_added. cbn [nx._succ].
  now rewrite dict_get_set_same.
Qed.

Lemma get_neighbors_adj (n : pyval) (k : key) (self : Graph) :
  wf self -> hash n = Return k -> In k (nx.nodes (graph self)) ->
  get_neighbors n self = Return (dict_keys (adj_of (graph self) k)).
Proof.
  intros [W _] Hk I. unfold get_neighbors, nx.successors. rewrite Hk. simpl.
  now rewrite (wf_succ_get _ _ W I).
Qed.

(** C8: a graph built by the methods holds at most one edge per ordered
    pair (its edge list has no repeated pair), and a second
    [add_edge(from, to, w2)] after [add_edge(from, to, w1)] leaves one edge
    from [from] to [to], of weight [w2]: [get_edge_weight] returns [w2],
    [get_neighbors(from)] is what it was after the first call and holds
    [to] exactly once. *)
Theorem add_edge_twice_overwrites
    (from_node to_node w1 w2 : pyval) (u v : key) (self : Graph) :
  wf self ->
  hash from_node = Return u -> u <> KNone ->
  hash to_node = Return v -> v <> KNone ->
  let g1 := fst (add_edge from_node to_node w1 self) in
  let g2 := fst (add_edge from_node to_node w2 g1) in
  snd (add_edge from_node to_node w2 g1) = Return tt /\
  get_edge_weight from_node to_node g2 = Return w2 /\
  (exists nbrs,
      get_neighbors from_node g2 = Return nbrs /\
      get_neighbors from_node g1 = Return nbrs /\
      count_occ key_eq_dec nbrs v = 1%nat) /\
  NoDup (nx.edges (graph self)) /\
  NoDup (nx.edges (graph g2)) /\
  In (u, v) (nx.edges (graph g2)).
Proof.
  intros W Hu Nu Hv Nv g1 g2.
  pose proof (exec_wf (OpAddEdge from_node to_node w1) self W) as W1.
  change (fst (exec (OpAddEdge from_node to_node w1) self)) with g1 in W1.
  pose proof (exec_wf (OpAddEdge from_node to_node w2) g1 W1) as W2.
  change (fst (exec (OpAddEdge from_node to_node w2) g1)) with g2 in W2.
  assert (E1 : g1 = with_graph self (edge_added (graph self) u v w1)).
  { unfold g1. now rewrite (add_edge_ok _ _ w1 u v self W Hu Nu Hv Nv). }
  assert (E2 : g2 = with_graph g1 (edge_added (graph g1) u v w2)).
  { unfold g2. now rewrite (add_edge_ok _ _ w2 u v g1 W1 Hu Nu Hv Nv). }
  assert (I1 : In u (nx.nodes (graph g1))).
  { rewrite E1. cbn [with_graph graph]. unfold edge_added, nx.nodes.
    cbn [nx._node]. apply with_endpoint_incl, with_endpoint_in. }
  assert (I1v : In v (dict_keys (adj_of (graph g1) u))).
  { rewrite E1. cbn [with_graph graph]. rewrite edge_added_adj.
    apply dict_keys_set_in. }
  assert (S12 : with_endpoint (with_endpoint (graph g1) u) v = graph g1).
  { assert (Iv : In v (nx.nodes (graph g1))).
    { rewrite E1. cbn [with_graph graph]. unfold edge_added, nx.nodes.
      cbn [nx._node]. apply with_endpoint_in. }
    unfold with_endpoint at 2. apply dict_mem_in in I1. rewrite I1.
    unfold with_endpoint. apply dict_mem_in in Iv. now rewrite Iv. }
  assert (A2 : dict_keys (adj_of (graph g2) u) =
               dict_keys (adj_of (graph g1) u)).
  { rewrite E2. cbn [with_graph graph]. rewrite edge_added_adj, S12.
    now apply dict_keys_set_old. }
  assert (I2 : In u (nx.nodes (graph g2))).
  { apply (exec_nodes_incl (OpAddEdge from_node to_node w2) g1 u I1). }
  split; [|split; [|split; [|split; [|split]]]].
  - now rewrite (add_edge_ok _ _ w2 u v g1 W1 Hu Nu Hv Nv).
  - rewrite E2. unfold with_graph. now apply get_edge_weight_added.
  - exists (dict_keys (adj_of (graph g1) u)). split; [|split].
    + rewrite <- A2. now apply get_neighbors_adj.
    + now apply get_neighbors_adj.
    + apply NoDup_count_occ'; [|assumption].
      apply (wf_adj_of (graph g1) u (proj1 W1)).
  - apply edges_nodup, (proj1 W).
  - apply edges_nodup, (proj1 W2).
  - apply edges_in. rewrite A2. exact I1v.
Qed.

Lemma add_edge_twice_overwrites_witness :
  let g1 := fst (add_edge (PStr "A") (PStr "B") (PInt 8) scenario) in
  let g2 := fst (add_edge (PStr "A") (PStr "B") (PInt 9) g1) in
  snd (add_edge (PStr "A") (PStr "B") (PInt 9) g1) = Return tt /\
  get_edge_weight (PStr "A") (PStr "B") g2 = Return (PInt 9) /\
  (exists nbrs,
      get_neighbors (PStr "A") g2 = Return nbrs /\
      get_neighbors (PStr "A") g1 = Return nbrs /\
      count_occ key_eq_dec nbrs (KStr "B") = 1%nat) /\
  NoDup (nx.edges (graph scenario)) /\
  NoDup (nx.edges (graph g2)) /\
  In (KStr "A", KStr "B") (nx.edges (graph g2)).
Proof.
  apply (add_edge_twice_overwrites (PStr "A") (PStr "B") (PInt 8) (PInt 9)
           (KStr "A") (KStr "B") scenario).
  - apply run_wf, wf_init.
  - reflexivity.
  - discriminate.
  - reflexivity.
  - discriminate.
Defined.

(* ================================================================= *)
(** ** What a history of calls leaves in the graph *)

Lemma with_endpoint_heuristic (G : nx.DiGraph) (k x : key) :
  heuristic_of (with_endpoint G k) x = heuristic_of G x.
Proof.
  unfold heuristic_of. rewrite with_endpoint_attrs. unfold dict_mem.
  destruct (dict_get (nx._node G) x); [reflexivity|].
  now destruct (keq k x).
Qed.

Lemma with_endpoint_adj (G : nx.DiGraph) (k x : key) :
  wf_digraph G -> adj_of (with_endpoint G k) x = adj_of G x.
Proof.
  intro W. unfold with_endpoint.
  destruct (dict_mem (nx._node G) k) eqn:M; [reflexivity|].
  unfold adj_of. cbn [nx._succ].
  destruct (key_eq_dec k x) as [->|N].
  - rewrite dict_get_set_same.
    rewrite <- succ_mem_node in M by assumption. unfold dict_mem in M.
    now destruct (dict_get (nx._succ G) x).
  - now rewrite dict_get_set_other.
Qed.

Lemma edge_call_some (u v w : pyval) (ku kv : key) :
  edge_call (OpAddEdge u v w) = Some (ku, kv) ->
  hash u = Return ku /\ ku <> KNone /\ hash v = Return kv /\ kv <> KNone.
Proof.
  unfold edge_call. destruct (hash u) as [e|a]; [discriminate|].
  destruct (hash v) as [e|b]; [discriminate|].
  destruct a, b; try discriminate; intros [= <- <-];
    repeat split; discriminate.
Qed.

Lemma edge_call_none (u v w : pyval) :
  edge_call (OpAddEdge u v w) = None ->
  (hash u = Raise TypeError \/ hash u = Return KNone) \/
  (exists ku, hash u = Return ku /\ ku <> KNone /\
              (hash v = Raise TypeError \/ hash v = Return KNone)).
Proof.
  intro E. destruct (hash_cases u) as [(ku & Hu & Nu)|Fu]; [|now left].
  right. exists ku. split; [assumption|]. split; [assumption|].
  destruct (hash_cases v) as [(kv & Hv & Nv)|Fv]; [|assumption].
  unfold edge_call in E. rewrite Hu, Hv in E.
  destruct ku, kv; try discriminate; contradiction.
Qed.

(** The graph a failed [add_edge] leaves: as it was, or with the first
    endpoint added. *)
Lemma add_edge_failed (u v w : pyval) (self : Graph) :
  wf self -> edge_call (OpAddEdge u v w) = None ->
  graph (fst (add_edge u v w self)) = graph self \/
  exists ku, ku <> KNone /\
             graph (fst (add_edge u v w self)) = with_endpoint (graph self) ku.
Proof.
  intros [W _] E. unfold add_edge, nx.add_edge.
  destruct (edge_call_none u v w E) as [Fu|(ku & Hu & Nu & Fv)].
  - left. now rewrite (ensure_node_fails u _ W Fu).
  - right. exists ku. split; [assumption|].
    rewrite (ensure_node_wf u ku _ W Hu Nu).
    now rewrite (ensure_node_fails v _ (with_endpoint_wf _ ku W Nu) Fv).
Qed.

Lemma add_node_failed (n h : pyval) (self : Graph) :
  wf self -> (hash n = Raise TypeError \/ hash n = Return KNone) ->
  fst (add_node n h self) = self.
Proof.
  intros [W _] F. unfold add_node. rewrite (nx_add_node_fails n _ _ W F).
  now destruct self.
Qed.

Lemma set_start_node_graph (n : pyval) (self : Graph) :
  graph (fst (set_start_node n self)) = graph self.
Proof.
  unfold set_start_node. destruct (hash n) as [e|k]; [reflexivity|].
  now destruct (dict_mem (nx._node (graph self)) k).
Qed.

Lemma set_goal_node_graph (n : pyval) (self : Graph) :
  graph (fst (set_goal_node n self)) = graph self.
Proof.
  unfold set_goal_node. destruct (hash n) as [e|k]; [reflexivity|].
  now destruct (dict_mem (nx._node (graph self)) k).
Qed.

(** One call changes the heuristic on record as [heuristic_after] says. *)
Lemma exec_heuristic (o : op) (self : Graph) (k : key) :
  wf self ->
  heuristic_of (graph (fst (exec o self))) k =
  heuristic_after o k (heuristic_of (graph self) k).
Proof.
  intro W. destruct o as [n h|u v w|n|n]; cbn [exec heuristic_after].
  - destruct (hash_cases n) as [(k' & Hk & NN)|F].
    + rewrite (add_node_ok n h k' self W Hk NN), Hk. cbn [fst with_graph graph].
      unfold heuristic_of, node_added. cbn [nx._node].
      destruct (keq k k') eqn:E.
      * apply keq_eq in E. subst k'. rewrite dict_get_set_same.
        destruct k; [contradiction| |]; reflexivity.
      * apply keq_false in E.
        rewrite dict_get_set_other by congruence.
        destruct k'; [contradiction| |]; reflexivity.
    + rewrite (add_node_failed n h self W F).
      destruct F as [-> | ->]; reflexivity.
  - destruct (edge_call (OpAddEdge u v w)) as [[ku kv]|] eqn:E.
    + destruct (edge_call_some u v w ku kv E) as (Hu & Nu & Hv & Nv).
      rewrite (add_edge_ok u v w ku kv self W Hu Nu Hv Nv).
      cbn [fst with_graph graph]. unfold edge_added.
      unfold heuristic_of at 1. cbn [nx._node].
      change (heuristic_of (with_endpoint (with_endpoint (graph self) ku) kv) k
              = heuristic_of (graph self) k).
      now rewrite !with_endpoint_heuristic.
    + destruct (add_edge_failed u v w self W E) as [-> | (ku & _ & ->)];
        [reflexivity|apply with_endpoint_heuristic].
  - now rewrite set_start_node_graph.
  - now rewrite set_goal_node_graph.
Qed.

Lemma run_heuristic (ops : list op) (self : Graph) (k : key) :
  wf self ->
  heuristic_of (graph (run ops self)) k =
  last_heuristic ops k (heuristic_of (graph self) k).
Proof.
  revert self. induction ops as [|o ops IH]; intros self W; simpl;
    [reflexivity|].
  rewrite IH by now apply exec_wf. now rewrite exec_heuristic.
Qed.

Lemma get_heuristic_of (k : key) (self : Graph) :
  get_heuristic (of_key k) self =
  match heuristic_of (graph self) k with
  | Some h => Return h
  | None =>
      Raise (KeyError (if dict_mem (nx._node (graph self)) k
                       then PStr "heuristic" else of_key k))
  end.
Proof.
  unfold get_heuristic, nx.nodes_getitem, heuristic_of, dict_mem.
  rewrite hash_of_key. simpl.
  destruct (dict_get (nx._node (graph self)) k) as [a|]; [|reflexivity].
  simpl. unfold attr_getitem. now destruct (dict_get a "heuristic").
Qed.

(* ================================================================= *)
(** ** [get_heuristic] *)

(** C6, as the claim states it, fails: after [add_edge('A', 'B', 1)] on the
    fresh graph, ['B'] is in the node set and [get_heuristic('B')] raises. *)
Lemma get_heuristic_present_raises :
  let self := run [OpAddEdge (PStr "A") (PStr "B") (PInt 1)] init in
  In (KStr "B") (nx.nodes (graph self)) /\
  get_heuristic (PStr "B") self = Raise (KeyError (PStr "heuristic")).
Proof.
  split; [vm_compute; auto|reflexivity].
Qed.

(** C6 as amended: after any history of calls on a fresh graph,
    [get_heuristic(id)] returns the heuristic given by the last [add_node]
    call for [id] when there was one, and raises [KeyError] otherwise: with
    the key ['heuristic'] when [id] is in the node set (it came in as an
    endpoint of [add_edge]), with [id] when it is not. *)
Theorem get_heuristic_history (ops : list op) (k : key) :
  let self := run ops init in
  get_heuristic (of_key k) self =
  match last_heuristic ops k None with
  | Some h => Return h
  | None =>
      Raise (KeyError (if dict_mem (nx._node (graph self)) k
                       then PStr "heuristic" else of_key k))
  end.
Proof.
  intro self. rewrite get_heuristic_of. unfold self.
  now rewrite (run_heuristic ops init k wf_init).
Qed.

(* ================================================================= *)
(** ** [get_neighbors] *)

Lemma first_occurrences_app (seen l1 l2 : list key) :
  first_occurrences seen (l1 ++ l2) =
  first_occurrences seen l1 ++
  first_occurrences (seen ++ first_occurrences seen l1) l2.
Proof.
  revert seen. induction l1 as [|x l1 IH]; intro seen.
  - simpl. now rewrite app_nil_r.
  - cbn [app first_occurrences]. destruct (existsb (keq x) seen) eqn:E.
    + apply IH.
    + cbn [app]. f_equal. rewrite IH. f_equal.
      apply first_occurrences_ext. intro y.
      simpl. rewrite !in_app_iff. simpl. tauto.
Qed.

(** One call extends the successors of [k] by its target, if it is new. *)
Lemma exec_adj (o : op) (self : Graph) (k : key) :
  wf self ->
  dict_keys (adj_of (graph (fst (exec o self))) k) =
  dict_keys (adj_of (graph self) k) ++
  first_occurrences (dict_keys (adj_of (graph self) k)) (target o k).
Proof.
  intro W. pose proof (proj1 W) as WG. unfold target.
  destruct o as [n h|u v w|n|n]; cbn [exec];
    try (change (edge_call _) with (@None (key * key)) at 1; cbv iota).
  - rewrite app_nil_r. destruct (hash_cases n) as [(k' & Hk & NN)|F].
    + rewrite (add_node_ok n h k' self W Hk NN). cbn [fst with_graph graph].
      unfold adj_of, node_added. cbn [nx._succ].
      destruct (dict_mem (nx._node (graph self)) k') eqn:M; [reflexivity|].
      destruct (key_eq_dec k' k) as [->|N].
      * rewrite dict_get_set_same.
        rewrite <- succ_mem_node in M by assumption. unfold dict_mem in M.
        now destruct (dict_get (nx._succ (graph self)) k).
      * now rewrite dict_get_set_other.
    + now rewrite (add_node_failed n h self W F).
  - destruct (edge_call (OpAddEdge u v w)) as [[ku kv]|] eqn:E.
    + destruct (edge_call_some u v w ku kv E) as (Hu & Nu & Hv & Nv).
      rewrite (add_edge_ok u v w ku kv self W Hu Nu Hv Nv).
      cbn [fst with_graph graph] in *.
      pose proof (with_endpoint_wf _ ku WG Nu) as W1.
      destruct (keq k ku) eqn:Q.
      * apply keq_eq in Q. subst ku. rewrite edge_added_adj.
        rewrite (with_endpoint_adj _ kv k W1), (with_endpoint_adj _ k k WG).
        rewrite dict_keys_set. cbn [first_occurrences].
        rewrite existsb_keq_mem.
        destruct (dict_mem (adj_of (graph self) k) kv);
          [now rewrite app_nil_r|reflexivity].
      * apply keq_false in Q. rewrite app_nil_r.
        unfold adj_of at 1, edge_added. cbn [nx._succ].
        rewrite dict_get_set_other by congruence.
        change (dict_keys
                  (adj_of (with_endpoint (with_endpoint (graph self) ku) kv) k)
                = dict_keys (adj_of (graph self) k)).
        now rewrite (with_endpoint_adj _ kv k W1), (with_endpoint_adj _ ku k WG).
    + rewrite app_nil_r.
      destruct (add_edge_failed u v w self W E) as [-> | (ku & _ & ->)];
        [reflexivity|now rewrite with_endpoint_adj].
  - now rewrite set_start_node_graph, app_nil_r.
  - now rewrite set_goal_node_graph, app_nil_r.
Qed.

Lemma run_adj (ops : list op) (self : Graph) (k : key) :
  wf self ->
  dict_keys (adj_of (graph (run ops self)) k) =
  dict_keys (adj_of (graph self) k) ++
  first_occurrences (dict_keys (adj_of (graph self) k)) (targets ops k).
Proof.
  revert self. induction ops as [|o ops IH]; intros self W.
  - simpl. now rewrite app_nil_r.
  - cbn [run fold_left]. change (fold_left _ ops ?g) with (run ops g).
    rewrite IH by now apply exec_wf. rewrite exec_adj by assumption.
    unfold targets. cbn [flat_map]. rewrite first_occurrences_app.
    now rewrite app_assoc.
Qed.

Lemma edges_inv (G : nx.DiGraph) (u v : key) :
  wf_digraph G -> In (u, v) (nx.edges G) -> In v (dict_keys (adj_of G u)).
Proof.
  intros W I. unfold nx.edges in I. apply in_flat_map in I.
  destruct I as ([u' nbrs] & I1 & I2). apply in_map_iff in I2.
  destruct I2 as (nbr & [= -> <-] & I2).
  assert (E : dict_get (nx._succ G) u = Some nbrs).
  { apply dict_get_in_nodup; [|assumption].
    rewrite (wf_keys_succ _ W). apply (wf_nodup _ W). }
  unfold adj_of. rewrite E. unfold dict_keys. now apply in_map.
Qed.

(** C7, as the claim states it, fails: ['A'] has no outgoing edge in the
    fresh graph, and [get_neighbors('A')] raises instead of returning
    the empty sequence. *)
Lemma get_neighbors_unknown_raises :
  get_neighbors (PStr "A") init = Raise NetworkXError /\
  get_neighbors (PStr "A") init <> Return [].
Proof.
  split; [reflexivity|discriminate].
Qed.

(** C7 as amended: after any history of calls on a fresh graph, for an
    identifier in the node set [get_neighbors(id)] returns the targets of
    the [add_edge] calls that left [id], in call order, each at the place of
    its first insertion; these are the [v] with an edge [(id, v)]; the
    sequence is empty when no edge leaves [id].  For an identifier that is
    not in the node set it raises [NetworkXError]. *)
Theorem get_neighbors_history (ops : list op) (k : key) :
  let self := run ops init in
  (In k (nx.nodes (graph self)) ->
   get_neighbors (of_key k) self =
     Return (first_occurrences [] (targets ops k)) /\
   (forall v, In v (first_occurrences [] (targets ops k)) <->
              In (k, v) (nx.edges (graph self))) /\
   ((forall v, ~ In (k, v) (nx.edges (graph self))) ->
    get_neighbors (of_key k) self = Return [])) /\
  (~ In k (nx.nodes (graph self)) ->
   get_neighbors (of_key k) self = Raise NetworkXError).
Proof.
  intro self. pose proof (run_wf ops init wf_init) as W. fold self in W.
  pose proof (run_adj ops init k wf_init) as A. fold self in A.
  change (dict_keys (adj_of (graph init) k)) with (@nil key) in A.
  cbn [app] in A. split.
  - intro I.
    assert (G : get_neighbors (of_key k) self =
                Return (first_occurrences [] (targets ops k))).
    { rewrite (get_neighbors_adj (of_key k) k self W (hash_of_key k) I).
      now rewrite A. }
    assert (E : forall v, In v (first_occurrences [] (targets ops k)) <->
                          In (k, v) (nx.edges (graph self))).
    { intro v. rewrite <- A. split; [apply edges_in|apply edges_inv, W]. }
    split; [exact G|]. split; [exact E|].
    intro N. rewrite G. f_equal.
    destruct (first_occurrences [] (targets ops k)) as [|v l]; [reflexivity|].
    exfalso. apply (N v), E. now left.
  - intro N. unfold get_neighbors, nx.successors. rewrite hash_of_key. simpl.
    destruct (dict_get (nx._succ (graph self)) k) eqn:E; [|reflexivity].
    exfalso. apply N. unfold nx.nodes. rewrite <- (wf_keys_succ _ (proj1 W)).
    apply dict_get_some_in in E. unfold dict_keys.
    change k with (fst (k, d)). now apply in_map.
Qed.

Lemma get_neighbors_history_witness :
  get_neighbors (PStr "A") scenario = Return [KStr "B"; KStr "C"] /\
  get_neighbors (PStr "Z") scenario = Raise NetworkXError.
Proof.
  pose (ops := [OpAddNode (PStr "A") (PInt 5);
                OpAddNode (PStr "B") (PInt 3);
                OpAddNode (PStr "C") (PInt 0);
                OpAddEdge (PStr "A") (PStr "B") (PInt 1);
                OpAddEdge (PStr "A") (PStr "C") (PInt 4);
                OpAddEdge (PStr "B") (PStr "C") (PInt 2);
                OpSetStart (PStr "A");
                OpSetGoal (PStr "C")]).
  destruct (get_neighbors_history ops (KStr "A")) as [HA _].
  destruct (get_neighbors_history ops (KStr "Z")) as [_ HZ].
  split.
  - refine (proj1 (HA _)). vm_compute. auto.
  - refine (HZ _). vm_compute.
    intros [H|[H|[H|H]]]; try discriminate. exact H.
Defined.

(* ================================================================= *)
(** ** Saving *)

Lemma map_result_raises {A B : Type} (f : A -> result B) (l : list A) (x : A) :
  In x l -> raised (f x) -> raised (map_result f l).
Proof.
  intros I R. induction l as [|y l IH]; [contradiction|]. simpl.
  destruct (f y) as [e|b] eqn:E; [now exists e|]. simpl.
  destruct I as [->|I].
  - destruct R as [e R]. congruence.
  - destruct (IH I) as [e ->]. now exists e.
Qed.

Lemma map_result_map {A B : Type} (f : A -> result B) (g : A -> B)
    (l : list A) :
  (forall x, In x l -> f x = Return (g x)) ->
  map_result f l = Return (map g l).
Proof.
  induction l as [|y l IH]; intro E; simpl; [reflexivity|].
  rewrite (E y) by now left. simpl. rewrite IH; [reflexivity|].
  intros x I. apply E. now right.
Qed.

Lemma map_result_returns_inv {A B : Type} (f : A -> result B) (l : list A)
    (ys : list B) (x : A) :
  map_result f l = Return ys -> In x l -> exists y, f x = Return y.
Proof.
  revert ys. induction l as [|z l IH]; intros ys E I; [contradiction|].
  simpl in E. destruct (f z) as [e|b] eqn:F; [discriminate|]. simpl in E.
  destruct (map_result f l) as [e|bs] eqn:M; [discriminate|].
  destruct I as [->|I]; [now exists b|]. now apply (IH bs).
Qed.

Lemma save_node_of (self : Graph) (k : key) :
  save_node self k =
  match heuristic_of (graph self) k with
  | Some h => Return (node_entry (graph self) k)
  | None =>
      Raise (KeyError (if dict_mem (nx._node (graph self)) k
                       then PStr "heuristic" else of_key k))
  end.
Proof.
  unfold save_node, nx.nodes_getitem, node_entry, heuristic_of, dict_mem.
  rewrite hash_of_key. simpl.
  destruct (dict_get (nx._node (graph self)) k) as [a|]; [|reflexivity].
  simpl. unfold attr_getitem. now destruct (dict_get a "heuristic").
Qed.

Lemma wf_weight_of (G : nx.DiGraph) (e : key * key) :
  wf_digraph G -> In e (nx.edges G) ->
  exists w, dict_get (adj_of G (fst e)) (snd e) = Some [("weight", w)].
Proof.
  intros W I. destruct e as [u v]. simpl.
  pose proof (edges_inv G u v W I) as J.
  destruct (dict_get (adj_of G u) v) as [d|] eqn:E.
  - destruct (wf_edge_attrs G u v d W E) as [w ->]. now exists w.
  - apply dict_get_none in E. contradiction.
Qed.

Lemma save_edge_of (self : Graph) (e : key * key) :
  wf_digraph (graph self) -> In e (nx.edges (graph self)) ->
  save_edge self e = Return (edge_entry (graph self) e).
Proof.
  intros W I. destruct (wf_weight_of _ e W I) as [w E].
  unfold save_edge, nx.edges_getitem, edge_entry, weight_of. rewrite E.
  unfold adj_of in E.
  destruct (dict_get (nx._succ (graph self)) (fst e)) as [nbrs|];
    [|discriminate].
  rewrite E. reflexivity.
Qed.

Lemma registered_heuristic (self : Graph) (k : key) :
  registered self -> In k (nx.nodes (graph self)) ->
  exists h, heuristic_of (graph self) k = Some h.
Proof.
  intros R I. unfold heuristic_of.
  destruct (dict_get (nx._node (graph self)) k) as [a|] eqn:E.
  - destruct (dict_get_forall has_heuristic _ _ _ R E) as [h ->].
    now exists h.
  - apply dict_get_none in E. contradiction.
Qed.

(** What [save_to_file] writes for a valid graph. *)
Lemma save_to_file_valid (self : Graph) :
  valid self -> save_to_file self = Return (document self).
Proof.
  intros [[W _] R]. unfold save_to_file, document.
  rewrite (map_result_map _ (node_entry (graph self))).
  - simpl. rewrite (map_result_map _ (edge_entry (graph self))); [reflexivity|].
    intros e I. now apply save_edge_of.
  - intros k I. rewrite save_node_of.
    now destruct (registered_heuristic self k R I) as [h ->].
Qed.

Lemma save_to_file_returns_registered (self : Graph) (j : pyval) :
  wf self -> save_to_file self = Return j -> registered self.
Proof.
  intros [W _] S. unfold save_to_file in S.
  destruct (map_result (save_node self) (nx.nodes (graph self)))
    as [e|ns] eqn:M; [discriminate|].
  clear S. unfold registered. apply Forall_forall. intros [k a] I.
  assert (Ik : In k (nx.nodes (graph self))).
  { unfold nx.nodes, dict_keys. change k with (fst (k, a)). now apply in_map. }
  destruct (map_result_returns_inv _ _ ns k M Ik) as [y Y].
  rewrite save_node_of in Y. unfold heuristic_of in Y.
  rewrite (dict_get_in_nodup _ k a (wf_nodup _ W) I) in Y.
  pose proof (wf_node_attrs _ W) as A. rewrite Forall_forall in A.
  destruct (A (k, a) I) as [E|E]; [|exact E].
  simpl in E. subst a. discriminate.
Qed.

Lemma run_app (l1 l2 : list op) (self : Graph) :
  run (l1 ++ l2) self = run l2 (run l1 self).
Proof. apply fold_left_app. Qed.

Lemma run_nodes_incl (ops : list op) (self : Graph) (x : key) :
  In x (nx.nodes (graph self)) -> In x (nx.nodes (graph (run ops self))).
Proof.
  revert self. induction ops as [|o ops IH]; intros self I; [exact I|].
  apply IH. now apply exec_nodes_incl.
Qed.

Lemma endpoint_added (o : op) (k : key) (self : Graph) :
  wf self -> endpoint_of o k -> In k (nx.nodes (graph (fst (exec o self)))).
Proof.
  intros W (u & v & E & K). destruct o as [n h|a b w|n|n]; try discriminate.
  destruct (edge_call_some a b w u v E) as (Hu & Nu & Hv & Nv).
  cbn [exec]. rewrite (add_edge_ok a b w u v self W Hu Nu Hv Nv).
  cbn [fst with_graph graph]. unfold edge_added, nx.nodes. cbn [nx._node].
  destruct K as [-> | ->].
  - apply with_endpoint_incl, with_endpoint_in.
  - apply with_endpoint_in.
Qed.

(** C10: an identifier that came in as an endpoint of [add_edge] and was
    never given to [add_node] is in the node set without attributes;
    [get_heuristic] on it raises, and [save_to_file] raises for the whole
    graph.  On the graphs the methods build, [save_to_file] returns exactly
    when every node has been registered with a heuristic. *)
Theorem unregistered_endpoint_breaks_save :
  (forall (ops : list op) (k : key),
      let self := run ops init in
      (exists o, In o ops /\ endpoint_of o k) ->
      last_heuristic ops k None = None ->
      In k (nx.nodes (graph self)) /\
      dict_get (nx._node (graph self)) k = Some [] /\
      get_heuristic (of_key k) self = Raise (KeyError (PStr "heuristic")) /\
      raised (save_to_file self)) /\
  (forall self : Graph,
      wf self ->
      ((exists j, save_to_file self = Return j) <-> registered self)).
Proof.
  split.
  - intros ops k self (o & Io & Eo) L.
    pose proof (run_wf ops init wf_init) as W. fold self in W.
    assert (I : In k (nx.nodes (graph self))).
    { apply in_split in Io. destruct Io as (l1 & l2 & ->).
      unfold self. rewrite run_app. cbn [run fold_left].
      change (fold_left _ l2 ?g) with (run l2 g).
      apply run_nodes_incl, endpoint_added; [|assumption].
      apply run_wf, wf_init. }
    assert (H : heuristic_of (graph self) k = None).
    { unfold self. now rewrite (run_heuristic ops init k wf_init). }
    assert (M : dict_mem (nx._node (graph self)) k = true)
      by now apply dict_mem_in.
    assert (G : get_heuristic (of_key k) self =
                Raise (KeyError (PStr "heuristic"))).
    { now rewrite get_heuristic_of, H, M. }
    split; [exact I|]. split; [|split; [exact G|]].
    + unfold heuristic_of in H.
      destruct (dict_get (nx._node (graph self)) k) as [a|] eqn:E.
      * destruct (dict_get_forall node_attrs_ok _ _ _
                    (wf_node_attrs _ (proj1 W)) E) as [->|[h ->]];
          [reflexivity|discriminate].
      * unfold dict_mem in M. rewrite E in M. discriminate.
    + unfold save_to_file.
      destruct (map_result_raises (save_node self) _ k I) as [e R].
      * rewrite save_node_of, H. eexists. reflexivity.
      * rewrite R. now exists e.
  - intros self W. split.
    + intros [j S]. now apply (save_to_file_returns_registered self j).
    + intro R. exists (document self). apply save_to_file_valid. now split.
Qed.

Lemma unregistered_endpoint_breaks_save_witness :
  let self := run [OpAddNode (PStr "A") (PInt 5);
                   OpAddEdge (PStr "A") (PStr "B") (PInt 1)] init in
  In (KStr "B") (nx.nodes (graph self)) /\
  dict_get (nx._node (graph self)) (KStr "B") = Some [] /\
  get_heuristic (PStr "B") self = Raise (KeyError (PStr "heuristic")) /\
  raised (save_to_file self).
Proof.
  destruct unregistered_endpoint_breaks_save as [H _].
  refine (H [OpAddNode (PStr "A") (PInt 5);
             OpAddEdge (PStr "A") (PStr "B") (PInt 1)] (KStr "B") _ _).
  - exists (OpAddEdge (PStr "A") (PStr "B") (PInt 1)). split.
    + simpl. auto.
    + exists (KStr "A"), (KStr "B"). split; [reflexivity|now right].
  - reflexivity.
Defined.

(* ================================================================= *)
(** ** The concrete scenario of the search *)

(** On the engine of section 4.2, whose frontier is ranked by the heuristic
    alone, the search of the scenario returns and its expansion order is not
    [A, B, C].  This does not settle what [algorithms.py] does: the module
    is not in the sources, section 8 of the specification walks through the
    scenario with C ranked at 4, and section 9 leaves open whether the edge
    weight takes part in the ranking. *)
Lemma search_scenario_not_through_B :
  exists path order steps,
    search scenario = Some (Return (path, order, steps)) /\
    order <> [KStr "A"; KStr "B"; KStr "C"].
Proof.
  do 3 eexists. split; [vm_compute; reflexivity|discriminate].
Qed.

(** The engine of section 4.2 on the scenario (A with heuristic 5, B with
    3, C with 0, edges A->B, A->C, B->C, start A, goal C): the path [A, C]
    and the expansion order [A, C].  After A is expanded the frontier holds
    B (3) and C (0), and C, the goal, has the lower heuristic. *)
Theorem search_scenario :
  search scenario =
  Some (Return
          (Some [KStr "A"; KStr "C"],
           [KStr "A"; KStr "C"],
           [{| current := KStr "A"; visited := [KStr "A"];
               path_so_far := [KStr "A"] |};
            {| current := KStr "C"; visited := [KStr "A"; KStr "C"];
               path_so_far := [KStr "A"; KStr "C"] |}])).
Proof. vm_compute. reflexivity. Qed.

(* ================================================================= *)
(** ** Saving and loading again *)

(** C1 on a valid graph whose start node is named by the empty string and
    whose goal node is named by 0: [save_to_file] writes both names,
    [load_from_file] tests [if graph_data.get('start_node'):] and
    [if graph_data.get('goal_node'):], both values are false as conditions,
    and the loaded graph has neither a start nor a goal. *)
Theorem save_then_load_drops_falsy_names :
  valid falsy_names_graph /\
  start_node falsy_names_graph = KStr "" /\
  goal_node falsy_names_graph = KInt 0 /\
  exists g,
    save_then_load falsy_names_graph = Return g /\
    nx._node (graph g) = nx._node (graph falsy_names_graph) /\
    nx._succ (graph g) = nx._succ (graph falsy_names_graph) /\
    start_node g = KNone /\
    goal_node g = KNone /\
    ~ same_graph g falsy_names_graph.
Proof.
  split.
  { split; [apply run_wf, wf_init|].
    repeat constructor; eexists; reflexivity. }
  split; [reflexivity|]. split; [reflexivity|].
  eexists. split; [vm_compute; reflexivity|].
  repeat (split; [reflexivity|]).
  intros (_ & _ & S & _). discriminate S.
Qed.

(** *** The document, row by row *)

Lemma dict_keys_app {K V : Type} (a b : dict K V) :
  dict_keys (a ++ b) = dict_keys a ++ dict_keys b.
Proof. apply map_app. Qed.

Lemma dict_keys_bare (names : list key) : dict_keys (bare names) = names.
Proof.
  unfold dict_keys, bare. rewrite map_map. simpl. apply map_id.
Qed.

Lemma document_nodes (G : nx.DiGraph) :
  wf_digraph G ->
  map (node_entry G) (nx.nodes G) = map node_row_entry (nx._node G).
Proof.
  intro W. unfold nx.nodes, dict_keys. rewrite map_map.
  apply map_ext_in. intros [k a] I. unfold node_entry, node_row_entry.
  unfold heuristic_of. simpl.
  now rewrite (dict_get_in_nodup _ k a (wf_nodup _ W) I).
Qed.

Lemma document_edges (G : nx.DiGraph) :
  wf_digraph G ->
  map (edge_entry G) (nx.edges G) =
  flat_map (fun entry => map (edge_row_entry (fst entry)) (snd entry))
           (nx._succ G).
Proof.
  intro W. unfold nx.edges.
  assert (N : NoDup (dict_keys (nx._succ G)))
    by (rewrite (wf_keys_succ _ W); apply (wf_nodup _ W)).
  assert (L : forall l, incl l (nx._succ G) ->
     map (edge_entry G)
         (flat_map (fun entry : key * dict key attrs =>
                      map (fun nbr : key * attrs => (fst entry, fst nbr))
                          (snd entry)) l) =
     flat_map (fun entry => map (edge_row_entry (fst entry)) (snd entry)) l).
  { induction l as [|[u nbrs] l IH]; intro I; simpl; [reflexivity|].
    rewrite map_app, IH by (intros x Hx; apply I; now right).
    f_equal. rewrite map_map. apply map_ext_in. intros [v a] J.
    unfold edge_entry, edge_row_entry, weight_of, adj_of. simpl.
    rewrite (dict_get_in_nodup _ u nbrs N) by (apply I; now left).
    assert (Nn : NoDup (dict_keys nbrs)).
    { pose proof (wf_adj _ W) as A. rewrite Forall_forall in A.
      apply (A (u, nbrs)). apply I. now left. }
    now rewrite (dict_get_in_nodup _ v a Nn J). }
  apply L, incl_refl.
Qed.

(** *** Loading the nodes *)

Lemma load_nodes_rows (rows : dict key attrs) :
  forall g : Graph,
    wf g ->
    Forall (fun row => has_heuristic (snd row)) rows ->
    NoDup (dict_keys (nx._node (graph g)) ++ dict_keys rows) ->
    ~ In KNone (dict_keys rows) ->
    exists g',
      load_nodes (map node_row_entry rows) g = Return g' /\
      wf g' /\
      nx._node (graph g') = nx._node (graph g) ++ rows /\
      nx._succ (graph g') = nx._succ (graph g) ++ bare (dict_keys rows) /\
      start_node g' = start_node g /\
      goal_node g' = goal_node g.
Proof.
  induction rows as [|[k a] rows IH]; intros g W F N NN.
  - exists g. simpl. rewrite !app_nil_r. auto 10.
  - inversion F as [|? ? [h Fh] F']; subst. simpl in Fh. subst a.
    assert (Nk : k <> KNone) by (intros ->; apply NN; now left).
    assert (Mk : ~ In k (dict_keys (nx._node (graph g)))).
    { intro I. apply NoDup_remove_2 in N. apply N. apply in_or_app. now left. }
    pose proof (exec_wf (OpAddNode (of_key k) h) g W) as W1.
    cbn [exec] in W1.
    pose proof (add_node_ok (of_key k) h k g W (hash_of_key k) Nk) as A.
    rewrite A in W1. cbn [fst] in W1.
    set (g1 := with_graph g (node_added (graph g) k h)) in *.
    assert (St : forall rest,
               load_nodes (node_row_entry (k, [("heuristic", h)]) :: rest) g =
               load_nodes rest g1).
    { intro rest. cbn [load_nodes].
      change (getitem (node_row_entry (k, [("heuristic", h)])) "id")
        with (Return (of_key k)).
      change (getitem (node_row_entry (k, [("heuristic", h)])) "heuristic")
        with (Return h).
      cbn [bind]. unfold call. rewrite A. reflexivity. }
    cbn [map]. rewrite St.
    assert (E1 : nx._node (graph g1) =
                 nx._node (graph g) ++ [(k, [("heuristic", h)])]).
    { unfold g1, node_added. cbn [with_graph graph nx._node].
      now apply dict_set_new. }
    assert (E2 : nx._succ (graph g1) = nx._succ (graph g) ++ [(k, [])]).
    { unfold g1, node_added. cbn [with_graph graph nx._succ].
      apply dict_mem_not_in in Mk. rewrite Mk. apply dict_set_new.
      rewrite (wf_keys_succ _ (proj1 W)). now apply dict_mem_not_in. }
    destruct (IH g1 W1 F') as (g' & L & W' & En & Es & S & Gl).
    + rewrite E1, dict_keys_app. simpl. rewrite <- app_assoc. exact N.
    + intro I. apply NN. now right.
    + exists g'. split; [exact L|]. split; [exact W'|].
      rewrite En, Es, E1, E2, <- !app_assoc. repeat split; assumption.
Qed.

(** *** Loading the edges *)

Lemma dict_set_twice {K V : Type} `{EqKey K} (d : dict K V) (k : K) (a b : V) :
  dict_set (dict_set d k a) k b = dict_set d k b.
Proof.
  induction d as [|[k' v'] d IH]; simpl.
  - now rewrite keq_refl.
  - destruct (keq k k') eqn:E; simpl; rewrite E; [reflexivity|now rewrite IH].
Qed.

Lemma dict_set_same {K V : Type} `{EqKey K} (d : dict K V) (k : K) (v : V) :
  dict_get d k = Some v -> dict_set d k v = d.
Proof.
  induction d as [|[k' v'] d IH]; simpl; [discriminate|].
  destruct (keq k k') eqn:E.
  - now intros [= ->].
  - intro G. now rewrite IH.
Qed.

(** [add_edge] between two nodes of a well-formed graph. *)
Lemma add_edge_between_nodes (u v : key) (w : pyval) (g : Graph) :
  wf g -> In u (nx.nodes (graph g)) -> In v (nx.nodes (graph g)) ->
  exists g',
    add_edge (of_key u) (of_key v) w g = (g', Return tt) /\
    wf g' /\
    nx._node (graph g') = nx._node (graph g) /\
    nx._succ (graph g') =
      dict_set (nx._succ (graph g)) u
               (dict_set (adj_of (graph g) u) v [("weight", w)]) /\
    start_node g' = start_node g /\
    goal_node g' = goal_node g.
Proof.
  intros W Iu Iv.
  assert (Nu : u <> KNone) by (intros ->; now apply (wf_not_none _ (proj1 W))).
  assert (Nv : v <> KNone) by (intros ->; now apply (wf_not_none _ (proj1 W))).
  pose proof (exec_wf (OpAddEdge (of_key u) (of_key v) w) g W) as W1.
  cbn [exec] in W1.
  pose proof (add_edge_ok (of_key u) (of_key v) w u v g W
                (hash_of_key u) Nu (hash_of_key v) Nv) as A.
  rewrite A in W1. cbn [fst] in W1.
  exists (with_graph g (edge_added (graph g) u v w)).
  split; [exact A|]. split; [exact W1|].
  assert (S : with_endpoint (with_endpoint (graph g) u) v = graph g).
  { unfold with_endpoint at 2. apply dict_mem_in in Iu. rewrite Iu.
    unfold with_endpoint. apply dict_mem_in in Iv. now rewrite Iv. }
  unfold edge_added. rewrite S. cbn [with_graph graph nx._node nx._succ].
  auto 10.
Qed.

Lemma load_edges_row (u : key) (rest : dict key attrs) :
  forall (done : dict key attrs) (g : Graph),
    wf g ->
    In u (nx.nodes (graph g)) ->
    dict_get (nx._succ (graph g)) u = Some done ->
    NoDup (dict_keys (done ++ rest)) ->
    Forall (fun nbr => In (fst nbr) (nx.nodes (graph g)) /\
                       edge_attrs_ok (snd nbr)) rest ->
    exists g',
      load_edges (map (edge_row_entry u) rest) g = Return g' /\
      wf g' /\
      nx._node (graph g') = nx._node (graph g) /\
      nx._succ (graph g') = dict_set (nx._succ (graph g)) u (done ++ rest) /\
      start_node g' = start_node g /\
      goal_node g' = goal_node g.
Proof.
  induction rest as [|[v a] rest IH]; intros done g W Iu D N F.
  - exists g. simpl. rewrite app_nil_r, (dict_set_same _ _ _ D). auto 10.
  - inversion F as [|? ? [Iv [w Fw]] F']; subst. simpl in Iv, Fw. subst a.
    destruct (add_edge_between_nodes u v w g W Iu Iv)
      as (g1 & A & W1 & En & Es & S & Gl).
    assert (Ad : adj_of (graph g) u = done) by (unfold adj_of; now rewrite D).
    rewrite Ad in Es.
    assert (Nv : ~ In v (dict_keys done)).
    { rewrite dict_keys_app in N. simpl in N. apply NoDup_remove_2 in N.
      intro I. apply N. apply in_or_app. now left. }
    rewrite (dict_set_new _ _ _ Nv) in Es.
    assert (St : forall more,
               load_edges (edge_row_entry u (v, [("weight", w)]) :: more) g =
               load_edges more g1).
    { intro more. cbn [load_edges].
      change (getitem (edge_row_entry u (v, [("weight", w)])) "from")
        with (Return (of_key u)).
      change (getitem (edge_row_entry u (v, [("weight", w)])) "to")
        with (Return (of_key v)).
      change (getitem (edge_row_entry u (v, [("weight", w)])) "weight")
        with (Return w).
      cbn [bind]. unfold call. rewrite A. reflexivity. }
    cbn [map]. rewrite St.
    destruct (IH (done ++ [(v, [("weight", w)])]) g1 W1) as
      (g' & L & W' & En' & Es' & S' & Gl').
    + unfold nx.nodes. now rewrite En.
    + rewrite Es. apply dict_get_set_same.
    + now rewrite <- app_assoc.
    + eapply Forall_impl; [|exact F']. intros nbr [I O]. split; [|exact O].
      unfold nx.nodes. now rewrite En.
    + exists g'. split; [exact L|]. split; [exact W'|].
      rewrite En', Es', Es, dict_set_twice, <- app_assoc, S', Gl'.
      repeat split; assumption.
Qed.

Lemma load_edges_app (a b : list pyval) (g : Graph) :
  load_edges (a ++ b) g = bind (load_edges a g) (load_edges b).
Proof.
  revert g. induction a as [|x a IH]; intro g; simpl; [reflexivity|].
  destruct (getitem x "from") as [e|f]; [reflexivity|]. simpl.
  destruct (getitem x "to") as [e|t]; [reflexivity|]. simpl.
  destruct (getitem x "weight") as [e|w]; [reflexivity|]. simpl.
  destruct (call (add_edge f t w g)) as [e|g1]; [reflexivity|]. simpl.
  apply IH.
Qed.

Lemma load_edges_rows (rest : dict key (dict key attrs)) :
  forall (done : dict key (dict key attrs)) (g : Graph),
    wf g ->
    nx._succ (graph g) = done ++ bare (dict_keys rest) ->
    NoDup (dict_keys (done ++ rest)) ->
    Forall (fun entry => adj_ok (nx.nodes (graph g)) (snd entry)) rest ->
    exists g',
      load_edges
        (flat_map (fun entry => map (edge_row_entry (fst entry)) (snd entry))
                  rest) g = Return g' /\
      wf g' /\
      nx._node (graph g') = nx._node (graph g) /\
      nx._succ (graph g') = done ++ rest /\
      start_node g' = start_node g /\
      goal_node g' = goal_node g.
Proof.
  induction rest as [|[u nbrs] rest IH]; intros done g W E N F.
  - exists g. simpl in *. rewrite app_nil_r in *. auto 10.
  - inversion F as [|? ? [Nn Fn] F']; subst. simpl in Nn, Fn.
    cbn [flat_map fst snd]. rewrite load_edges_app.
    assert (Nu : ~ In u (dict_keys done)).
    { rewrite dict_keys_app in N. simpl in N. apply NoDup_remove_2 in N.
      intro I. apply N. apply in_or_app. now left. }
    simpl in E.
    assert (Iu : In u (nx.nodes (graph g))).
    { unfold nx.nodes. rewrite <- (wf_keys_succ _ (proj1 W)), E.
      rewrite dict_keys_app. apply in_or_app. right. now left. }
    destruct (load_edges_row u nbrs [] g W Iu) as
      (g1 & L1 & W1 & En1 & Es1 & S1 & G1).
    + rewrite E. now apply dict_get_middle.
    + exact Nn.
    + exact Fn.
    + rewrite L1. cbn [bind]. rewrite E in Es1. simpl in Es1.
      rewrite (dict_set_middle _ _ _ _ _ Nu) in Es1.
      destruct (IH (done ++ [(u, nbrs)]) g1 W1) as
        (g' & L & W' & En & Es & S & Gl).
      * now rewrite Es1, <- app_assoc.
      * now rewrite <- app_assoc.
      * unfold nx.nodes. rewrite En1. exact F'.
      * exists g'. split; [exact L|]. split; [exact W'|].
        rewrite En, Es, En1, <- app_assoc, S, Gl. repeat split; assumption.
Qed.

(** *** The designations, and the whole document *)

Lemma restorable_not_none (d : key) :
  restorable d -> truthy (of_key d) = false -> d = KNone.
Proof. intros [->|T] F; [reflexivity|congruence]. Qed.

Lemma truthy_not_none (d : key) : truthy (of_key d) = true -> d <> KNone.
Proof. intros T ->. discriminate. Qed.

Lemma load_document (g : Graph) :
  valid g -> restorable (start_node g) -> restorable (goal_node g) ->
  exists g',
    load_from_file (document g) = Return g' /\
    wf g' /\
    nx._node (graph g') = nx._node (graph g) /\
    nx._succ (graph g') = nx._succ (graph g) /\
    start_node g' = start_node g /\
    goal_node g' = goal_node g.
Proof.
  intros [[W [Ds Dg]] R] Rs Rg. unfold load_from_file.
  change (getitem (document g) "nodes")
    with (Return (PList (map (node_entry (graph g)) (nx.nodes (graph g))))).
  cbn [bind iter]. rewrite (document_nodes _ W).
  destruct (load_nodes_rows (nx._node (graph g)) init wf_init R)
    as (g1 & L1 & W1 & En1 & Es1 & S1 & G1).
  { apply (wf_nodup _ W). }
  { apply (wf_not_none _ W). }
  rewrite L1. cbn [bind]. simpl in En1, Es1, S1, G1.
  change (getitem (document g) "edges")
    with (Return (PList (map (edge_entry (graph g)) (nx.edges (graph g))))).
  cbn [bind iter]. rewrite (document_edges _ W).
  destruct (load_edges_rows (nx._succ (graph g)) [] g1 W1)
    as (g2 & L2 & W2 & En2 & Es2 & S2 & G2).
  { rewrite Es1. simpl. now rewrite (wf_keys_succ _ W). }
  { simpl. rewrite (wf_keys_succ _ W). apply (wf_nodup _ W). }
  { unfold nx.nodes. rewrite En1. apply (wf_adj _ W). }
  rewrite L2. cbn [bind]. simpl in Es2.
  rewrite En1 in En2. rewrite S1 in S2. rewrite G1 in G2.
  change (get (document g) "start_node")
    with (Return (of_key (start_node g))).
  change (get (document g) "goal_node") with (Return (of_key (goal_node g))).
  change (getitem (document g) "start_node")
    with (Return (of_key (start_node g))).
  change (getitem (document g) "goal_node")
    with (Return (of_key (goal_node g))).
  cbn [bind].
  assert (St : exists g3,
             (if truthy (of_key (start_node g))
              then call (set_start_node (of_key (start_node g)) g2)
              else Return g2) = Return g3 /\
             graph g3 = graph g2 /\
             start_node g3 = start_node g /\
             goal_node g3 = goal_node g2).
  { destruct (truthy (of_key (start_node g))) eqn:T.
    - unfold call, set_start_node. rewrite hash_of_key.
      assert (M : dict_mem (nx._node (graph g2)) (start_node g) = true).
      { rewrite En2. apply dict_mem_in. apply Ds.
        now apply truthy_not_none. }
      rewrite M. simpl. eexists. split; [reflexivity|]. simpl. auto.
    - exists g2. rewrite (restorable_not_none _ Rs T). auto. }
  destruct St as (g3 & -> & Eg3 & Es3 & Gl3). cbn [bind].
  assert (Gt : exists g4,
             (if truthy (of_key (goal_node g))
              then call (set_goal_node (of_key (goal_node g)) g3)
              else Return g3) = Return g4 /\
             graph g4 = graph g3 /\
             start_node g4 = start_node g3 /\
             goal_node g4 = goal_node g).
  { destruct (truthy (of_key (goal_node g))) eqn:T.
    - unfold call, set_goal_node. rewrite hash_of_key.
      assert (M : dict_mem (nx._node (graph g3)) (goal_node g) = true).
      { rewrite Eg3, En2. apply dict_mem_in. apply Dg.
        now apply truthy_not_none. }
      rewrite M. simpl. eexists. split; [reflexivity|]. simpl. auto.
    - exists g3. rewrite (restorable_not_none _ Rg T).
      rewrite Gl3, G2. auto. }
  destruct Gt as (g4 & -> & Eg4 & Es4 & Gl4). cbn [bind].
  exists g4. split; [reflexivity|].
  assert (Wg : wf_digraph (graph g4)).
  { rewrite Eg4, Eg3. apply (proj1 W2). }
  rewrite Eg4, Eg3, En2, Es2, Es4, Es3, Gl4.
  split; [|auto].
  split; [exact Wg|]. split; intro N.
  - rewrite Es4, Es3 in *. unfold nx.nodes. rewrite Eg4, Eg3, En2.
    now apply Ds.
  - rewrite Gl4 in *. unfold nx.nodes. rewrite Eg4, Eg3, En2. now apply Dg.
Qed.

(** The round trip of C1 holds on every valid graph whose start and goal
    are unset or named by a value that is true as a condition (a non-empty
    string, a non-zero integer): loading what was saved gives the same nodes
    with the same heuristics and the same edges with the same weights, in
    the same order, and the same designations. *)
Theorem save_then_load_restorable (g : Graph) :
  valid g -> restorable (start_node g) -> restorable (goal_node g) ->
  exists g',
    save_then_load g = Return g' /\
    nx._node (graph g') = nx._node (graph g) /\
    nx._succ (graph g') = nx._succ (graph g) /\
    start_node g' = start_node g /\
    goal_node g' = goal_node g /\
    same_graph g' g.
Proof.
  intros V Rs Rg. unfold save_then_load. rewrite (save_to_file_valid g V).
  cbn [bind].
  destruct (load_document g V Rs Rg) as (g' & L & _ & En & Es & S & Gl).
  exists g'. split; [exact L|]. unfold same_graph. rewrite En, Es.
  repeat split; auto.
Qed.

Lemma save_then_load_restorable_witness :
  exists g',
    save_then_load scenario = Return g' /\
    nx._node (graph g') = nx._node (graph scenario) /\
    nx._succ (graph g') = nx._succ (graph scenario) /\
    start_node g' = start_node scenario /\
    goal_node g' = goal_node scenario /\
    same_graph g' scenario.
Proof.
  apply (save_then_load_restorable scenario).
  - split; [apply run_wf, wf_init|].
    repeat constructor; eexists; reflexivity.
  - right. reflexivity.
  - right. reflexivity.
Defined.

(** Every graph that [load_from_file] returns can be built by calls. *)
Lemma load_from_file_reachable (graph_data : pyval) (g : Graph) :
  load_from_file graph_data = Return g -> reachable g.
Proof.
  apply (load_from_file_kept reachable).
  - now exists [].
  - intros o g0 [ops ->]. exists (ops ++ [o]). now rewrite run_app.
Qed.

(* ================================================================= *)
(** ** The search returns *)

Lemma take_first_length (h : Z) (frontier rest : list entry) (e : entry) :
  take_first h frontier = Some (e, rest) ->
  List.length frontier = S (List.length rest).
Proof.
  revert rest. induction frontier as [|x frontier IH]; intros rest; simpl;
    [discriminate|].
  destruct (Z.eqb (fst x) h).
  - now intros [= _ <-].
  - destruct (take_first h frontier) as [[m r]|]; [|discriminate].
    intros [= -> <-]. simpl. f_equal. now apply IH.
Qed.

Lemma pop_length (frontier rest : list entry) (e : entry) :
  pop frontier = Some (e, rest) ->
  List.length frontier = S (List.length rest).
Proof.
  unfold pop. destruct frontier as [|x frontier]; [discriminate|].
  apply take_first_length.
Qed.

Lemma get_heuristic_returns_node (n : key) (g : Graph) (h : pyval) :
  get_heuristic (of_key n) g = Return h -> In n (nx.nodes (graph g)).
Proof.
  unfold get_heuristic, nx.nodes_getitem. rewrite hash_of_key. simpl.
  destruct (dict_get (nx._node (graph g)) n) as [a|] eqn:E; [|discriminate].
  intros _. apply dict_get_some_in in E. unfold nx.nodes, dict_keys.
  change n with (fst (n, a)). now apply in_map.
Qed.

Lemma filter_shrinks {A : Type} (f f' : A -> bool) (l : list A) (n : A) :
  (forall x, f' x = true -> f x = true) ->
  In n l -> f n = true -> f' n = false ->
  (List.length (filter f' l) < List.length (filter f l))%nat.
Proof.
  intros M I Fn Fn'.
  assert (Le : forall l0, (List.length (filter f' l0)
                           <= List.length (filter f l0))%nat).
  { induction l0 as [|x l0 IH]; simpl; [lia|].
    destruct (f' x) eqn:E'.
    - rewrite (M x E'). simpl. lia.
    - destruct (f x); simpl; lia. }
  induction l as [|x l IH]; [contradiction|]. simpl.
  destruct I as [->|I].
  - rewrite Fn, Fn'. simpl. specialize (Le l). lia.
  - specialize (IH I). destruct (f' x) eqn:E'.
    + rewrite (M x E'). simpl. lia.
    + destruct (f x); simpl; lia.
Qed.

Lemma record_shrinks (g : Graph) (predecessor : dict key key) (n cur : key) :
  In n (nx.nodes (graph g)) -> dict_mem predecessor n = false ->
  (List.length (unrecorded g (dict_set predecessor n cur))
   < List.length (unrecorded g predecessor))%nat.
Proof.
  intros I M. unfold unrecorded. apply (filter_shrinks _ _ _ n).
  - intros x Hx. apply negb_true_iff in Hx. apply negb_true_iff.
    apply dict_mem_not_in in Hx. apply dict_mem_not_in. intro J.
    apply Hx. now apply dict_keys_set_incl.
  - exact I.
  - now rewrite M.
  - apply negb_false_iff, dict_mem_in, dict_keys_set_in.
Qed.

Lemma push_neighbors_measure (g : Graph) (cur : key) (nbrs seen : list key) :
  forall (predecessor : dict key key) (frontier : list entry)
         (predecessor' : dict key key) (frontier' : list entry),
    push_neighbors g cur nbrs seen predecessor frontier =
      Return (predecessor', frontier') ->
    (List.length frontier' + List.length (unrecorded g predecessor')
     <= List.length frontier + List.length (unrecorded g predecessor))%nat.
Proof.
  induction nbrs as [|n nbrs IH]; intros p f p' f'; simpl.
  - intros [= <- <-]. lia.
  - destruct (existsb (keq n) seen); [apply IH|].
    destruct (dict_mem p n) eqn:M; [apply IH|].
    destruct (get_heuristic (of_key n) g) as [e|hv] eqn:H; [discriminate|].
    simpl. destruct (as_number hv) as [e|h]; [discriminate|]. simpl.
    intro P. apply IH in P. rewrite length_app in P. simpl in P.
    pose proof (record_shrinks g p n cur
                  (get_heuristic_returns_node n g hv H) M).
    lia.
Qed.

Lemma search_loop_returns (g : Graph) (start goal : key) (fuel : nat) :
  forall (frontier : list entry) (seen : list key)
         (predecessor : dict key key) (order : list key)
         (steps : list SearchStep),
    (List.length frontier + List.length (unrecorded g predecessor)
     < fuel)%nat ->
    search_loop fuel g start goal frontier seen predecessor order steps
    <> None.
Proof.
  induction fuel as [|fuel IH]; intros frontier seen p order steps Lt;
    [lia|].
  cbn [search_loop].
  destruct (pop frontier) as [[[h cur] frontier']|] eqn:P; [|discriminate].
  apply pop_length in P.
  destruct (existsb (keq cur) seen).
  - apply IH. lia.
  - destruct (keq cur goal); [discriminate|].
    destruct (get_neighbors (of_key cur) g) as [e|nbrs]; [discriminate|].
    destruct (push_neighbors g cur nbrs (seen ++ [cur]) p frontier')
      as [e|[p' frontier'']] eqn:N; [discriminate|].
    apply push_neighbors_measure in N. apply IH. lia.
Qed.

(** The fuel of [search] is enough: on every graph the search comes back
    with a result or an exception. *)
Theorem search_returns (g : Graph) : exists r, search g = Some r.
Proof.
  assert (L : forall (e : entry) fuel,
             fuel = (2 + List.length (nx.nodes (graph g)))%nat ->
             (List.length [e] + List.length (unrecorded g []) < fuel)%nat).
  { intros e fuel ->. unfold unrecorded.
    pose proof (filter_length_le
                  (fun n => negb (dict_mem (@nil (key * key)) n))
                  (nx.nodes (graph g))) as F.
    simpl. simpl in F. lia. }
  assert (N : search g <> None).
  { unfold search.
    destruct (start_node g) as [|z|s] eqn:S; [discriminate| |];
      (destruct (goal_node g) as [|z'|s'] eqn:G; [discriminate| |]);
      (destruct (bind _ _); [discriminate|]);
      apply search_loop_returns; now apply L. }
  destruct (search g) as [r|]; [now exists r|contradiction].
Qed.

(* ================================================================= *)
(** ** Runs on small graphs *)

Example get_heuristic_last_write :
  get_heuristic (PStr "A")
    (run [OpAddNode (PStr "A") (PInt 5); OpAddNode (PStr "A") (PInt 9)] init)
  = Return (PInt 9).
Proof. reflexivity. Qed.

Example get_neighbors_first_place :
  get_neighbors (PStr "A")
    (run [OpAddEdge (PStr "A") (PStr "B") (PInt 1);
          OpAddEdge (PStr "A") (PStr "C") (PInt 2);
          OpAddEdge (PStr "A") (PStr "B") (PInt 3)] init)
  = Return [KStr "B"; KStr "C"].
Proof. reflexivity. Qed.

Example get_edge_weight_unknown :
  get_edge_weight (PStr "A") (PStr "C")
    (run [OpAddEdge (PStr "A") (PStr "B") (PInt 1)] init)
  = Raise (KeyError (PStr "C")).
Proof. reflexivity. Qed.

Example add_edge_none_adds_first_endpoint :
  snd (add_edge (PStr "A") PNone (PInt 1) init) = Raise ValueError /\
  nx.nodes (graph (fst (add_edge (PStr "A") PNone (PInt 1) init))) =
  [KStr "A"].
Proof. split; reflexivity. Qed.

Example save_scenario :
  save_to_file scenario =
  Return
    (PDict
       [("nodes",
         PList [PDict [("id", PStr "A"); ("heuristic", PInt 5)];
                PDict [("id", PStr "B"); ("heuristic", PInt 3)];
                PDict [("id", PStr "C"); ("heuristic", PInt 0)]]);
        ("edges",
         PList [PDict [("from", PStr "A"); ("to", PStr "B");
                       ("weight", PInt 1)];
                PDict [("from", PStr "A"); ("to", PStr "C");
                       ("weight", PInt 4)];
                PDict [("from", PStr "B"); ("to", PStr "C");
                       ("weight", PInt 2)]]);
        ("start_node", PStr "A");
        ("goal_node", PStr "C")]).
Proof. reflexivity. Qed.

Example load_edge_before_node :
  exists g,
    load_from_file
      (PDict [("nodes", PList []);
              ("edges", PList [PDict [("from", PStr "A"); ("to", PStr "B");
                                      ("weight", PInt 1)]]);
              ("start_node", PStr "B");
              ("goal_node", PNone)]) = Return g /\
    nx.nodes (graph g) = [KStr "A"; KStr "B"] /\
    start_node g = KStr "B" /\
    raised (save_to_file g).
Proof.
  eexists. split; [reflexivity|]. repeat split. eexists. reflexivity.
Qed.

Example load_unknown_start :
  load_from_file
    (PDict [("nodes", PList [PDict [("id", PStr "A"); ("heuristic", PInt 1)]]);
            ("edges", PList []);
            ("start_node", PStr "Z");
            ("goal_node", PNone)]) = Raise ValueError.
Proof. reflexivity. Qed.

Example search_goal_unreachable :
  search (run [OpAddNode (PStr "A") (PInt 2);
               OpAddNode (PStr "B") (PInt 1);
               OpAddNode (PStr "C") (PInt 0);
               OpAddEdge (PStr "A") (PStr "B") (PInt 1);
               OpAddEdge (PStr "B") (PStr "A") (PInt 1);
               OpSetStart (PStr "A");
               OpSetGoal (PStr "C")] init)
  = Some (Return
            (None, [KStr "A"; KStr "B"],
             [{| current := KStr "A"; visited := [KStr "A"];
                 path_so_far := [KStr "A"] |};
              {| current := KStr "B"; visited := [KStr "A"; KStr "B"];
                 path_so_far := [KStr "A"; KStr "B"] |}])).
Proof. vm_compute. reflexivity. Qed.

Example search_ties_by_push_order :
  search (run [OpAddNode (PStr "S") (PInt 3);
               OpAddNode (PStr "X") (PInt 1);
               OpAddNode (PStr "Y") (PInt 1);
               OpAddNode (PStr "G") (PInt 0);
               OpAddEdge (PStr "S") (PStr "X") (PInt 1);
               OpAddEdge (PStr "S") (PStr "Y") (PInt 1);
               OpAddEdge (PStr "Y") (PStr "G") (PInt 1);
               OpAddEdge (PStr "X") (PStr "G") (PInt 1);
               OpSetStart (PStr "S");
               OpSetGoal (PStr "G")] init)
  = Some (Return
            (Some [KStr "S"; KStr "X"; KStr "G"],
             [KStr "S"; KStr "X"; KStr "G"],
             [{| current := KStr "S"; visited := [KStr "S"];
                 path_so_far := [KStr "S"] |};
              {| current := KStr "X"; visited := [KStr "S"; KStr "X"];
                 path_so_far := [KStr "S"; KStr "X"] |};
              {| current := KStr "G";
                 visited := [KStr "S"; KStr "X"; KStr "G"];
                 path_so_far := [KStr "S"; KStr "X"; KStr "G"] |}])).
Proof. vm_compute. reflexivity. Qed.

Example search_not_configured :
  search (run [OpAddNode (PStr "A") (PInt 2); OpSetStart (PStr "A")] init)
  = Some (Raise SearchNotConfiguredError).
Proof. reflexivity. Qed.

(* ================================================================= *)
(** ** [get_edge_weight] over a history of calls *)

Lemma node_added_adj (G : nx.DiGraph) (k : key) (h : pyval) (x : key) :
  wf_digraph G -> adj_of (node_added G k h) x = adj_of G x.
Proof.
  intro W. unfold adj_of, node_added. cbn [nx._succ].
  destruct (dict_mem (nx._node G) k) eqn:M; [reflexivity|].
  destruct (key_eq_dec k x) as [->|N].
  - rewrite dict_get_set_same.
    rewrite <- succ_mem_node in M by assumption. unfold dict_mem in M.
    now destruct (dict_get (nx._succ G) x).
  - now rewrite dict_get_set_other.
Qed.

Lemma edge_added_adj_other (G : nx.DiGraph) (u v : key) (w : pyval) (x : key) :
  wf_digraph G -> u <> KNone -> x <> u ->
  adj_of (edge_added G u v w) x = adj_of G x.
Proof.
  intros W Nu N. unfold adj_of at 1, edge_added. cbn [nx._succ].
  rewrite dict_get_set_other by congruence.
  change (adj_of (with_endpoint (with_endpoint G u) v) x = adj_of G x).
  rewrite with_endpoint_adj by now apply with_endpoint_wf.
  now apply with_endpoint_adj.
Qed.

Lemma edge_added_adj_same (G : nx.DiGraph) (u v : key) (w : pyval) :
  wf_digraph G -> u <> KNone ->
  adj_of (edge_added G u v w) u = dict_set (adj_of G u) v [("weight", w)].
Proof.
  intros W Nu. rewrite edge_added_adj.
  rewrite with_endpoint_adj by now apply with_endpoint_wf.
  now rewrite with_endpoint_adj.
Qed.

Lemma edge_call_weight_some (o : op) (u v : key) (w : pyval) :
  edge_call_weight o = Some (u, v, w) ->
  exists a b, o = OpAddEdge a b w /\ edge_call o = Some (u, v).
Proof.
  destruct o as [n h|a b w'|n|n]; try discriminate. unfold edge_call_weight.
  destruct (edge_call (OpAddEdge a b w')) as [[u' v']|]; [|discriminate].
  intros [= -> -> ->]. now exists a, b.
Qed.

(** One call changes the weight on record as [weight_after] says. *)
Lemma exec_weight (o : op) (self : Graph) (e : key * key) :
  wf self ->
  weight_of (graph (fst (exec o self))) e =
  weight_after o e (weight_of (graph self) e).
Proof.
  intro W. pose proof (proj1 W) as WG. unfold weight_after.
  destruct (edge_call_weight o) as [[[u v] w]|] eqn:E.
  - destruct (edge_call_weight_some o u v w E) as (a & b & -> & C).
    destruct (edge_call_some a b w u v C) as (Hu & Nu & Hv & Nv).
    cbn [exec]. rewrite (add_edge_ok a b w u v self W Hu Nu Hv Nv).
    cbn [fst with_graph graph]. unfold weight_of.
    destruct (keq (fst e) u) eqn:Qu; cbn [andb].
    + apply keq_eq in Qu. rewrite Qu.
      rewrite (edge_added_adj_same _ u v w WG Nu).
      destruct (keq (snd e) v) eqn:Qv.
      * apply keq_eq in Qv. rewrite Qv, dict_get_set_same. reflexivity.
      * apply keq_false in Qv. rewrite dict_get_set_other by congruence.
        reflexivity.
    + apply keq_false in Qu.
      now rewrite (edge_added_adj_other _ u v w (fst e) WG Nu Qu).
  - destruct o as [n h|a b w|n|n]; cbn [exec].
    + unfold weight_of. destruct (hash_cases n) as [(k & Hk & NN)|F].
      * rewrite (add_node_ok n h k self W Hk NN). cbn [fst with_graph graph].
        now rewrite node_added_adj.
      * now rewrite (add_node_failed n h self W F).
    + assert (C : edge_call (OpAddEdge a b w) = None).
      { unfold edge_call_weight in E.
        now destruct (edge_call (OpAddEdge a b w)). }
      unfold weight_of.
      destruct (add_edge_failed a b w self W C) as [-> | (ku & _ & ->)];
        [reflexivity|now rewrite with_endpoint_adj].
    + now rewrite set_start_node_graph.
    + now rewrite set_goal_node_graph.
Qed.

Lemma run_weight (ops : list op) (self : Graph) (e : key * key) :
  wf self ->
  weight_of (graph (run ops self)) e =
  last_weight ops e (weight_of (graph self) e).
Proof.
  revert self. induction ops as [|o ops IH]; intros self W; simpl;
    [reflexivity|].
  rewrite IH by now apply exec_wf. now rewrite exec_weight.
Qed.

Lemma get_edge_weight_of (u v : key) (self : Graph) :
  wf self ->
  get_edge_weight (of_key u) (of_key v) self =
  match weight_of (graph self) (u, v) with
  | Some w => Return w
  | None =>
      Raise (KeyError (if dict_mem (nx._node (graph self)) u
                       then of_key v else of_key u))
  end.
Proof.
  intros [W _]. unfold get_edge_weight, nx.adj_getitem, weight_of, adj_of.
  rewrite !hash_of_key. cbn [bind fst snd].
  rewrite <- (succ_mem_node _ u W). unfold dict_mem.
  destruct (dict_get (nx._succ (graph self)) u) as [nbrs|] eqn:E;
    [|reflexivity].
  cbn [bind]. destruct (dict_get nbrs v) as [d|] eqn:D; [|reflexivity].
  cbn [bind].
  assert (A : dict_get (adj_of (graph self) u) v = Some d)
    by (unfold adj_of; now rewrite E).
  destruct (wf_edge_attrs _ u v d W A) as [w ->]. reflexivity.
Qed.

(** After any history of calls on a fresh graph, [get_edge_weight(u, v)]
    returns the weight given by the last [add_edge(u, v, ...)] call, and
    raises [KeyError] when there was none: with the key [v] when [u] is a
    node, with the key [u] when it is not. *)
Theorem get_edge_weight_history (ops : list op) (u v : key) :
  let self := run ops init in
  get_edge_weight (of_key u) (of_key v) self =
  match last_weight ops (u, v) None with
  | Some w => Return w
  | None =>
      Raise (KeyError (if dict_mem (nx._node (graph self)) u
                       then of_key v else of_key u))
  end.
Proof.
  intro self. pose proof (run_wf ops init wf_init) as W. fold self in W.
  rewrite (get_edge_weight_of u v self W). unfold self.
  now rewrite (run_weight ops init (u, v) wf_init).
Qed.

(* ================================================================= *)
(** ** The shape of every graph *)

Lemma wf_shape (g : Graph) : wf g -> shape_ok g.
Proof.
  intros W. pose proof (proj1 W) as WG. unfold shape_ok.
  split; [apply (wf_nodup _ WG)|]. split; [apply (wf_not_none _ WG)|].
  split; [now apply edges_nodup|]. split.
  - intros u v I. pose proof (edges_inv _ u v WG I) as J.
    assert (Iu : In u (nx.nodes (graph g))).
    { unfold nx.nodes. rewrite <- (wf_keys_succ _ WG).
      apply (edges_sources (nx._succ (graph g)) (u, v) I). }
    split; [exact Iu|].
    destruct (wf_weight_of _ (u, v) WG I) as [w E]. simpl in E. split.
    + destruct (wf_adj_of (graph g) u WG) as [_ F].
      rewrite Forall_forall in F. apply dict_get_some_in in E.
      apply (F _ E).
    + exists w. rewrite (get_edge_weight_of u v g W). unfold weight_of.
      simpl. now rewrite E.
  - intros k I. exists (dict_keys (adj_of (graph g) k)). split.
    + apply (get_neighbors_adj (of_key k) k g W (hash_of_key k) I).
    + intro v. split; [apply edges_in|now apply edges_inv].
Qed.

(** Whatever calls are made on a fresh graph, and whatever document is
    loaded, the graph never holds a node or an edge twice, never holds
    [None] as a node, every edge joins two nodes of the node set and has a
    weight that [get_edge_weight] returns, and [get_neighbors] returns for
    every node exactly the targets of its edges. *)
Theorem graphs_keep_shape :
  (forall ops : list op, shape_ok (run ops init)) /\
  (forall (graph_data : pyval) (g : Graph),
      load_from_file graph_data = Return g -> shape_ok g).
Proof.
  split.
  - intro ops. apply wf_shape, run_wf, wf_init.
  - intros graph_data g L. apply wf_shape.
    now apply (load_from_file_wf graph_data).
Qed.

Lemma graphs_keep_shape_witness :
  shape_ok scenario /\
  exists g,
    load_from_file
      (PDict [("nodes", PList []);
              ("edges", PList [PDict [("from", PStr "A"); ("to", PStr "B");
                                      ("weight", PInt 1)]])]) = Return g /\
    shape_ok g.
Proof.
  destruct graphs_keep_shape as [R L]. split.
  - apply (R [OpAddNode (PStr "A") (PInt 5);
              OpAddNode (PStr "B") (PInt 3);
              OpAddNode (PStr "C") (PInt 0);
              OpAddEdge (PStr "A") (PStr "B") (PInt 1);
              OpAddEdge (PStr "A") (PStr "C") (PInt 4);
              OpAddEdge (PStr "B") (PStr "C") (PInt 2);
              OpSetStart (PStr "A");
              OpSetGoal (PStr "C")]).
  - eexists. split; [vm_compute; reflexivity|].
    refine (L (PDict [("nodes", PList []);
                      ("edges", PList [PDict [("from", PStr "A");
                                              ("to", PStr "B");
                                              ("weight", PInt 1)]])]) _ _).
    vm_compute. reflexivity.
Defined.

(* ================================================================= *)
(** ** What [add_node] changes, and what it leaves *)

Lemma edges_fresh (succ : dict key (dict key attrs)) (k : key) :
  ~ In k (dict_keys succ) ->
  flat_map (fun entry : key * dict key attrs =>
              map (fun nbr : key * attrs => (fst entry, fst nbr)) (snd entry))
           (dict_set succ k []) =
  flat_map (fun entry : key * dict key attrs =>
              map (fun nbr : key * attrs => (fst entry, fst nbr)) (snd entry))
           succ.
Proof.
  intro N. rewrite (dict_set_new _ _ _ N), flat_map_app. simpl.
  now rewrite app_nil_r.
Qed.

Lemma node_added_edges (G : nx.DiGraph) (k : key) (h : pyval) :
  wf_digraph G -> nx.edges (node_added G k h) = nx.edges G.
Proof.
  intro W. unfold nx.edges, node_added. cbn [nx._succ].
  destruct (dict_mem (nx._node G) k) eqn:M; [reflexivity|].
  apply edges_fresh. rewrite (wf_keys_succ _ W). now apply dict_mem_not_in.
Qed.

Lemma with_endpoint_edges (G : nx.DiGraph) (k : key) :
  wf_digraph G -> nx.edges (with_endpoint G k) = nx.edges G.
Proof.
  intro W. unfold nx.edges, with_endpoint.
  destruct (dict_mem (nx._node G) k) eqn:M; [reflexivity|]. cbn [nx._succ].
  apply edges_fresh. rewrite (wf_keys_succ _ W). now apply dict_mem_not_in.
Qed.

Lemma node_added_nodes (G : nx.DiGraph) (k : key) (h : pyval) :
  nx.nodes (node_added G k h) =
  nx.nodes G ++ first_occurrences (nx.nodes G) [k].
Proof.
  unfold nx.nodes, node_added. cbn [nx._node first_occurrences].
  rewrite dict_keys_set, existsb_keq_mem.
  destruct (dict_mem (nx._node G) k); [now rewrite app_nil_r|reflexivity].
Qed.

(** [add_node(node_id, heuristic)] with an identifier always returns.  A
    node that was there keeps its place in the node order, a new one goes
    last; [get_heuristic(node_id)] then returns [heuristic]; every other
    identifier gets from [get_heuristic] what it got before; the edge list
    and the designations are what they were, and so is what
    [get_edge_weight] and [get_neighbors] give for the nodes that were
    there. *)
Theorem add_node_effect (node_id heuristic : pyval) (k : key) (self : Graph) :
  wf self -> hash node_id = Return k -> k <> KNone ->
  let self' := fst (add_node node_id heuristic self) in
  snd (add_node node_id heuristic self) = Return tt /\
  nx.nodes (graph self') = nx.nodes (graph self) ++ unregistered self [k] /\
  get_heuristic node_id self' = Return heuristic /\
  (forall x, x <> k ->
     get_heuristic (of_key x) self' = get_heuristic (of_key x) self) /\
  nx.edges (graph self') = nx.edges (graph self) /\
  (forall u v, In u (nx.nodes (graph self)) ->
     get_edge_weight (of_key u) (of_key v) self' =
     get_edge_weight (of_key u) (of_key v) self) /\
  (forall x, In x (nx.nodes (graph self)) ->
     get_neighbors (of_key x) self' = get_neighbors (of_key x) self) /\
  start_node self' = start_node self /\
  goal_node self' = goal_node self.
Proof.
  intros W Hk NN. pose proof (proj1 W) as WG.
  pose proof (exec_wf (OpAddNode node_id heuristic) self W) as W'.
  cbn [exec] in W'.
  rewrite (add_node_ok node_id heuristic k self W Hk NN) in *.
  cbn [fst snd] in *.
  set (self' := with_graph self (node_added (graph self) k heuristic)) in *.
  assert (Hs : heuristic_of (graph self') k = Some heuristic).
  { unfold self', heuristic_of, node_added. cbn [with_graph graph nx._node].
    now rewrite dict_get_set_same. }
  assert (Ho : forall x, x <> k ->
             heuristic_of (graph self') x = heuristic_of (graph self) x /\
             dict_mem (nx._node (graph self')) x =
             dict_mem (nx._node (graph self)) x).
  { intros x N. unfold self', heuristic_of, node_added, dict_mem.
    cbn [with_graph graph nx._node].
    rewrite dict_get_set_other by congruence. now split. }
  assert (Aj : forall x, adj_of (graph self') x = adj_of (graph self) x).
  { intro x. unfold self'. cbn [with_graph graph]. now apply node_added_adj. }
  split; [reflexivity|]. split; [apply node_added_nodes|]. split; [|split].
  - rewrite (hash_inv node_id k Hk), get_heuristic_of. now rewrite Hs.
  - intros x N. rewrite !get_heuristic_of.
    destruct (Ho x N) as [-> ->]. reflexivity.
  - split; [now apply node_added_edges|]. split; [|split; [|now split]].
    + intros u v I. rewrite !get_edge_weight_of by assumption.
      unfold weight_of. cbn [fst snd]. rewrite Aj.
      apply dict_mem_in in I. rewrite I.
      replace (dict_mem (nx._node (graph self')) u) with true; [reflexivity|].
      symmetry. apply dict_mem_in. apply dict_mem_in in I.
      change (In u (nx.nodes (graph self'))). unfold self'.
      cbn [with_graph graph]. rewrite node_added_nodes.
      apply in_or_app. now left.
    + intros x I. rewrite (get_neighbors_adj (of_key x) x self W
                             (hash_of_key x) I).
      rewrite (get_neighbors_adj (of_key x) x self' W' (hash_of_key x)).
      * now rewrite Aj.
      * unfold self'. cbn [with_graph graph]. rewrite node_added_nodes.
        apply in_or_app. now left.
Qed.

Lemma add_node_effect_witness :
  let self' := fst (add_node (PStr "B") (PInt 8) scenario) in
  snd (add_node (PStr "B") (PInt 8) scenario) = Return tt /\
  nx.nodes (graph self') =
    nx.nodes (graph scenario) ++ unregistered scenario [KStr "B"] /\
  get_heuristic (PStr "B") self' = Return (PInt 8) /\
  (forall x, x <> KStr "B" ->
     get_heuristic (of_key x) self' = get_heuristic (of_key x) scenario) /\
  nx.edges (graph self') = nx.edges (graph scenario) /\
  (forall u v, In u (nx.nodes (graph scenario)) ->
     get_edge_weight (of_key u) (of_key v) self' =
     get_edge_weight (of_key u) (of_key v) scenario) /\
  (forall x, In x (nx.nodes (graph scenario)) ->
     get_neighbors (of_key x) self' = get_neighbors (of_key x) scenario) /\
  start_node self' = start_node scenario /\
  goal_node self' = goal_node scenario.
Proof.
  apply (add_node_effect (PStr "B") (PInt 8) (KStr "B") scenario).
  - apply run_wf, wf_init.
  - reflexivity.
  - discriminate.
Defined.

(* ================================================================= *)
(** ** Calls with a value that cannot name a node *)

Lemma rejected_cases (v : pyval) (e : exn) :
  rejected v = Some e ->
  (hash v = Raise TypeError \/ hash v = Return KNone) /\
  e = match hash v with Raise e' => e' | Return _ => ValueError end.
Proof.
  unfold rejected. destruct v; simpl; intros [= <-]; auto.
Qed.

Lemma with_graph_same (self : Graph) : with_graph self (graph self) = self.
Proof. now destruct self. Qed.

(** A call with [None] or with an unhashable value where a node is expected
    raises ([ValueError], [TypeError]).  [add_node], and [add_edge] when its
    first endpoint is the rejected one, leave the graph as it was.
    [add_edge] with a good first endpoint and a rejected second one raises
    after it has added the first endpoint: a first endpoint that was not a
    node is now the last node, without a heuristic; no edge was added. *)
Theorem calls_with_rejected_values (self : Graph) :
  wf self ->
  (forall n h e, rejected n = Some e -> add_node n h self = (self, Raise e)) /\
  (forall u v w e,
      rejected u = Some e -> add_edge u v w self = (self, Raise e)) /\
  (forall u v w ku e,
      hash u = Return ku -> ku <> KNone -> rejected v = Some e ->
      let self' := fst (add_edge u v w self) in
      snd (add_edge u v w self) = Raise e /\
      nx.nodes (graph self') =
        nx.nodes (graph self) ++ unregistered self [ku] /\
      (~ In ku (nx.nodes (graph self)) ->
       get_heuristic u self' = Raise (KeyError (PStr "heuristic"))) /\
      nx.edges (graph self') = nx.edges (graph self) /\
      start_node self' = start_node self /\
      goal_node self' = goal_node self).
Proof.
  intros W. pose proof (proj1 W) as WG. split; [|split].
  - intros n h e R. destruct (rejected_cases n e R) as [F ->].
    unfold add_node. rewrite (nx_add_node_fails n _ _ WG F).
    now rewrite with_graph_same.
  - intros u v w e R. destruct (rejected_cases u e R) as [F ->].
    unfold add_edge, nx.add_edge. rewrite (ensure_node_fails u _ WG F).
    now rewrite with_graph_same.
  - intros u v w ku e Hu Nu R. destruct (rejected_cases v e R) as [F ->].
    unfold add_edge, nx.add_edge.
    rewrite (ensure_node_wf u ku _ WG Hu Nu).
    rewrite (ensure_node_fails v _ (with_endpoint_wf _ ku WG Nu) F).
    cbn [fst snd with_graph graph start_node goal_node].
    split; [reflexivity|]. split; [apply with_endpoint_nodes|].
    split; [|split; [now apply with_endpoint_edges|now split]].
    intro N. rewrite (hash_inv u ku Hu), get_heuristic_of.
    unfold with_graph. cbn [graph]. rewrite with_endpoint_heuristic.
    assert (H0 : heuristic_of (graph self) ku = None).
    { unfold heuristic_of. apply dict_get_none in N. now rewrite N. }
    rewrite H0.
    replace (dict_mem (nx._node (with_endpoint (graph self) ku)) ku)
      with true; [reflexivity|].
    symmetry. apply dict_mem_in, with_endpoint_in.
Qed.

Lemma calls_with_rejected_values_witness :
  add_node PNone (PInt 1) scenario = (scenario, Raise ValueError) /\
  add_edge (PList []) (PStr "A") (PInt 1) scenario =
    (scenario, Raise TypeError) /\
  (let self' := fst (add_edge (PStr "D") PNone (PInt 1) scenario) in
   snd (add_edge (PStr "D") PNone (PInt 1) scenario) = Raise ValueError /\
   nx.nodes (graph self') =
     nx.nodes (graph scenario) ++ unregistered scenario [KStr "D"] /\
   (~ In (KStr "D") (nx.nodes (graph scenario)) ->
    get_heuristic (PStr "D") self' = Raise (KeyError (PStr "heuristic"))) /\
   nx.edges (graph self') = nx.edges (graph scenario) /\
   start_node self' = start_node scenario /\
   goal_node self' = goal_node scenario).
Proof.
  destruct (calls_with_rejected_values scenario (run_wf _ init wf_init))
    as (A & B & C).
  split; [|split].
  - apply A. reflexivity.
  - apply B. reflexivity.
  - apply (C (PStr "D") PNone (PInt 1) (KStr "D") ValueError);
      [reflexivity|discriminate|reflexivity].
Defined.

(* ================================================================= *)
(** ** Saving and loading any valid graph *)










(* ================================================================= *)
(** ** The documents that load, and what they load to *)

Lemma call_add_node_inv (id h : pyval) (g g1 : Graph) :
  wf g -> call (add_node id h g) = Return g1 ->
  exists k, hash id = Return k /\ k <> KNone /\
            g1 = with_graph g (node_added (graph g) k h).
Proof.
  intros W C. destruct (hash_cases id) as [(k & Hk & NN)|F].
  - exists k. rewrite (add_node_ok id h k g W Hk NN) in C.
    unfold call in C. simpl in C. injection C as <-. auto.
  - exfalso. unfold call, add_node in C.
    rewrite (nx_add_node_fails id _ _ (proj1 W) F) in C. discriminate.
Qed.

Lemma call_add_edge_inv (f t w : pyval) (g g1 : Graph) :
  wf g -> call (add_edge f t w g) = Return g1 ->
  exists kf kt, hash f = Return kf /\ kf <> KNone /\
                hash t = Return kt /\ kt <> KNone /\
                g1 = with_graph g (edge_added (graph g) kf kt w).
Proof.
  intros W C. destruct (hash_cases f) as [(kf & Hf & Nf)|Ff].
  - destruct (hash_cases t) as [(kt & Ht & Nt)|Ft].
    + exists kf, kt. rewrite (add_edge_ok f t w kf kt g W Hf Nf Ht Nt) in C.
      unfold call in C. simpl in C. injection C as <-. auto 10.
    + exfalso. unfold call, add_edge, nx.add_edge in C.
      rewrite (ensure_node_wf f kf _ (proj1 W) Hf Nf) in C.
      rewrite (ensure_node_fails t _
                 (with_endpoint_wf _ kf (proj1 W) Nf) Ft) in C.
      discriminate.
  - exfalso. unfold call, add_edge, nx.add_edge in C.
    rewrite (ensure_node_fails f _ (proj1 W) Ff) in C. discriminate.
Qed.

Lemma load_nodes_inv (items : list pyval) :
  forall g g', wf g -> load_nodes items g = Return g' ->
  Forall node_item_ok items /\
  wf g' /\
  nx.nodes (graph g') =
    nx.nodes (graph g) ++
    first_occurrences (nx.nodes (graph g))
                      (flat_map (fun item => item_key item "id") items) /\
  start_node g' = start_node g /\
  goal_node g' = goal_node g.
Proof.
  induction items as [|x items IH]; intros g g' W L.
  - injection L as <-. simpl. rewrite app_nil_r. auto.
  - cbn [load_nodes] in L.
    destruct (getitem x "id") as [e|id] eqn:Gi; [discriminate|].
    cbn [bind] in L.
    destruct (getitem x "heuristic") as [e|h] eqn:Gh; [discriminate|].
    cbn [bind] in L.
    destruct (call (add_node id h g)) as [e|g1] eqn:C; [discriminate|].
    cbn [bind] in L.
    destruct (call_add_node_inv id h g g1 W C) as (k & Hk & NN & E1).
    assert (W1 : wf g1).
    { pose proof (exec_wf (OpAddNode id h) g W) as X. cbn [exec] in X.
      now rewrite (add_node_ok id h k g W Hk NN) in X; subst g1. }
    destruct (IH g1 g' W1 L) as (F & W' & N' & S' & G').
    assert (K : item_key x "id" = [k]).
    { unfold item_key. rewrite Gi. cbn [bind]. now rewrite Hk. }
    split; [|split; [exact W'|split]].
    + constructor; [|exact F]. now exists id, h, k.
    + cbn [flat_map]. rewrite K. cbn [app].
      rewrite (first_occurrences_cons _ k), N'. subst g1.
      cbn [with_graph graph]. rewrite node_added_nodes.
      now rewrite app_assoc.
    + subst g1. now rewrite S', G'.
Qed.

Lemma load_nodes_ok (items : list pyval) :
  forall g, wf g -> Forall node_item_ok items ->
  exists g', load_nodes items g = Return g'.
Proof.
  induction items as [|x items IH]; intros g W F.
  - now exists g.
  - inversion F as [|? ? (id & h & k & Gi & Gh & Hk & NN) F']; subst.
    cbn [load_nodes]. rewrite Gi, Gh. cbn [bind]. unfold call.
    rewrite (add_node_ok id h k g W Hk NN). cbn [fst snd bind].
    apply IH; [|exact F'].
    pose proof (exec_wf (OpAddNode id h) g W) as X. cbn [exec] in X.
    now rewrite (add_node_ok id h k g W Hk NN) in X.
Qed.

Lemma load_edges_inv (items : list pyval) :
  forall g g', wf g -> load_edges items g = Return g' ->
  Forall edge_item_ok items /\
  wf g' /\
  nx.nodes (graph g') =
    nx.nodes (graph g) ++
    first_occurrences (nx.nodes (graph g))
      (flat_map (fun item => item_key item "from" ++ item_key item "to")
                items) /\
  start_node g' = start_node g /\
  goal_node g' = goal_node g.
Proof.
  induction items as [|x items IH]; intros g g' W L.
  - injection L as <-. simpl. rewrite app_nil_r. auto.
  - cbn [load_edges] in L.
    destruct (getitem x "from") as [e|f] eqn:Gf; [discriminate|].
    cbn [bind] in L.
    destruct (getitem x "to") as [e|t] eqn:Gt; [discriminate|].
    cbn [bind] in L.
    destruct (getitem x "weight") as [e|w] eqn:Gw; [discriminate|].
    cbn [bind] in L.
    destruct (call (add_edge f t w g)) as [e|g1] eqn:C; [discriminate|].
    cbn [bind] in L.
    destruct (call_add_edge_inv f t w g g1 W C)
      as (kf & kt & Hf & Nf & Ht & Nt & E1).
    assert (W1 : wf g1).
    { pose proof (exec_wf (OpAddEdge f t w) g W) as X. cbn [exec] in X.
      now rewrite (add_edge_ok f t w kf kt g W Hf Nf Ht Nt) in X; subst g1. }
    destruct (IH g1 g' W1 L) as (F & W' & N' & S' & G').
    assert (K : item_key x "from" ++ item_key x "to" = [kf; kt]).
    { unfold item_key. rewrite Gf, Gt. cbn [bind]. now rewrite Hf, Ht. }
    split; [|split; [exact W'|split]].
    + constructor; [|exact F]. exists f, t, w, kf, kt. auto 10.
    + cbn [flat_map]. rewrite K.
      rewrite (first_occurrences_app _ [kf; kt]), N'. subst g1.
      cbn [with_graph graph]. rewrite edge_added_nodes.
      now rewrite app_assoc.
    + subst g1. now rewrite S', G'.
Qed.

Lemma load_edges_ok (items : list pyval) :
  forall g, wf g -> Forall edge_item_ok items ->
  exists g', load_edges items g = Return g'.
Proof.
  induction items as [|x items IH]; intros g W F.
  - now exists g.
  - inversion F
      as [|? ? (f & t & w & kf & kt & Gf & Gt & Gw & Hf & Nf & Ht & Nt) F'];
      subst.
    cbn [load_edges]. rewrite Gf, Gt, Gw. cbn [bind]. unfold call.
    rewrite (add_edge_ok f t w kf kt g W Hf Nf Ht Nt). cbn [fst snd bind].
    apply IH; [|exact F'].
    pose proof (exec_wf (OpAddEdge f t w) g W) as X. cbn [exec] in X.
    now rewrite (add_edge_ok f t w kf kt g W Hf Nf Ht Nt) in X.
Qed.

Lemma get_truthy (graph_data : pyval) (name : string) (s : pyval) :
  get graph_data name = Return s -> truthy s = true ->
  getitem graph_data name = Return s.
Proof.
  unfold get, getitem. destruct graph_data; try discriminate.
  destruct (dict_get entries name); [auto|].
  intros [= <-]. discriminate.
Qed.

Lemma getitem_get_any (graph_data : pyval) (name other : string) (x : pyval) :
  getitem graph_data name = Return x ->
  exists s, get graph_data other = Return s.
Proof.
  unfold get, getitem. destruct graph_data; try discriminate. intros _.
  destruct (dict_get entries other); eauto.
Qed.

Lemma call_set_start_node (s : pyval) (g : Graph) :
  (exists k, hash s = Return k /\ In k (nx.nodes (graph g)) /\
             call (set_start_node s g) =
             Return {| graph := graph g; start_node := k;
                       goal_node := goal_node g |}) \/
  (raised (call (set_start_node s g)) /\ ~ present s (graph g)).
Proof.
  unfold call, set_start_node, present, nx.nodes.
  destruct (hash s) as [e|k] eqn:H.
  - right. split; [now exists e|]. intros (k & [=] & _).
  - destruct (dict_mem (nx._node (graph g)) k) eqn:M.
    + left. exists k. apply dict_mem_in in M. auto.
    + right. split; [now exists ValueError|].
      intros (k' & [= <-] & I). apply dict_mem_in in I. congruence.
Qed.

Lemma call_set_goal_node (s : pyval) (g : Graph) :
  (exists k, hash s = Return k /\ In k (nx.nodes (graph g)) /\
             call (set_goal_node s g) =
             Return {| graph := graph g; start_node := start_node g;
                       goal_node := k |}) \/
  (raised (call (set_goal_node s g)) /\ ~ present s (graph g)).
Proof.
  unfold call, set_goal_node, present, nx.nodes.
  destruct (hash s) as [e|k] eqn:H.
  - right. split; [now exists e|]. intros (k & [=] & _).
  - destruct (dict_mem (nx._node (graph g)) k) eqn:M.
    + left. exists k. apply dict_mem_in in M. auto.
    + right. split; [now exists ValueError|].
      intros (k' & [= <-] & I). apply dict_mem_in in I. congruence.
Qed.

Lemma first_occurrences_all (l : list key) (k : key) :
  In k (first_occurrences [] l) <-> In k l.
Proof.
  rewrite first_occurrences_in. simpl. tauto.
Qed.

(** What a document that loads contains, and the graph it loads to. *)
Lemma load_from_file_inv (graph_data : pyval) (g : Graph) :
  load_from_file graph_data = Return g ->
  exists nodes edges node_items edge_items,
    getitem graph_data "nodes" = Return nodes /\
    iter nodes = Return node_items /\
    Forall node_item_ok node_items /\
    getitem graph_data "edges" = Return edges /\
    iter edges = Return edge_items /\
    Forall edge_item_ok edge_items /\
    designation_ok graph_data "start_node"
                   (document_names node_items edge_items) /\
    designation_ok graph_data "goal_node"
                   (document_names node_items edge_items) /\
    nx.nodes (graph g) =
      first_occurrences [] (document_names node_items edge_items) /\
    start_node g = designation_in graph_data "start_node" /\
    goal_node g = designation_in graph_data "goal_node".
Proof.
  unfold load_from_file, designation_ok, designation_in.
  destruct (getitem graph_data "nodes") as [e|nodes] eqn:Gn; [discriminate|].
  cbn [bind].
  destruct (iter nodes) as [e|node_items] eqn:In_; [discriminate|].
  cbn [bind].
  destruct (load_nodes node_items init) as [e|g1] eqn:L1; [discriminate|].
  cbn [bind].
  destruct (load_nodes_inv node_items init g1 wf_init L1)
    as (F1 & W1 & N1 & S1 & G1).
  destruct (getitem graph_data "edges") as [e|edges] eqn:Ge; [discriminate|].
  cbn [bind].
  destruct (iter edges) as [e|edge_items] eqn:Ie; [discriminate|].
  cbn [bind].
  destruct (load_edges edge_items g1) as [e|g2] eqn:L2; [discriminate|].
  cbn [bind].
  destruct (load_edges_inv edge_items g1 g2 W1 L2)
    as (F2 & W2 & N2 & S2 & G2).
  assert (N : nx.nodes (graph g2) =
              first_occurrences [] (document_names node_items edge_items)).
  { unfold document_names. rewrite first_occurrences_app, N2, N1. reflexivity. }
  rewrite S1 in S2. rewrite G1 in G2. simpl in S2, G2.
  destruct (get graph_data "start_node") as [e|s] eqn:Gs; [discriminate|].
  cbn [bind].
  destruct (get graph_data "goal_node") as [e|gl] eqn:Gg.
  { destruct (if truthy s then _ else _); discriminate. }
  assert (St : forall g3,
             (if truthy s
              then bind (getitem graph_data "start_node")
                        (fun s' => call (set_start_node s' g2))
              else Return g2) = Return g3 ->
             graph g3 = graph g2 /\ goal_node g3 = KNone /\
             start_node g3 =
               (if truthy s
                then match hash s with Return k => k | Raise _ => KNone end
                else KNone) /\
             (truthy s = true ->
              exists k, hash s = Return k /\
                        In k (document_names node_items edge_items))).
  { intros g3. destruct (truthy s) eqn:T.
    - rewrite (get_truthy _ _ _ Gs T). cbn [bind].
      destruct (call_set_start_node s g2) as [(k & Hk & I & ->)|[[e ->] _]];
        [|discriminate].
      intros [= <-]. cbn. rewrite Hk. repeat split; auto.
      intros _. exists k. split; [reflexivity|].
      apply first_occurrences_all. now rewrite <- N.
    - intros [= <-]. repeat split; auto. discriminate. }
  destruct (if truthy s then _ else _) as [e|g3] eqn:E3; [discriminate|].
  destruct (St g3 eq_refl) as (Eg3 & Gl3 & Es3 & Ds). cbn [bind].
  destruct (truthy gl) eqn:T.
  - rewrite (get_truthy _ _ _ Gg T). cbn [bind].
    destruct (call_set_goal_node gl g3) as [(k & Hk & I & ->)|[[e ->] _]];
      [|discriminate].
    cbn [bind]. intros [= <-]. cbn [graph start_node goal_node].
    exists nodes, edges, node_items, edge_items.
    repeat (split; [assumption || reflexivity|]).
    split; [intros s0 [= <-]; exact Ds|]. split.
    + intros s0 [= <-] _. exists k. split; [assumption|].
      apply first_occurrences_all. rewrite <- N, <- Eg3. exact I.
    + rewrite Eg3, Hk. auto.
  - cbn [bind]. intros [= <-].
    exists nodes, edges, node_items, edge_items.
    repeat (split; [assumption || reflexivity|]).
    split; [intros s0 [= <-]; exact Ds|]. split.
    + intros s0 [= <-] T'. congruence.
    + rewrite Eg3. auto.
Qed.

Lemma load_from_file_ok (graph_data : pyval) :
  loadable graph_data -> exists g, load_from_file graph_data = Return g.
Proof.
  intros (nodes & edges & node_items & edge_items &
          Gn & In_ & F1 & Ge & Ie & F2 & Ds & Dg).
  unfold load_from_file. rewrite Gn. cbn [bind]. rewrite In_. cbn [bind].
  destruct (load_nodes_ok node_items init wf_init F1) as [g1 L1].
  rewrite L1. cbn [bind].
  destruct (load_nodes_inv node_items init g1 wf_init L1)
    as (_ & W1 & N1 & _ & _).
  rewrite Ge. cbn [bind]. rewrite Ie. cbn [bind].
  destruct (load_edges_ok edge_items g1 W1 F2) as [g2 L2].
  rewrite L2. cbn [bind].
  destruct (load_edges_inv edge_items g1 g2 W1 L2) as (_ & W2 & N2 & _ & _).
  assert (N : nx.nodes (graph g2) =
              first_occurrences [] (document_names node_items edge_items)).
  { unfold document_names. rewrite first_occurrences_app, N2, N1. reflexivity. }
  destruct (getitem_get_any graph_data "nodes" "start_node" nodes Gn)
    as [s Gs].
  destruct (getitem_get_any graph_data "nodes" "goal_node" nodes Gn)
    as [gl Gg].
  rewrite Gs, Gg. cbn [bind].
  assert (St : exists g3,
             (if truthy s
              then bind (getitem graph_data "start_node")
                        (fun s' => call (set_start_node s' g2))
              else Return g2) = Return g3 /\ graph g3 = graph g2).
  { destruct (truthy s) eqn:T; [|now exists g2].
    rewrite (get_truthy _ _ _ Gs T). cbn [bind].
    destruct (Ds s Gs T) as (k & Hk & I).
    destruct (call_set_start_node s g2) as [(k' & _ & _ & ->)|[_ A]].
    - eexists. split; reflexivity.
    - exfalso. apply A. exists k. split; [assumption|].
      rewrite N. now apply first_occurrences_all. }
  destruct St as (g3 & -> & Eg3). cbn [bind].
  destruct (truthy gl) eqn:T; [|now exists g3].
  rewrite (get_truthy _ _ _ Gg T). cbn [bind].
  destruct (Dg gl Gg T) as (k & Hk & I).
  destruct (call_set_goal_node gl g3) as [(k' & _ & _ & ->)|[_ A]].
  - eexists. reflexivity.
  - exfalso. apply A. exists k. split; [assumption|].
    rewrite Eg3, N. now apply first_occurrences_all.
Qed.

(** [load_from_file] returns a graph exactly for the documents that are
    objects with iterable ['nodes'] and ['edges'], whose node entries each
    have an ['id'] that is an identifier and a ['heuristic'], whose edge
    entries each have ['from'] and ['to'] that are identifiers and a
    ['weight'], and whose ['start_node'] and ['goal_node'], when present
    and true as conditions, name an identifier that occurs as a node id or
    as an edge endpoint.  For every other document it raises. *)
Theorem load_from_file_accepts (graph_data : pyval) :
  (loadable graph_data <-> exists g, load_from_file graph_data = Return g) /\
  (~ loadable graph_data -> raised (load_from_file graph_data)).
Proof.
  assert (E : loadable graph_data <->
              exists g, load_from_file graph_data = Return g).
  { split; [apply load_from_file_ok|].
    intros [g L].
    destruct (load_from_file_inv graph_data g L)
      as (nodes & edges & node_items & edge_items & H).
    exists nodes, edges, node_items, edge_items. tauto. }
  split; [exact E|]. intro N.
  destruct (load_from_file graph_data) as [e|g] eqn:L; [now exists e|].
  exfalso. apply N, E. now exists g.
Qed.

Lemma load_from_file_accepts_witness :
  raised (load_from_file
            (PDict [("nodes", PList [PDict [("id", PStr "A")]]);
                    ("edges", PList [])])).
Proof.
  apply (proj2 (load_from_file_accepts
                  (PDict [("nodes", PList [PDict [("id", PStr "A")]]);
                          ("edges", PList [])]))).
  intros (nodes & edges & node_items & edge_items &
          Gn & In_ & F1 & _).
  injection Gn as <-. injection In_ as <-.
  inversion F1 as [|? ? (id & h & k & _ & Gh & _) _]. discriminate Gh.
Defined.

(** The graph a document loads to: its nodes are the identifiers the
    document names, node ids first and edge endpoints after, each at the
    place of its first occurrence; its start and goal are the values of
    ['start_node'] and ['goal_node'] when these are true as conditions, and
    [None] when they are missing, null, [""] or [0]. *)
Theorem load_from_file_result (graph_data : pyval) (g : Graph) :
  load_from_file graph_data = Return g ->
  nx.nodes (graph g) =
    first_occurrences []
      (document_names (items_of graph_data "nodes")
                      (items_of graph_data "edges")) /\
  start_node g = designation_in graph_data "start_node" /\
  goal_node g = designation_in graph_data "goal_node".
Proof.
  intro L.
  destruct (load_from_file_inv graph_data g L)
    as (nodes & edges & node_items & edge_items &
        Gn & In_ & _ & Ge & Ie & _ & _ & _ & N & S & G).
  unfold items_of. rewrite Gn, Ge. cbn [bind]. rewrite In_, Ie. auto.
Qed.

Lemma load_from_file_result_witness :
  exists g,
    load_from_file
      (PDict [("nodes", PList [PDict [("id", PStr "B");
                                      ("heuristic", PInt 1)]]);
              ("edges", PList [PDict [("from", PStr "A"); ("to", PStr "B");
                                      ("weight", PInt 1)]]);
              ("start_node", PStr "")]) = Return g /\
    nx.nodes (graph g) = [KStr "B"; KStr "A"] /\
    start_node g = KNone /\
    goal_node g = KNone.
Proof.
  eexists. split; [vm_compute; reflexivity|].
  refine (load_from_file_result
            (PDict [("nodes", PList [PDict [("id", PStr "B");
                                            ("heuristic", PInt 1)]]);
                    ("edges", PList [PDict [("from", PStr "A");
                                            ("to", PStr "B");
                                            ("weight", PInt 1)]]);
                    ("start_node", PStr "")]) _ _).
  vm_compute. reflexivity.
Defined.

(* ================================================================= *)
(** ** Loading is a history of calls *)

Lemma load_nodes_run (items : list pyval) :
  forall g g', load_nodes items g = Return g' ->
  g' = run (map (fun item => OpAddNode (field item "id")
                                       (field item "heuristic")) items) g.
Proof.
  induction items as [|x items IH]; intros g g' L.
  - now injection L as <-.
  - cbn [load_nodes] in L. unfold field at 1 2. cbn [map run fold_left].
    destruct (getitem x "id") as [e|id]; [discriminate|]. cbn [bind] in L.
    destruct (getitem x "heuristic") as [e|h]; [discriminate|].
    cbn [bind] in L.
    destruct (call (add_node id h g)) as [e|g1] eqn:C; [discriminate|].
    cbn [bind] in L. apply (call_exec (OpAddNode id h)) in C. subst g1.
    now apply IH.
Qed.

Lemma load_edges_run (items : list pyval) :
  forall g g', load_edges items g = Return g' ->
  g' = run (map (fun item => OpAddEdge (field item "from") (field item "to")
                                       (field item "weight")) items) g.
Proof.
  induction items as [|x items IH]; intros g g' L.
  - now injection L as <-.
  - cbn [load_edges] in L. unfold field at 1 2 3. cbn [map run fold_left].
    destruct (getitem x "from") as [e|f]; [discriminate|]. cbn [bind] in L.
    destruct (getitem x "to") as [e|t]; [discriminate|]. cbn [bind] in L.
    destruct (getitem x "weight") as [e|w]; [discriminate|]. cbn [bind] in L.
    destruct (call (add_edge f t w g)) as [e|g1] eqn:C; [discriminate|].
    cbn [bind] in L. apply (call_exec (OpAddEdge f t w)) in C. subst g1.
    now apply IH.
Qed.

Lemma load_from_file_run (graph_data : pyval) (g : Graph) :
  load_from_file graph_data = Return g ->
  g = run (document_ops graph_data) init.
Proof.
  unfold load_from_file, document_ops, items_of, designation_ops.
  destruct (getitem graph_data "nodes") as [e|nodes]; [discriminate|].
  cbn [bind].
  destruct (iter nodes) as [e|node_items]; [discriminate|]. cbn [bind].
  destruct (load_nodes node_items init) as [e|g1] eqn:L1; [discriminate|].
  cbn [bind]. apply load_nodes_run in L1.
  destruct (getitem graph_data "edges") as [e|edges]; [discriminate|].
  cbn [bind].
  destruct (iter edges) as [e|edge_items]; [discriminate|]. cbn [bind].
  destruct (load_edges edge_items g1) as [e|g2] eqn:L2; [discriminate|].
  cbn [bind]. apply load_edges_run in L2.
  rewrite !run_app, <- L1, <- L2.
  destruct (get graph_data "start_node") as [e|s] eqn:Gs; [discriminate|].
  cbn [bind].
  destruct (get graph_data "goal_node") as [e|gl] eqn:Gg.
  { destruct (if truthy s then _ else _); discriminate. }
  destruct (truthy s) eqn:Ts.
  - rewrite (get_truthy _ _ _ Gs Ts). cbn [bind].
    destruct (call (set_start_node s g2)) as [e|g3] eqn:C3; [discriminate|].
    cbn [bind]. apply (call_exec (OpSetStart s)) in C3.
    cbn [run fold_left]. rewrite <- C3.
    destruct (truthy gl) eqn:Tg.
    + rewrite (get_truthy _ _ _ Gg Tg). cbn [bind].
      destruct (call (set_goal_node gl g3)) as [e|g4] eqn:C4; [discriminate|].
      cbn [bind]. apply (call_exec (OpSetGoal gl)) in C4.
      intros [= <-]. exact C4.
    + intros [= <-]. reflexivity.
  - cbn [bind run fold_left].
    destruct (truthy gl) eqn:Tg.
    + rewrite (get_truthy _ _ _ Gg Tg). cbn [bind].
      destruct (call (set_goal_node gl g2)) as [e|g4] eqn:C4; [discriminate|].
      cbn [bind]. apply (call_exec (OpSetGoal gl)) in C4.
      intros [= <-]. exact C4.
    + intros [= <-]. reflexivity.
Qed.

(** A graph that was loaded is the graph that the calls of the document
    build on a fresh graph: [add_node] for each node entry, [add_edge] for
    each edge entry, then the two setters.  So a later entry for the same
    node or edge overwrites the earlier one: [get_heuristic] returns the
    heuristic of the last node entry for the identifier, [get_edge_weight]
    the weight of the last edge entry for the pair, and [get_neighbors]
    lists the targets in the order of their first edge entry. *)
Theorem load_from_file_as_calls (graph_data : pyval) (g : Graph) :
  load_from_file graph_data = Return g ->
  let ops := document_ops graph_data in
  g = run ops init /\
  (forall k h, last_heuristic ops k None = Some h ->
               get_heuristic (of_key k) g = Return h) /\
  (forall u v w, last_weight ops (u, v) None = Some w ->
                 get_edge_weight (of_key u) (of_key v) g = Return w) /\
  (forall k, In k (nx.nodes (graph g)) ->
             get_neighbors (of_key k) g =
             Return (first_occurrences [] (targets ops k))).
Proof.
  intros L ops. pose proof (load_from_file_run graph_data g L) as E.
  fold ops in E. pose proof (load_from_file_wf graph_data g L) as W.
  split; [exact E|]. split; [|split].
  - intros k h H. rewrite get_heuristic_of, E.
    rewrite (run_heuristic ops init k wf_init).
    change (heuristic_of (graph init) k) with (@None pyval). now rewrite H.
  - intros u v w H. rewrite (get_edge_weight_of u v g W), E.
    rewrite (run_weight ops init (u, v) wf_init).
    change (weight_of (graph init) (u, v)) with (@None pyval). now rewrite H.
  - intros k I. rewrite (get_neighbors_adj (of_key k) k g W (hash_of_key k) I).
    rewrite E. rewrite (run_adj ops init k wf_init). reflexivity.
Qed.

Lemma load_from_file_as_calls_witness :
  exists g,
    load_from_file
      (PDict [("nodes", PList [PDict [("id", PStr "A"); ("heuristic", PInt 1)];
                               PDict [("id", PStr "A"); ("heuristic", PInt 2)]]);
              ("edges", PList [])]) = Return g /\
    get_heuristic (PStr "A") g = Return (PInt 2).
Proof.
  eexists. split; [vm_compute; reflexivity|].
  refine (proj1 (proj2
    (load_from_file_as_calls
       (PDict [("nodes", PList [PDict [("id", PStr "A"); ("heuristic", PInt 1)];
                                PDict [("id", PStr "A");
                                       ("heuristic", PInt 2)]]);
               ("edges", PList [])]) _ _)) (KStr "A") (PInt 2) _).
  - vm_compute. reflexivity.
  - reflexivity.
Defined.

(* ================================================================= *)
(** ** The colours of [draw_graph] *)

Lemma colors_fold (f : key -> string * string) (l : list key) :
  forall a b : list string,
    fold_left (fun acc node => (fst acc ++ [fst (f node)],
                                snd acc ++ [snd (f node)])) l (a, b) =
    (a ++ map (fun n => fst (f n)) l, b ++ map (fun n => snd (f n)) l).
Proof.
  induction l as [|x l IH]; intros a b; simpl.
  - now rewrite !app_nil_r.
  - rewrite IH, <- !app_assoc. reflexivity.
Qed.

Lemma node_colors_map (self : Graph) :
  GraphVisualizer.node_colors self =
  (map (fun n => fst (GraphVisualizer.draw_color self n))
       (nx.nodes (graph self)),
   map (fun n => snd (GraphVisualizer.draw_color self n))
       (nx.nodes (graph self))).
Proof.
  unfold GraphVisualizer.node_colors.
  apply (colors_fold (GraphVisualizer.draw_color self)).
Qed.

Lemma count_occ_map_one (f : key -> string) (c : string) (k : key)
    (l : list key) :
  NoDup l -> In k l -> (forall n, In n l -> (f n = c <-> n = k)) ->
  count_occ string_dec (map f l) c = 1%nat.
Proof.
  induction l as [|x l IH]; intros N I E; [contradiction|].
  inversion N as [|? ? N1 N2]; subst. simpl.
  destruct (string_dec (f x) c) as [Y|Y].
  - apply E in Y; [|now left]. subst x. f_equal.
    apply count_occ_not_In. intro J. apply in_map_iff in J.
    destruct J as (n & Fn & Jn). apply E in Fn; [|now right]. congruence.
  - destruct I as [->|I]; [exfalso; apply Y, E; [now left|reflexivity]|].
    apply IH; auto. intros n J. apply E. now right.
Qed.

Lemma count_occ_map_none (f : key -> string) (c : string) (l : list key) :
  (forall n, In n l -> f n <> c) ->
  count_occ string_dec (map f l) c = 0%nat.
Proof.
  intro E. apply count_occ_not_In. intro J. apply in_map_iff in J.
  destruct J as (n & Fn & Jn). now apply (E n).
Qed.

Lemma draw_color_start (self : Graph) (n : key) :
  fst (GraphVisualizer.draw_color self n) = "#274690" <->
  n = start_node self.
Proof.
  unfold GraphVisualizer.draw_color.
  destruct (keq n (start_node self)) eqn:S.
  - apply keq_eq in S. simpl. tauto.
  - apply keq_false in S. destruct (keq n (goal_node self)); simpl;
      split; try discriminate; contradiction.
Qed.

Lemma draw_color_goal (self : Graph) (n : key) :
  fst (GraphVisualizer.draw_color self n) = "#f9a826" <->
  n = goal_node self /\ n <> start_node self.
Proof.
  unfold GraphVisualizer.draw_color.
  destruct (keq n (start_node self)) eqn:S.
  - apply keq_eq in S. simpl. split; [discriminate|tauto].
  - apply keq_false in S. destruct (keq n (goal_node self)) eqn:G.
    + apply keq_eq in G. simpl. tauto.
    + apply keq_false in G. simpl. split; [discriminate|tauto].
Qed.

(** [draw_graph] colours one node per graph node, in node order.  When a
    start node is set exactly one node has the start colour; exactly one
    node has the goal colour when a goal is set and is not also the start,
    and none has it otherwise: a node that is both start and goal is drawn
    as the start. *)
Theorem draw_graph_colors (self : Graph) :
  wf self ->
  let fills := fst (GraphVisualizer.node_colors self) in
  let borders := snd (GraphVisualizer.node_colors self) in
  List.length fills = List.length (nx.nodes (graph self)) /\
  List.length borders = List.length (nx.nodes (graph self)) /\
  count_occ string_dec fills "#274690" =
    (if key_eq_dec (start_node self) KNone then 0 else 1)%nat /\
  count_occ string_dec fills "#f9a826" =
    (if key_eq_dec (goal_node self) KNone then 0
     else if key_eq_dec (goal_node self) (start_node self) then 0
          else 1)%nat.
Proof.
  intros [W [Ds Dg]]. rewrite node_colors_map. cbn [fst snd].
  rewrite !length_map. split; [reflexivity|]. split; [reflexivity|]. split.
  - destruct (key_eq_dec (start_node self) KNone) as [E|E].
    + apply count_occ_map_none. intros n I Y. apply draw_color_start in Y.
      subst n. rewrite E in I. now apply (wf_not_none _ W).
    + apply (count_occ_map_one _ _ (start_node self));
        [apply (wf_nodup _ W)|now apply Ds|].
      intros n _. apply draw_color_start.
  - destruct (key_eq_dec (goal_node self) KNone) as [E|E].
    + apply count_occ_map_none. intros n I Y. apply draw_color_goal in Y.
      destruct Y as [-> _]. rewrite E in I. now apply (wf_not_none _ W).
    + destruct (key_eq_dec (goal_node self) (start_node self)) as [Q|Q].
      * apply count_occ_map_none. intros n I Y. apply draw_color_goal in Y.
        destruct Y as [-> Y]. contradiction.
      * apply (count_occ_map_one _ _ (goal_node self));
          [apply (wf_nodup _ W)|now apply Dg|].
        intros n _. rewrite draw_color_goal. split; [tauto|].
        intros ->. split; [reflexivity|exact Q].
Qed.

Lemma draw_graph_colors_witness :
  let fills := fst (GraphVisualizer.node_colors scenario) in
  let borders := snd (GraphVisualizer.node_colors scenario) in
  List.length fills = List.length (nx.nodes (graph scenario)) /\
  List.length borders = List.length (nx.nodes (graph scenario)) /\
  count_occ string_dec fills "#274690" =
    (if key_eq_dec (start_node scenario) KNone then 0 else 1)%nat /\
  count_occ string_dec fills "#f9a826" =
    (if key_eq_dec (goal_node scenario) KNone then 0
     else if key_eq_dec (goal_node scenario) (start_node scenario) then 0
          else 1)%nat.
Proof.
  apply (draw_graph_colors scenario). apply run_wf, wf_init.
Defined.

(* ================================================================= *)
(** ** The highlighted path *)

Lemma py_index_nat {A : Type} (l : list A) (i : nat) :
  GraphVisualizer.py_index l (Z.of_nat i) = nth_error l i.
Proof.
  unfold GraphVisualizer.py_index.
  destruct (Z.ltb_spec (Z.of_nat i) (- Z.of_nat (List.length l))); [lia|].
  destruct (Z.ltb_spec (Z.of_nat i) 0); [lia|].
  now rewrite Nat2Z.id.
Qed.

Lemma py_index_last {A : Type} (l : list A) :
  GraphVisualizer.py_index l (-1) = nth_error l (List.length l - 1) /\
  (l = [] -> GraphVisualizer.py_index l (-1) = None).
Proof.
  unfold GraphVisualizer.py_index. destruct l as [|x l]; [now split|].
  split; [|discriminate].
  cbn [List.length].
  destruct (Z.ltb_spec (-1) (- Z.of_nat (S (List.length l)))); [lia|].
  cbn [Z.ltb Z.compare]. f_equal. lia.
Qed.

Lemma path_edges_nat (path : list key) :
  GraphVisualizer.path_edges path =
  fold_right
    (fun i acc =>
       match nth_error path i, nth_error path (S i), acc with
       | Some a, Some b, Some rest => Some ((a, b) :: rest)
       | _, _, _ => None
       end)
    (Some []) (seq 0 (List.length path - 1)).
Proof.
  unfold GraphVisualizer.path_edges.
  replace (Z.to_nat (Z.of_nat (List.length path) - 1))
    with (List.length path - 1)%nat by lia.
  induction (seq 0 (List.length path - 1)) as [|i l IH]; [reflexivity|].
  cbn [fold_right]. rewrite IH, py_index_nat.
  replace (Z.of_nat i + 1)%Z with (Z.of_nat (S i)) by lia.
  now rewrite py_index_nat.
Qed.

Lemma fold_right_shift {A B C : Type} (f : B -> C -> C) (g : A -> B) (c : C)
    (l : list A) :
  fold_right f c (map g l) = fold_right (fun x acc => f (g x) acc) c l.
Proof.
  induction l as [|x l IH]; simpl; [reflexivity|now rewrite IH].
Qed.

Lemma path_edges_combine (path : list key) :
  GraphVisualizer.path_edges path = Some (combine path (tl path)).
Proof.
  rewrite path_edges_nat.
  induction path as [|x path IH]; [reflexivity|].
  destruct path as [|y path]; [reflexivity|].
  cbn [List.length tl combine] in *.
  replace (S (S (List.length path)) - 1)%nat with (S (List.length path))
    by lia.
  replace (S (List.length path) - 1)%nat with (List.length path) in IH
    by lia.
  cbn [seq fold_right nth_error]. rewrite <- seq_shift, fold_right_shift.
  cbn [nth_error]. cbn [nth_error] in IH. rewrite IH. reflexivity.
Qed.

Lemma path_nodes_interior (path : list key) :
  GraphVisualizer.path_nodes path = removelast (tl path).
Proof.
  unfold GraphVisualizer.path_nodes, GraphVisualizer.py_slice,
    GraphVisualizer.slice_bound.
  destruct path as [|x path]; [reflexivity|].
  cbn [List.length tl]. rewrite removelast_firstn_len.
  cbn [Z.ltb Z.compare].
  replace (Z.to_nat (Z.max 0 (Z.min (Z.of_nat (S (List.length path))) 1)))
    with 1%nat by lia.
  cbn [skipn]. f_equal. lia.
Qed.

(** The highlighted edges of [visualize_path] and of [update] are the
    pairs of consecutive nodes of the path: the comprehension never raises
    [IndexError], not even on the empty path, and gives one edge less than
    there are nodes.  The highlighted nodes [path[1:-1]] are the path
    without its first and last node, so a path of at most two nodes
    highlights none. *)
Theorem path_highlight (path : list key) :
  GraphVisualizer.path_edges path = Some (combine path (tl path)) /\
  List.length (combine path (tl path)) = (List.length path - 1)%nat /\
  GraphVisualizer.path_nodes path = removelast (tl path) /\
  List.length (GraphVisualizer.path_nodes path) = (List.length path - 2)%nat /\
  (forall first rest,
      path = first :: rest -> rest <> [] ->
      path = first :: GraphVisualizer.path_nodes path ++ [last rest first]).
Proof.
  split; [apply path_edges_combine|]. split; [|split; [|split]].
  - rewrite length_combine. destruct path; cbn [List.length tl]; lia.
  - apply path_nodes_interior.
  - rewrite path_nodes_interior, removelast_firstn_len, length_firstn.
    destruct path; cbn [List.length tl]; lia.
  - intros first rest -> N. rewrite path_nodes_interior. cbn [tl].
    f_equal. now apply app_removelast_last.
Qed.

Lemma path_highlight_witness :
  [KStr "A"; KStr "B"; KStr "C"] =
  KStr "A" :: GraphVisualizer.path_nodes [KStr "A"; KStr "B"; KStr "C"]
           ++ [last [KStr "B"; KStr "C"] (KStr "A")].
Proof.
  refine (proj2 (proj2 (proj2 (proj2
    (path_highlight [KStr "A"; KStr "B"; KStr "C"])))) 
    (KStr "A") [KStr "B"; KStr "C"] eq_refl _).
  discriminate.
Defined.

(* ================================================================= *)
(** ** The frames of the animation *)

(** For every frame number from 0 on, [update] shows the step of that
    number, and the last step once the number is past the end; with no
    steps at all the lookup raises [IndexError] for every frame number,
    negative ones included. *)
Theorem frame_shown (steps : list SearchStep) :
  (forall n : nat,
      GraphVisualizer.frame_step steps (Z.of_nat n) =
      nth_error steps (Nat.min n (List.length steps - 1))) /\
  (forall z : Z, GraphVisualizer.frame_step [] z = None) /\
  (forall n : nat,
      steps <> [] -> GraphVisualizer.frame_step steps (Z.of_nat n) <> None).
Proof.
  assert (A : forall n : nat,
             GraphVisualizer.frame_step steps (Z.of_nat n) =
             nth_error steps (Nat.min n (List.length steps - 1))).
  { intro n. unfold GraphVisualizer.frame_step.
    destruct (Z.ltb_spec (Z.of_nat n) (Z.of_nat (List.length steps))).
    - rewrite py_index_nat. f_equal. lia.
    - rewrite (proj1 (py_index_last steps)). f_equal. lia. }
  split; [exact A|]. split.
  - intro z. unfold GraphVisualizer.frame_step, GraphVisualizer.py_index.
    cbn [List.length Z.of_nat Z.opp].
    destruct (Z.ltb_spec z 0); [|reflexivity].
    destruct (Z.ltb_spec z 0); [reflexivity|lia].
  - intros n N. rewrite A. apply nth_error_Some.
    destruct steps; [contradiction|]. cbn [List.length]. lia.
Qed.

Lemma frame_shown_witness :
  GraphVisualizer.frame_step
    [{| current := KStr "A"; visited := [KStr "A"];
        path_so_far := [KStr "A"] |}] (Z.of_nat 3) <> None.
Proof.
  apply (proj2 (proj2 (frame_shown
           [{| current := KStr "A"; visited := [KStr "A"];
               path_so_far := [KStr "A"] |}])) 3%nat).
  discriminate.
Defined.

Lemma update_colors_map (self : Graph) (step : SearchStep) :
  GraphVisualizer.update_colors self step =
  (map (fun n => fst (GraphVisualizer.update_color self step n))
       (nx.nodes (graph self)),
   map (fun n => snd (GraphVisualizer.update_color self step n))
       (nx.nodes (graph self))).
Proof.
  unfold GraphVisualizer.update_colors.
  apply (colors_fold (GraphVisualizer.update_color self step)).
Qed.

Lemma update_color_start (self : Graph) (step : SearchStep) (n : key) :
  fst (GraphVisualizer.update_color self step n) = "#274690" <->
  n = start_node self.
Proof.
  unfold GraphVisualizer.update_color.
  destruct (keq n (start_node self)) eqn:S.
  - apply keq_eq in S. simpl. tauto.
  - apply keq_false in S.
    destruct (keq n (goal_node self)), (keq n (current step)),
      (existsb (keq n) (visited step)); simpl;
      split; try discriminate; contradiction.
Qed.

Lemma update_color_goal (self : Graph) (step : SearchStep) (n : key) :
  fst (GraphVisualizer.update_color self step n) = "#f9a826" <->
  n = goal_node self /\ n <> start_node self.
Proof.
  unfold GraphVisualizer.update_color.
  destruct (keq n (start_node self)) eqn:S.
  - apply keq_eq in S. simpl. split; [discriminate|tauto].
  - apply keq_false in S. destruct (keq n (goal_node self)) eqn:G.
    + apply keq_eq in G. simpl. tauto.
    + apply keq_false in G.
      destruct (keq n (current step)), (existsb (keq n) (visited step));
        simpl; (split; [discriminate|tauto]).
Qed.

Lemma update_color_current (self : Graph) (step : SearchStep) (n : key) :
  fst (GraphVisualizer.update_color self step n) = "#ff5e5b" <->
  n = current step /\ n <> start_node self /\ n <> goal_node self.
Proof.
  unfold GraphVisualizer.update_color.
  destruct (keq n (start_node self)) eqn:S.
  - apply keq_eq in S. simpl. split; [discriminate|tauto].
  - apply keq_false in S. destruct (keq n (goal_node self)) eqn:G.
    + apply keq_eq in G. simpl. split; [discriminate|tauto].
    + apply keq_false in G. destruct (keq n (current step)) eqn:C.
      * apply keq_eq in C. simpl. tauto.
      * apply keq_false in C.
        destruct (existsb (keq n) (visited step)); simpl;
          (split; [discriminate|tauto]).
Qed.

(** In every frame of the animation the start node and the goal node are
    drawn as [draw_graph] draws them, whatever the step: one node in the
    start colour when a start is set, one in the goal colour when a goal is
    set that is not the start.  The colour of the current node shows on one
    node when the step's current node is a node of the graph other than the
    start and the goal, and on no node otherwise: the frame that expands
    the start, and the one that reaches the goal, show no current node. *)
Theorem update_colors_by_priority (self : Graph) (step : SearchStep) :
  wf self ->
  let fills := fst (GraphVisualizer.update_colors self step) in
  List.length fills = List.length (nx.nodes (graph self)) /\
  count_occ string_dec fills "#274690" =
    count_occ string_dec (fst (GraphVisualizer.node_colors self)) "#274690" /\
  count_occ string_dec fills "#f9a826" =
    count_occ string_dec (fst (GraphVisualizer.node_colors self)) "#f9a826" /\
  count_occ string_dec fills "#ff5e5b" =
    (if in_dec key_eq_dec (current step) (nx.nodes (graph self))
     then if key_eq_dec (current step) (start_node self) then 0
          else if key_eq_dec (current step) (goal_node self) then 0 else 1
     else 0)%nat.
Proof.
  intros [W [Ds Dg]]. rewrite update_colors_map, node_colors_map.
  cbn [fst snd]. rewrite length_map. split; [reflexivity|].
  assert (Same : forall c (f g : key -> string) l,
             (forall n, f n = c <-> g n = c) ->
             count_occ string_dec (map f l) c =
             count_occ string_dec (map g l) c).
  { intros c f g l E. induction l as [|x l IH]; [reflexivity|]. simpl.
    destruct (string_dec (f x) c) as [Y|Y], (string_dec (g x) c) as [Y'|Y'];
      try (now rewrite IH).
    - exfalso. apply Y'. now apply E.
    - exfalso. apply Y. now apply E. }
  split; [|split].
  - apply Same. intro n. now rewrite update_color_start, draw_color_start.
  - apply Same. intro n. now rewrite update_color_goal, draw_color_goal.
  - destruct (in_dec key_eq_dec (current step) (nx.nodes (graph self)))
      as [I|I].
    + destruct (key_eq_dec (current step) (start_node self)) as [S|S].
      * apply count_occ_map_none. intros n _ Y.
        apply update_color_current in Y. destruct Y as (-> & Y & _).
        contradiction.
      * destruct (key_eq_dec (current step) (goal_node self)) as [G|G].
        -- apply count_occ_map_none. intros n _ Y.
           apply update_color_current in Y. destruct Y as (-> & _ & Y).
           contradiction.
        -- apply (count_occ_map_one _ _ (current step));
             [apply (wf_nodup _ W)|exact I|].
           intros n _. rewrite update_color_current. split; [tauto|].
           intros ->. auto.
    + apply count_occ_map_none. intros n J Y.
      apply update_color_current in Y. destruct Y as (-> & _). contradiction.
Qed.

Lemma update_colors_by_priority_witness :
  let step := {| current := KStr "A"; visited := [KStr "A"];
                 path_so_far := [KStr "A"] |} in
  let fills := fst (GraphVisualizer.update_colors scenario step) in
  List.length fills = List.length (nx.nodes (graph scenario)) /\
  count_occ string_dec fills "#274690" =
    count_occ string_dec (fst (GraphVisualizer.node_colors scenario))
              "#274690" /\
  count_occ string_dec fills "#f9a826" =
    count_occ string_dec (fst (GraphVisualizer.node_colors scenario))
              "#f9a826" /\
  count_occ string_dec fills "#ff5e5b" =
    (if in_dec key_eq_dec (current step) (nx.nodes (graph scenario))
     then if key_eq_dec (current step) (start_node scenario) then 0
          else if key_eq_dec (current step) (goal_node scenario) then 0
               else 1
     else 0)%nat.
Proof.
  apply (update_colors_by_priority scenario
           {| current := KStr "A"; visited := [KStr "A"];
              path_so_far := [KStr "A"] |}).
  apply run_wf, wf_init.
Defined.

Example path_edges_empty :
  GraphVisualizer.path_edges [] = Some [] /\
  GraphVisualizer.path_nodes [KStr "A"; KStr "C"] = [].
Proof. split; reflexivity. Qed.

Example frame_step_negative :
  GraphVisualizer.frame_step
    [{| current := KStr "A"; visited := []; path_so_far := [] |};
     {| current := KStr "B"; visited := []; path_so_far := [] |}] (-1)
  = Some {| current := KStr "B"; visited := []; path_so_far := [] |}.
Proof. reflexivity. Qed.
